(** * train_tpu.py: the per-core training loop of the TTS trainer

    A shallow embedding of [src/train_tpu.py].  The script is one long
    function, [_mp_fn], run once per TPU core.  It is embedded as a
    computation in a writer/error monad: the events a run emits are the
    calls it makes into its collaborators (optimizer, XLA runtime,
    data pipeline, model builder), in program order, and a run either
    returns or raises a Python exception.

    What the script cannot see -- whether a collaborator raises, what a
    network outputs, what the random generators return -- is read from a
    [world] record or from the [batch] the loaders deliver.

    Numbers.  Python ints are [Z].  Float scalars are [fl]: an exact
    rational or NaN; rounding and overflow to infinity are not modelled. *)

From Stdlib Require Import ZArith QArith Qabs List String Ascii Bool Lia.
Import ListNotations.
Set Warnings "-register-all".
Local Open Scope string_scope.
Local Open Scope list_scope.
Local Open Scope Z_scope.

(** ** Python values, exceptions and the YAML configuration *)

Module Py.

Inductive exn : Type :=
| KeyError (key : string)
| TypeError (msg : string)
| AttributeError (name : string)
| ValueError (msg : string)
| ZeroDivisionError
| RuntimeError (msg : string)
| Exception (msg : string)
| SystemExit (code : Z).

(** [except Exception] catches every class above but [SystemExit]. *)
Definition is_Exception (e : exn) : bool :=
  match e with
  | SystemExit _ => false
  | _ => true
  end.

Inductive result (A : Type) : Type :=
| Ok (a : A)
| Raise (e : exn).
Arguments Ok {A} a.
Arguments Raise {A} e.

(** What [yaml.safe_load] returns. *)
Inductive yaml : Type :=
| YNull
| YBool (b : bool)
| YInt (z : Z)
| YFloat (q : Q)
| YStr (s : string)
| YSeq (items : list yaml)
| YMap (entries : list (string * yaml)).

Fixpoint assoc (k : string) (m : list (string * yaml)) : option yaml :=
  match m with
  | [] => None
  | (k', v) :: m' => if String.eqb k k' then Some v else assoc k m'
  end.

Definition quote (k : string) : string := ("'" ++ k ++ "'")%string.

(** [str(e)]: a [KeyError] prints the repr of its key. *)
Definition str (e : exn) : string :=
  match e with
  | KeyError k => quote k
  | TypeError m | ValueError m | RuntimeError m | Exception m => m
  | AttributeError n => n
  | ZeroDivisionError => "division by zero"
  | SystemExit _ => "SystemExit"
  end.

(** [d[k]] *)
Definition getitem (d : yaml) (k : string) : result yaml :=
  match d with
  | YMap m =>
      match assoc k m with
      | Some v => Ok v
      | None => Raise (KeyError k)
      end
  | YStr _ => Raise (TypeError "string indices must be integers")
  | YSeq _ => Raise (TypeError "list indices must be integers or slices, not str")
  | _ => Raise (TypeError "object is not subscriptable")
  end.

(** [d.get(k, default)] *)
Definition get (d : yaml) (k : string) (default : yaml) : result yaml :=
  match d with
  | YMap m =>
      match assoc k m with
      | Some v => Ok v
      | None => Ok default
      end
  | _ => Raise (AttributeError "get")
  end.

(** [m.k] on a [Munch]. *)
Definition getattr (d : yaml) (k : string) : result yaml :=
  match d with
  | YMap m =>
      match assoc k m with
      | Some v => Ok v
      | None => Raise (AttributeError k)
      end
  | _ => Raise (AttributeError k)
  end.

Fixpoint chars (s : string) : list yaml :=
  match s with
  | EmptyString => []
  | String c s' => YStr (String c EmptyString) :: chars s'
  end.

(** [list(v)] *)
Definition list_ (v : yaml) : result (list yaml) :=
  match v with
  | YStr s => Ok (chars s)
  | YSeq l => Ok l
  | YMap m => Ok (map (fun kv => YStr (fst kv)) m)
  | YNull => Raise (TypeError "'NoneType' object is not iterable")
  | YBool _ => Raise (TypeError "'bool' object is not iterable")
  | YInt _ => Raise (TypeError "'int' object is not iterable")
  | YFloat _ => Raise (TypeError "'float' object is not iterable")
  end.

Definition hashable (v : yaml) : bool :=
  match v with
  | YSeq _ | YMap _ => false
  | _ => true
  end.

Definition as_number (v : yaml) : option Q :=
  match v with
  | YBool b => Some (if b then 1%Q else 0%Q)
  | YInt z => Some (inject_Z z)
  | YFloat q => Some q
  | _ => None
  end.

(** [a == b] on hashable values (dict keys): numbers compare by value. *)
Definition key_eqb (a b : yaml) : bool :=
  match as_number a, as_number b with
  | Some x, Some y => Qeq_bool x y
  | None, None =>
      match a, b with
      | YNull, YNull => true
      | YStr s, YStr t => String.eqb s t
      | _, _ => false
      end
  | _, _ => false
  end.

(** [len({s: i for i, s in enumerate(symbols)})]: the number of distinct
    symbols; an unhashable symbol raises. *)
Fixpoint dict_len (seen : list yaml) (symbols : list yaml) : result Z :=
  match symbols with
  | [] => Ok (Z.of_nat (List.length seen))
  | s :: rest =>
      if hashable s
      then if existsb (key_eqb s) seen
           then dict_len seen rest
           else dict_len (s :: seen) rest
      else Raise (TypeError "unhashable type")
  end.

(** An integer where Python needs one ([range], slicing, [view], [%]). *)
Definition as_int (v : yaml) : result Z :=
  match v with
  | YInt z => Ok z
  | YBool b => Ok (if b then 1 else 0)
  | _ => Raise (TypeError "an integer is required")
  end.

(** [int(x / 2)] for an int [x]: true division, then truncation. *)
Definition int_half (x : Z) : Z := Z.quot x 2.

(** [int(x / 2 - 1)] for an int [x]: [x/2 - 1 = (x - 2)/2], truncated
    towards zero. *)
Definition int_half_minus_1 (x : Z) : Z := Z.quot (x - 2) 2.

(** [a // b] for [b <> 0]. *)
Definition floordiv (a b : Z) : Z := Z.div a b.

End Py.
Export Py.

(** ** Library primitives the script calls *)

(** Float scalars: [None] is NaN. *)
Module Fl.

Definition fl : Type := option Q.

Definition nan : fl := None.
Definition of_Z (z : Z) : fl := Some (inject_Z z).

Definition add (a b : fl) : fl :=
  match a, b with
  | Some x, Some y => Some (x + y)%Q
  | _, _ => None
  end.

Definition mul (a b : fl) : fl :=
  match a, b with
  | Some x, Some y => Some (x * y)%Q
  | _, _ => None
  end.

(** [a / n] for an int [n]; [x / 0] is not finite. *)
Definition div_Z (a : fl) (n : Z) : fl :=
  match a with
  | Some x => if n =? 0 then None else Some (x / inject_Z n)%Q
  | None => None
  end.

Definition isnan (a : fl) : bool :=
  match a with
  | None => true
  | Some _ => false
  end.

(** [a < b]; false when either side is NaN. *)
Definition ltb (a b : fl) : bool :=
  match a, b with
  | Some x, Some y => negb (Qle_bool y x)
  | _, _ => false
  end.

(** Equality of scalars up to the representation of the rational. *)
Definition eq (a b : fl) : Prop :=
  match a, b with
  | Some x, Some y => (x == y)%Q
  | None, None => True
  | _, _ => False
  end.

Definition sum (xs : list Q) : Q := fold_right Qplus 0%Q xs.

(** The mean of a tensor's elements; NaN for an empty tensor. *)
Definition mean (xs : list Q) : fl :=
  match xs with
  | [] => None
  | _ => Some (sum xs / inject_Z (Z.of_nat (List.length xs)))%Q
  end.

End Fl.
Abbreviation fl := Fl.fl.

(** A finite uniform distribution: every entry of the list is equally
    likely. *)
Definition dist (A : Type) : Type := list A.

Definition prob {A : Type} (d : dist A) (P : A -> bool) : Q :=
  (Z.of_nat (List.length (filter P d)) # Pos.of_nat (List.length d))%Q.

Module Np.

(** [np.random.randint(low, high)]: uniform over [low, high), and a
    [ValueError] when the range is empty. *)
Definition random_randint (low high : Z) : result (dist Z) :=
  if low <? high
  then Ok (map (fun k => low + Z.of_nat k) (seq 0 (Z.to_nat (high - low))))
  else Raise (ValueError "low >= high").

End Np.

Module Random.

(** [random.getrandbits(k)]: uniform over [0, 2^k). *)
Definition getrandbits (k : nat) : dist Z :=
  map Z.of_nat (seq 0 (2 ^ k)).

(** [bool(n)] *)
Definition bool_ (n : Z) : bool := negb (n =? 0).

End Random.

Module Torch.

Definition shape : Type := list Z.

Definition numel (s : shape) : Z := fold_right Z.mul 1 s.

(** [t.view(b, -1)] on a tensor of shape [s]. *)
Definition view (s : shape) (b : Z) : result shape :=
  if (0 <? b) && (numel s mod b =? 0)
  then Ok [b; numel s / b]
  else Raise (RuntimeError "shape is invalid for input size").

Fixpoint broadcastable_rev (a b : shape) : bool :=
  match a, b with
  | x :: a', y :: b' =>
      ((x =? y) || (x =? 1) || (y =? 1)) && broadcastable_rev a' b'
  | _, _ => true
  end.

(** Trailing dimensions must agree or be 1. *)
Definition broadcastable (a b : shape) : bool :=
  broadcastable_rev (rev a) (rev b).

(** [torch.broadcast_tensors(input, target)], through which both
    [F.smooth_l1_loss] and [F.l1_loss] pass their arguments. *)
Definition broadcast_tensors (input target : shape) : result unit :=
  if broadcastable input target
  then Ok tt
  else Raise (RuntimeError "The size of tensor a must match the size of tensor b").

(** [F.smooth_l1_loss(input, target)] and [F.l1_loss(input, target)] on
    tensors known by their shapes; [value] is the distance the
    networks' outputs have. *)
Definition smooth_l1_loss (input target : shape) (value : fl) : result fl :=
  match broadcast_tensors input target with
  | Ok _ => Ok value
  | Raise e => Raise e
  end.

Definition l1_loss_nd (input target : shape) (value : fl) : result fl :=
  match broadcast_tensors input target with
  | Ok _ => Ok value
  | Raise e => Raise e
  end.

Definition abs_diff (xy : Q * Q) : Q := Qabs (fst xy - snd xy).

(** [F.l1_loss(input, target)] on 1-D tensors, reduction [mean]. *)
Definition l1_loss (input target : list Q) : result fl :=
  let n := List.length input in
  let m := List.length target in
  if Nat.eqb n m then Ok (Fl.mean (map abs_diff (combine input target)))
  else match input, target with
       | [x], _ => Ok (Fl.mean (map (fun y => Qabs (x - y)) target))
       | _, [y] => Ok (Fl.mean (map (fun x => Qabs (x - y)) input))
       | _, _ => Raise (RuntimeError "The size of tensor a must match the size of tensor b")
       end.

(** [t[lo:hi]] for [0 <= lo]; a negative or short [hi] gives the empty
    or the clipped slice as in Python when [0 <= hi]. *)
Definition slice {A : Type} (lo hi : Z) (t : list A) : list A :=
  skipn (Z.to_nat lo) (firstn (Z.to_nat hi) t).

End Torch.

(** ** Batches, events and the world outside the script *)

(** What the loader delivers for one minibatch, and what the networks
    answer on it.  The tensors of a batch share their first dimension,
    the number of examples; only lengths, shapes and the values the
    script itself computes with are kept. *)
Record batch : Type := {
  input_lengths : list Z;            (* tokens per example *)
  mel_input_length : list Z;         (* mel frames per example *)
  aligner_raises : option exn;       (* what the aligner block, lines 226-229, raises *)
  d : list (list (list Q));          (* predictor logits: example, token, duration bin *)
  d_gt : list (list Z);              (* s2s_attn_mono.sum(-1): frames per token *)
  F0_real_shape : Torch.shape;       (* as returned by the pitch extractor *)
  F0_fake_shape : Torch.shape;       (* as returned by predictor.F0Ntrain *)
  F0_value : fl;                     (* the F0 distance between the two *)
  loss_norm_rec : fl;
  d_loss : fl;
  loss_mel : fl;
  loss_gen_all : fl;
  loss_s2s : fl;
  loss_mono : fl
}.

(** [texts.size(0)] *)
Definition size0 (b : batch) : Z := Z.of_nat (List.length (mel_input_length b)).

Inductive alignment : Type := Soft | Mono.
Inductive phase : Type := Discriminator | Generator.
Inductive checkpoint_file : Type := current_model | epoch_file (epoch : Z).

(** Calls into collaborators that the script makes once, or that write
    to storage; each may raise. *)
Inductive ext_call : Type :=
| os_makedirs
| shutil_copy
| SummaryWriter
| FileHandler
| get_data_path_list
| build_dataloader (validation : bool)
| MpDeviceLoader (validation : bool)
| recursive_munch
| build_model (n_token : Z)
| to_device
| GeneratorLoss
| DiscriminatorLoss
| build_optimizer
| load_checkpoint (path load_only_params ignore_modules freeze_modules : yaml)
| MultiResolutionSTFTLoss
| xm_save (file : checkpoint_file) (iters : Z) (val_loss : fl).

Inductive event : Type :=
| Seed (s : Z)
| Call (c : ext_call)
| Print (msg : string)
| PrintFound (n_token : Z)
| TrainMode                               (* lines 208-213 *)
| EvalMode                                (* line 388 *)
| Forward (module : string)               (* model.<module>(...) *)
| Matmul (a : alignment)                  (* asr = t_en @ ... *)
| ZeroGrad                                (* optimizer.zero_grad() *)
| Backward (p : phase) (loss : fl)        (* d_loss.backward(), g_loss.backward() *)
| OptStep (key : string)                  (* optimizer.step(key) *)
| MarkStep                                (* xm.mark_step() *)
| LoggerInfo (epoch step : Z) (values : list fl)
| LoggerValidation (mel dur f0 : fl)
| AddScalar (tag : string) (value : fl) (step : Z)
| MeshReduce (tag : string) (data : fl).

Record world : Type := {
  is_master_ordinal : bool;
  raises : ext_call -> option exn;
  checkpoint_epoch : Z;                    (* start_epoch from load_checkpoint *)
  checkpoint_iters : option Z;             (* iters from load_checkpoint; None is None *)
  len_train_list : Z;
  train_loader : Z -> list batch;          (* the batches of each epoch *)
  val_loader : Z -> list batch;
  getrandbits_1 : Z -> Z -> Z;             (* random.getrandbits(1) at epoch, batch index *)
  ordinal : nat;                           (* this worker's place among the workers *)
  peers : Z -> string -> list fl;          (* the other workers' data at a mesh_reduce *)
  sigmoid : Q -> Q;                        (* torch.sigmoid on one element *)
  bce_with_logits : Q -> Q -> Q            (* one element of the BCE-with-logits sum *)
}.

(** ** The monad: emitted events and a result or an exception *)

Definition M (A : Type) : Type := list event * result A.

Definition ret {A : Type} (a : A) : M A := ([], Ok a).

Definition bind {A B : Type} (c : M A) (k : A -> M B) : M B :=
  match c with
  | (tr, Ok a) => let (tr', r) := k a in (tr ++ tr', r)
  | (tr, Raise e) => (tr, Raise e)
  end.

Definition raise {A : Type} (e : exn) : M A := ([], Raise e).
Definition emit (ev : event) : M unit := ([ev], Ok tt).
Definition lift {A : Type} (r : result A) : M A := ([], r).
Definition when (c : bool) (body : M unit) : M unit := if c then body else ret tt.

(** [try: body / except Exception as e: handler e] *)
Definition try_except {A : Type} (body : M A) (handler : exn -> M A) : M A :=
  match body with
  | (tr, Raise e) =>
      if is_Exception e
      then let (tr', r) := handler e in (tr ++ tr', r)
      else (tr, Raise e)
  | ok => ok
  end.

Declare Scope py_scope.
Delimit Scope py_scope with py.
Notation "x <- c ;; k" := (bind c (fun x => k))
  (at level 61, c at next level, right associativity) : py_scope.
Notation "c ;; k" := (bind c (fun _ => k))
  (at level 61, right associativity) : py_scope.
Local Open Scope py_scope.

Definition events {A : Type} (c : M A) : list event := fst c.
Definition outcome {A : Type} (c : M A) : result A := snd c.

Definition call (W : world) (c : ext_call) : M unit :=
  match raises W c with
  | Some e => raise e
  | None => emit (Call c)
  end.

Definition nl : string := String (ascii_of_nat 10) EmptyString.

(** ** [_mp_fn], lines 46-201: configuration, collaborators, checkpoint *)

(** The values read at lines 55-79.  They stay YAML values: Python
    checks their types where they are used, not where they are read. *)
Record settings : Type := {
  log_dir : yaml;
  batch_size : yaml;
  epochs : yaml;
  save_freq : yaml;
  log_interval : yaml;
  max_len : yaml
}.

(** Lines 46-79. *)
Definition read_settings (W : world) (index : Z) (config : yaml) : M settings :=
  emit (Seed (1234 + index)) ;;
  log_dir <- lift (getitem config "log_dir") ;;
  when (is_master_ordinal W) (call W os_makedirs ;; call W shutil_copy) ;;
  when (is_master_ordinal W) (call W SummaryWriter ;; call W FileHandler) ;;
  batch_size <- lift (Py.get config "batch_size" (YInt 10)) ;;
  debug <- lift (Py.get config "debug" (YBool true)) ;;
  epochs <- lift (Py.get config "epochs" (YInt 200)) ;;
  save_freq <- lift (Py.get config "save_freq" (YInt 2)) ;;
  log_interval <- lift (Py.get config "log_interval" (YInt 10)) ;;
  data_params <- lift (Py.get config "data_params" YNull) ;;
  train_path <- lift (getitem data_params "train_data") ;;
  val_path <- lift (getitem data_params "val_data") ;;
  root_path <- lift (getitem data_params "root_path") ;;
  max_len <- lift (Py.get config "max_len" (YInt 200)) ;;
  ret {| log_dir := log_dir; batch_size := batch_size; epochs := epochs;
         save_freq := save_freq; log_interval := log_interval;
         max_len := max_len |}.

(** [list(config['symbol'][k])] *)
Definition symbol_list (config : yaml) (k : string) : M (list yaml) :=
  symbol <- lift (getitem config "symbol") ;;
  v <- lift (getitem symbol k) ;;
  lift (list_ v).

Definition cannot_find (e : exn) : string :=
  (nl ++ "ERROR: Cannot find " ++ str e ++ " in config file!" ++ nl
      ++ "Your config is likely outdated.")%string.

(** Lines 81-95; returns [n_token]. *)
Definition vocabulary (W : world) (config : yaml) : M Z :=
  try_except
    (pad <- symbol_list config "pad" ;;
     punctuation <- symbol_list config "punctuation" ;;
     letters <- symbol_list config "letters" ;;
     letters_ipa <- symbol_list config "letters_ipa" ;;
     extend <- symbol_list config "extend" ;;
     let symbols := (pad ++ punctuation ++ letters ++ letters_ipa ++ extend)%list in
     len <- lift (dict_len [] symbols) ;;
     let n_token := len + 1 in
     when (is_master_ordinal W) (emit (PrintFound n_token)) ;;
     ret n_token)
    (fun e => emit (Print (cannot_find e)) ;; raise (SystemExit 1)).

(** [Munch(v)] *)
Definition Munch (v : yaml) : result yaml :=
  match v with
  | YMap _ => Ok v
  | _ => Raise (TypeError "cannot convert to Munch")
  end.

(** [v != ''] *)
Definition ne_empty_str (v : yaml) : bool :=
  match v with
  | YStr EmptyString => false
  | _ => true
  end.

(** Lines 97-174; returns [loss_params] and [load_pretrained]. *)
Definition build (W : world) (config : yaml) (n_token : Z) : M (yaml * bool) :=
  loss_params <- lift (match getitem config "loss_params" with
                       | Ok v => Munch v | Raise e => Raise e end) ;;
  optimizer_params <- lift (match getitem config "optimizer_params" with
                            | Ok v => Munch v | Raise e => Raise e end) ;;
  call W get_data_path_list ;;
  when (is_master_ordinal W) (emit (Print (nl ++ "Initializing train_dataloader"))) ;;
  call W (build_dataloader false) ;;
  when (is_master_ordinal W) (emit (Print "Initializing val_dataloader")) ;;
  call W (build_dataloader true) ;;
  call W (MpDeviceLoader false) ;;
  call W (MpDeviceLoader true) ;;
  model_params <- lift (getitem config "model_params") ;;
  call W recursive_munch ;;
  call W (build_model n_token) ;;
  call W to_device ;;
  pretrained_model <- lift (Py.get config "pretrained_model" (YStr EmptyString)) ;;
  let load_pretrained := ne_empty_str pretrained_model in
  call W GeneratorLoss ;;
  call W DiscriminatorLoss ;;
  lr <- lift (getattr optimizer_params "lr") ;;
  ft_lr <- lift (getattr optimizer_params "ft_lr") ;;
  call W build_optimizer ;;
  ret (loss_params, load_pretrained).

Definition default_training_strats : yaml :=
  YMap [("ignore_modules", YStr EmptyString); ("freeze_modules", YStr EmptyString)].

(** Lines 176-201; returns [start_epoch] and [iters]. *)
Definition load_pretrained_model (W : world) (config : yaml)
    (load_pretrained : bool) : M (Z * Z) :=
  (if load_pretrained
   then
     training_strats <-
       try_except (lift (getitem config "training_strats"))
         (fun _ =>
            when (is_master_ordinal W)
              (emit (Print (nl ++ "No training_strats found in config. Proceeding with default settings..."))) ;;
            ret default_training_strats) ;;
     path <- lift (getitem config "pretrained_model") ;;
     load_only_params <- lift (Py.get config "load_only_params" (YBool true)) ;;
     ignore_modules <- lift (getitem training_strats "ignore_modules") ;;
     freeze_modules <- lift (getitem training_strats "freeze_modules") ;;
     call W (load_checkpoint path load_only_params ignore_modules freeze_modules)
   else raise (Exception "Must have a pretrained!")) ;;
  let start_epoch := checkpoint_epoch W in
  let iters := match checkpoint_iters W with Some n => n | None => 0 end in
  call W MultiResolutionSTFTLoss ;;
  when (is_master_ordinal W) (emit (Print (nl ++ "decoder"))) ;;
  ret (start_epoch, iters).

(** Everything before the training loop. *)
Definition startup (W : world) (index : Z) (config : yaml)
    : M (settings * yaml * Z * Z) :=
  st <- read_settings W index config ;;
  n_token <- vocabulary W config ;;
  lp <- build W config n_token ;;
  se <- load_pretrained_model W config (snd lp) ;;
  ret (st, fst lp, fst se, snd se).

(** ** The windowed segment sampler, lines 256-266 and 418-428 *)

(** [t.min().item()] *)
Definition tensor_min (t : list Z) : result Z :=
  match t with
  | [] => Raise (RuntimeError "min(): cannot reduce an empty tensor")
  | x :: rest => Ok (fold_right Z.min x rest)
  end.

Inductive mode : Type := Training | Validation.

(** Line 256 in training, line 418 in validation. *)
Definition mel_len (md : mode) (max_len : Z) (mel_input_length : list Z)
    : result Z :=
  match tensor_min mel_input_length with
  | Raise e => Raise e
  | Ok m =>
      match md with
      | Training => Ok (Z.min (int_half_minus_1 m) (floordiv max_len 2))
      | Validation => Ok (int_half_minus_1 m)
      end
  end.

(** The four slices taken for one example, as [(start, stop)] bounds. *)
Record segment : Type := {
  random_start : Z;
  en : Z * Z;        (* asr[bib, :, start:stop] *)
  p_en : Z * Z;      (* p[bib, :, start:stop] *)
  gt : Z * Z;        (* mels[bib, :, start:stop] *)
  y : Z * Z          (* waves[bib][start:stop] *)
}.

(** Lines 262-265. *)
Definition slices (mel_len random_start : Z) : segment :=
  {| random_start := random_start;
     en := (random_start, random_start + mel_len);
     p_en := (random_start, random_start + mel_len);
     gt := (random_start * 2, (random_start + mel_len) * 2);
     y := ((random_start * 2) * 300, ((random_start + mel_len) * 2) * 300) |}.

(** Lines 260-265 for one example: the equally likely segments. *)
Definition sample_example (mel_len mel_input_length_bib : Z)
    : result (dist segment) :=
  let mel_length := int_half mel_input_length_bib in
  match Np.random_randint 0 (mel_length - mel_len) with
  | Ok starts => Ok (map (slices mel_len) starts)
  | Raise e => Raise e
  end.

(** The loop of line 259: one independent draw per example, stopping at
    the first example whose range is empty. *)
Fixpoint sample_loop (mel_len : Z) (mel_input_length : list Z)
    : result (list (dist segment)) :=
  match mel_input_length with
  | [] => Ok []
  | m :: rest =>
      match sample_example mel_len m with
      | Raise e => Raise e
      | Ok sg =>
          match sample_loop mel_len rest with
          | Ok sgs => Ok (sg :: sgs)
          | Raise e => Raise e
          end
      end
  end.

Definition sampler (md : mode) (max_len : Z) (mel_input_length : list Z)
    : result (Z * list (dist segment)) :=
  match mel_len md max_len mel_input_length with
  | Raise e => Raise e
  | Ok ml =>
      match sample_loop ml mel_input_length with
      | Ok sgs => Ok (ml, sgs)
      | Raise e => Raise e
      end
  end.

(** ** Duration and alignment losses, lines 303-317 and 438-448 *)

Section Losses.

Variable W : world.

(** Line 311: [torch.sigmoid(_s2s_pred).sum(axis=1)]. *)
Definition dur_pred (_s2s_pred : list (list Q)) : list Q :=
  map (fun row => Fl.sum (map (sigmoid W) row)) _s2s_pred.

(** One row of [_s2s_trg]: ones in the first [n] columns. *)
Definition trg_row (row : list Q) (n : Z) : list Q :=
  map (fun k => if Z.of_nat k <? n then 1%Q else 0%Q) (seq 0 (List.length row)).

(** Lines 308-310. The token lengths and durations are non-negative,
    and [_text_input] has a duration for every row. *)
Definition s2s_trg (_s2s_pred : list (list Q)) (_text_input : list Z)
    : list (list Q) :=
  map (fun rn => trg_row (fst rn) (snd rn)) (combine _s2s_pred _text_input).

(** Line 314: mean over the flattened logits. *)
Definition binary_cross_entropy_with_logits (input target : list Q) : fl :=
  Fl.mean (map (fun xt => bce_with_logits W (fst xt) (snd xt))
               (combine input target)).

(** The body of the loop at line 305 (and 439): the two terms one
    example adds to [loss_dur] and [loss_ce]. *)
Definition example_losses (pred : list (list Q)) (text_input : list Z)
    (_text_length : Z) : result (fl * fl) :=
  let _s2s_pred := Torch.slice 0 _text_length pred in
  let _text_input := Torch.slice 0 _text_length text_input in
  let _s2s_trg := s2s_trg _s2s_pred _text_input in
  let _dur_pred := dur_pred _s2s_pred in
  match Torch.l1_loss (Torch.slice 1 (_text_length - 1) _dur_pred)
          (map inject_Z (Torch.slice 1 (_text_length - 1) _text_input)) with
  | Raise e => Raise e
  | Ok dur =>
      Ok (dur, binary_cross_entropy_with_logits (List.concat _s2s_pred) (List.concat _s2s_trg))
  end.

(** The loop over [zip(d, d_gt, input_lengths)], accumulating
    [(loss_dur, loss_ce)]. *)
Fixpoint loss_loop (acc : fl * fl)
    (zipped : list (list (list Q) * list Z * Z)) : result (fl * fl) :=
  match zipped with
  | [] => Ok acc
  | (pred, text_input, len) :: rest =>
      match example_losses pred text_input len with
      | Raise e => Raise e
      | Ok (dur, ce) => loss_loop (Fl.add (fst acc) dur, Fl.add (snd acc) ce) rest
      end
  end.

(** Lines 303-317: [(loss_dur, loss_ce)] of a batch. *)
Definition duration_losses (b : batch) : result (fl * fl) :=
  match loss_loop (Fl.of_Z 0, Fl.of_Z 0)
          (combine (combine (d b) (d_gt b)) (input_lengths b)) with
  | Raise e => Raise e
  | Ok (dur, ce) => Ok (Fl.div_Z dur (size0 b), Fl.div_Z ce (size0 b))
  end.

End Losses.

(** [loss_params.k] as a factor of a loss. *)
Definition weight (loss_params : yaml) (k : string) : result fl :=
  match getattr loss_params k with
  | Raise e => Raise e
  | Ok v =>
      match as_number v with
      | Some q => Ok (Some q)
      | None => Raise (TypeError "unsupported operand type(s) for *")
      end
  end.

(** ** One training step, lines 215-380 *)

Record train_state : Type := {
  iters : Z;
  running_loss : fl
}.

(** How the body of the batch loop ends: at the [continue] of line 233
    or at its last line. *)
Inductive step_result : Type :=
| Skipped
| Completed (st : train_state).

(** Lines 226-229. *)
Definition aligner_block (b : batch) : M unit :=
  emit (Forward "text_aligner") ;;
  match aligner_raises b with
  | Some e => raise e
  | None => ret tt
  end.

(** Lines 326-335; [loss_mel], [loss_gen_all], [loss_mono] and
    [loss_s2s] are the batch's values at lines 300, 301, 324 and 322. *)
Definition g_loss (loss_params : yaml) (b : batch)
    (loss_F0_rec loss_ce loss_dur : fl) : M fl :=
  lambda_mel <- lift (weight loss_params "lambda_mel") ;;
  lambda_F0 <- lift (weight loss_params "lambda_F0") ;;
  lambda_ce <- lift (weight loss_params "lambda_ce") ;;
  lambda_norm <- lift (weight loss_params "lambda_norm") ;;
  lambda_dur <- lift (weight loss_params "lambda_dur") ;;
  lambda_gen <- lift (weight loss_params "lambda_gen") ;;
  lambda_mono <- lift (weight loss_params "lambda_mono") ;;
  lambda_s2s <- lift (weight loss_params "lambda_s2s") ;;
  ret (Fl.add (Fl.add (Fl.add (Fl.add (Fl.add (Fl.add (Fl.add
         (Fl.mul lambda_mel (loss_mel b))
         (Fl.mul lambda_F0 loss_F0_rec))
         (Fl.mul lambda_ce loss_ce))
         (Fl.mul lambda_norm (loss_norm_rec b)))
         (Fl.mul lambda_dur loss_dur))
         (Fl.mul lambda_gen (loss_gen_all b)))
         (Fl.mul lambda_mono (loss_mono b)))
         (Fl.mul lambda_s2s (loss_s2s b))).

(** Lines 289-296. *)
Definition discriminator_update (b : batch) : M unit :=
  emit ZeroGrad ;;
  emit (Backward Discriminator (d_loss b)) ;;
  emit (OptStep "msd") ;;
  emit (OptStep "mpd") ;;
  emit MarkStep.

(** Lines 342-347. *)
Definition generator_steps : M unit :=
  emit (OptStep "predictor") ;;
  emit (OptStep "style_encoder") ;;
  emit (OptStep "decoder") ;;
  emit (OptStep "text_encoder") ;;
  emit (OptStep "text_aligner") ;;
  emit MarkStep.

(** Lines 351-367; returns the new [running_loss]. [bs] is the batch
    size that [view] accepted at line 284, so it is positive. *)
Definition log_step (W : world) (S : settings) (epoch i iters bs : Z)
    (running : fl) (b : batch) (loss_F0_rec loss_ce loss_dur : fl) : M fl :=
  if is_master_ordinal W
  then
    li <- lift (as_int (log_interval S)) ;;
    (if li =? 0 then raise ZeroDivisionError else ret tt) ;;
    if (i + 1) mod li =? 0
    then
      emit (LoggerInfo (epoch + 1) (i + 1)
              [Fl.of_Z (floordiv (len_train_list W) bs); Fl.div_Z running li;
               d_loss b; loss_dur; loss_ce; loss_norm_rec b; loss_F0_rec;
               loss_gen_all b; loss_s2s b; loss_mono b]) ;;
      emit (AddScalar "train/mel_loss" (Fl.div_Z running li) iters) ;;
      emit (AddScalar "train/gen_loss" (loss_gen_all b) iters) ;;
      emit (AddScalar "train/d_loss" (d_loss b) iters) ;;
      emit (AddScalar "train/ce_loss" loss_ce iters) ;;
      emit (AddScalar "train/dur_loss" loss_dur iters) ;;
      emit (AddScalar "train/norm_loss" (loss_norm_rec b) iters) ;;
      emit (AddScalar "train/F0_loss" loss_F0_rec iters) ;;
      emit (Print "Time elapsed:") ;;
      ret (Fl.of_Z 0)
    else ret running
  else ret running.

(** Lines 235-380: the step after the aligner returned. [bit] is what
    [random.getrandbits(1)] returns at line 242. *)
Definition train_body (W : world) (S : settings) (loss_params : yaml)
    (epoch i : Z) (st : train_state) (b : batch) (bit : Z) : M train_state :=
  emit (Forward "text_encoder") ;;
  emit (Matmul (if Random.bool_ bit then Soft else Mono)) ;;
  emit (Forward "style_encoder") ;;
  emit (Forward "predictor") ;;
  _ <- lift (tensor_min (mel_input_length b)) ;;
  max_len <- lift (as_int (max_len S)) ;;
  _ <- lift (sampler Training max_len (mel_input_length b)) ;;
  emit (Forward "style_encoder") ;;
  emit (Forward "pitch_extractor") ;;
  emit (Forward "predictor.F0Ntrain") ;;
  emit (Forward "decoder") ;;
  bs <- lift (as_int (batch_size S)) ;;
  F0_real <- lift (Torch.view (F0_real_shape b) bs) ;;
  f0 <- lift (Torch.smooth_l1_loss F0_real (F0_fake_shape b) (F0_value b)) ;;
  let loss_F0_rec := Fl.div_Z f0 10 in
  discriminator_update b ;;
  emit ZeroGrad ;;
  losses <- lift (duration_losses W b) ;;
  let loss_dur := fst losses in
  let loss_ce := snd losses in
  g <- g_loss loss_params b loss_F0_rec loss_ce loss_dur ;;
  let running := Fl.add (running_loss st) (loss_mel b) in
  emit (Backward Generator g) ;;
  (if Fl.isnan g then raise (RuntimeError "NaN loss detected") else ret tt) ;;
  generator_steps ;;
  let iters := iters st + 1 in
  running <- log_step W S epoch i iters bs running b loss_F0_rec loss_ce loss_dur ;;
  when ((iters mod 1000 =? 0) && is_master_ordinal W)
    (call W (xm_save current_model iters (Fl.of_Z 0))) ;;
  ret {| iters := iters; running_loss := running |}.

(** The body of the loop of line 215. *)
Definition train_step (W : world) (S : settings) (loss_params : yaml)
    (epoch i : Z) (st : train_state) (b : batch) (bit : Z) : M step_result :=
  aligned <- try_except (aligner_block b ;; ret true)
                        (fun _ => emit MarkStep ;; ret false) ;;
  if aligned : bool
  then st' <- train_body W S loss_params epoch i st b bit ;; ret (Completed st')
  else ret Skipped.

(** The loop of line 215, from batch index [i]. *)
Fixpoint train_loop (W : world) (S : settings) (loss_params : yaml)
    (epoch i : Z) (st : train_state) (batches : list batch) : M train_state :=
  match batches with
  | [] => ret st
  | b :: rest =>
      r <- train_step W S loss_params epoch i st b (getrandbits_1 W epoch i) ;;
      train_loop W S loss_params epoch (i + 1)
        (match r with Skipped => st | Completed st' => st' end) rest
  end.

(** ** Validation and the reduction across workers, lines 383-491 *)

Record val_acc : Type := {
  loss_test : fl;
  loss_align : fl;
  loss_f : fl;
  iters_test : Z
}.

(** Lines 394-454: the three losses of one validation batch. *)
Definition val_body (W : world) (b : batch) : M (fl * fl * fl) :=
  emit ZeroGrad ;;
  aligner_block b ;;
  emit (Forward "text_encoder") ;;
  emit (Matmul Mono) ;;
  emit (Forward "style_encoder") ;;
  emit (Forward "predictor") ;;
  _ <- lift (sampler Validation 0 (mel_input_length b)) ;;   (* max_len is not read *)
  emit (Forward "style_encoder") ;;
  emit (Forward "predictor.F0Ntrain") ;;
  losses <- lift (duration_losses W b) ;;
  emit (Forward "decoder") ;;
  emit (Forward "pitch_extractor") ;;
  f0 <- lift (Torch.l1_loss_nd (F0_real_shape b) (F0_fake_shape b) (F0_value b)) ;;
  ret (loss_mel b, fst losses, Fl.div_Z f0 10).

(** The body of the loop of line 392. *)
Definition val_step (W : world) (acc : val_acc) (b : batch) : M val_acc :=
  try_except
    (l <- val_body W b ;;
     let '(mel, dur, f0) := l in
     ret {| loss_test := Fl.add (loss_test acc) mel;
            loss_align := Fl.add (loss_align acc) dur;
            loss_f := Fl.add (loss_f acc) f0;
            iters_test := iters_test acc + 1 |})
    (fun _ => emit MarkStep ;; ret acc).

Fixpoint val_loop (W : world) (acc : val_acc) (batches : list batch) : M val_acc :=
  match batches with
  | [] => ret acc
  | b :: rest => acc' <- val_step W acc b ;; val_loop W acc' rest
  end.

(** [lambda x: sum(x) / len(x)] *)
Definition reduce_fn (x : list fl) : fl :=
  Fl.div_Z (fold_left Fl.add x (Fl.of_Z 0)) (Z.of_nat (List.length x)).

(** The data of all workers at a [mesh_reduce], by ordinal: this
    worker's own among its peers'. *)
Definition all_gather (W : world) (epoch : Z) (tag : string) (data : fl) : list fl :=
  firstn (ordinal W) (peers W epoch tag) ++ data :: skipn (ordinal W) (peers W epoch tag).

(** [xm.mesh_reduce(tag, data, lambda x: sum(x) / len(x))] as one worker
    sees it. *)
Definition mesh_reduce (W : world) (epoch : Z) (tag : string) (data : fl) : M fl :=
  emit (MeshReduce tag data) ;;
  ret (reduce_fn (all_gather W epoch tag data)).

(** [best_loss], which starts at [float('inf')]. *)
Inductive best : Type := Inf | Best (v : fl).

(** [v < best_loss] *)
Definition improves (v : fl) (bl : best) : bool :=
  match bl with
  | Inf => negb (Fl.isnan v)
  | Best w => Fl.ltb v w
  end.

(** Lines 466-491; returns the new [best_loss]. *)
Definition report (W : world) (S : settings) (epoch iters_now : Z)
    (best_loss : best) (acc : val_acc) : M best :=
  loss_test <- mesh_reduce W epoch "loss_test" (loss_test acc) ;;
  loss_align <- mesh_reduce W epoch "loss_align" (loss_align acc) ;;
  loss_f <- mesh_reduce W epoch "loss_f" (loss_f acc) ;;
  if is_master_ordinal W
  then
    let n := Z.max (iters_test acc) 1 in
    emit (Print "Epochs:") ;;
    emit (LoggerValidation (Fl.div_Z loss_test n) (Fl.div_Z loss_align n)
            (Fl.div_Z loss_f n)) ;;
    emit (AddScalar "eval/mel_loss" (Fl.div_Z loss_test n) (epoch + 1)) ;;
    emit (AddScalar "eval/dur_loss" (Fl.div_Z loss_align n) (epoch + 1)) ;;
    emit (AddScalar "eval/F0_loss" (Fl.div_Z loss_f n) (epoch + 1)) ;;
    sf <- lift (as_int (save_freq S)) ;;
    (if sf =? 0 then raise ZeroDivisionError else ret tt) ;;
    if (epoch + 1) mod sf =? 0
    then
      let best_loss' := if improves (Fl.div_Z loss_test n) best_loss
                        then Best (Fl.div_Z loss_test n) else best_loss in
      emit (Print "Saving..") ;;
      call W (xm_save (epoch_file epoch) iters_now (Fl.div_Z loss_test n)) ;;
      ret best_loss'
    else ret best_loss
  else ret best_loss.

(** ** The epochs and the whole of [_mp_fn] *)

(** The body of the loop of line 204. *)
Definition run_epoch (W : world) (S : settings) (loss_params : yaml)
    (epoch iters0 : Z) (best_loss : best) : M (Z * best) :=
  emit TrainMode ;;
  st <- train_loop W S loss_params epoch 0
          {| iters := iters0; running_loss := Fl.of_Z 0 |} (train_loader W epoch) ;;
  when (is_master_ordinal W) (emit (Print (nl ++ "Evaluating..."))) ;;
  emit EvalMode ;;
  acc <- val_loop W {| loss_test := Fl.of_Z 0; loss_align := Fl.of_Z 0;
                       loss_f := Fl.of_Z 0; iters_test := 0 |} (val_loader W epoch) ;;
  best_loss' <- report W S epoch (iters st) best_loss acc ;;
  ret (iters st, best_loss').

(** [range(start, stop)] *)
Definition range (start stop : Z) : list Z :=
  map (fun k => start + Z.of_nat k) (seq 0 (Z.to_nat (stop - start))).

Fixpoint epoch_loop (W : world) (S : settings) (loss_params : yaml)
    (todo : list Z) (iters0 : Z) (best_loss : best) : M Z :=
  match todo with
  | [] => ret iters0
  | epoch :: rest =>
      r <- run_epoch W S loss_params epoch iters0 best_loss ;;
      epoch_loop W S loss_params rest (fst r) (snd r)
  end.

Definition _mp_fn (W : world) (index : Z) (config : yaml) : M unit :=
  s <- startup W index config ;;
  let '(stg, loss_params, start_epoch, iters0) := s in
  n_epochs <- lift (as_int (epochs stg)) ;;
  _ <- epoch_loop W stg loss_params (range start_epoch n_epochs) iters0 Inf ;;
  when (is_master_ordinal W) (emit (Print "Training finished.")).

(** ** The claims' own wording, for comparison with the code *)

(** The window length as the specification words it, for either loop:
    the minimum over the batch of [floor(mel_input_length / 2)], minus
    one, capped by [max_len / 2]. *)
Definition spec_mel_len (max_len : Z) (mel_input_length : list Z) : result Z :=
  match tensor_min (map (fun m => m / 2) mel_input_length) with
  | Raise e => Raise e
  | Ok m => Ok (Z.min (m - 1) (max_len / 2))
  end.

(** The reported validation metric as the specification words it: the
    average over the workers of each worker's own average. *)
Definition spec_reported (sums : list Q) (counts : list Z) : fl :=
  Fl.mean (map (fun sc => (fst sc / inject_Z (snd sc))%Q) (combine sums counts)).

(** The duration term of one example as the specification words it:
    predictions and targets cut to the valid text length, the absolute
    differences summed and divided by that length. *)
Definition spec_dur_example (W : world) (pred : list (list Q))
    (text_input : list Z) (_text_length : Z) : fl :=
  let p := dur_pred W (Torch.slice 0 _text_length pred) in
  let t := map inject_Z (Torch.slice 0 _text_length text_input) in
  Fl.div_Z (Some (Fl.sum (map Torch.abs_diff (combine p t)))) _text_length.

(** The alignment term of one example as the specification words it: the
    element-wise binary cross-entropy over the valid tokens, summed and
    divided by the valid text length. *)
Definition spec_ce_example (W : world) (pred : list (list Q))
    (text_input : list Z) (_text_length : Z) : fl :=
  let p := Torch.slice 0 _text_length pred in
  let t := s2s_trg p (Torch.slice 0 _text_length text_input) in
  Fl.div_Z (Some (Fl.sum (map (fun xt => bce_with_logits W (fst xt) (snd xt))
                             (combine (List.concat p) (List.concat t)))))
           _text_length.

(** ** Observations on runs, used in the statements below *)

(** The event builds a dataloader or the model. *)
Definition builds (ev : event) : bool :=
  match ev with
  | Call (build_dataloader _) | Call (MpDeviceLoader _) | Call (build_model _) => true
  | _ => false
  end.

Definition nothing_built (tr : list event) : bool :=
  forallb (fun ev => negb (builds ev)) tr.

Definition vocabulary_fields : list string :=
  ["pad"; "punctuation"; "letters"; "letters_ipa"; "extend"].

(** The configuration has no [symbol] block, or the block lacks one of
    its five fields. *)
Definition vocabulary_missing (config : yaml) : Prop :=
  getitem config "symbol" = Raise (KeyError "symbol") \/
  exists sym k, getitem config "symbol" = Ok sym /\
                In k vocabulary_fields /\ getitem sym k = Raise (KeyError k).

(** The first of [fields] that [sym] lacks, the ones before it being
    strings, lists or maps. *)
Fixpoint first_missing (sym : yaml) (fields : list string) : option string :=
  match fields with
  | [] => None
  | k :: rest =>
      match getitem sym k with
      | Raise (KeyError _) => Some k
      | Raise _ => None
      | Ok v =>
          match list_ v with
          | Ok _ => first_missing sym rest
          | Raise _ => None
          end
      end
  end.

(** The missing field of an otherwise well-typed vocabulary block. *)
Definition missing_field (config : yaml) : option string :=
  match getitem config "symbol" with
  | Raise (KeyError _) => Some "symbol"
  | Raise _ => None
  | Ok sym => first_missing sym vocabulary_fields
  end.

(** The configuration names no checkpoint: [pretrained_model] is absent
    or is the empty string. *)
Definition pretrained_absent (config : yaml) : Prop :=
  forall v, getitem config "pretrained_model" = Ok v -> v = YStr EmptyString.

(** The event belongs to the epoch loop of line 204, or loads a
    checkpoint. *)
Definition in_training (ev : event) : bool :=
  match ev with
  | TrainMode | EvalMode | Forward _ | Matmul _ | ZeroGrad | Backward _ _
  | OptStep _ | MarkStep | LoggerInfo _ _ _ | LoggerValidation _ _ _
  | AddScalar _ _ _ | MeshReduce _ _ => true
  | Call (xm_save _ _ _) | Call (load_checkpoint _ _ _ _) => true
  | _ => false
  end.

Definition never_trains (tr : list event) : bool :=
  forallb (fun ev => negb (in_training ev)) tr.

(** The events of the two update phases. *)
Definition is_update (ev : event) : bool :=
  match ev with
  | ZeroGrad | Backward _ _ | OptStep _ | MarkStep => true
  | _ => false
  end.

Definition updates (tr : list event) : list event := filter is_update tr.


(** The aligner block returns on this batch. *)
Definition completes (b : batch) : bool :=
  match aligner_raises b with
  | None => true
  | Some _ => false
  end.

(** [post c Q]: the events and the outcome of [c] satisfy [Q]. *)
Definition post {A : Type} (c : M A) (Q : list event -> result A -> Prop) : Prop :=
  Q (events c) (outcome c).

(** The run multiplied the text-encoder output by this alignment. *)
Definition uses (a : alignment) (tr : list event) : bool :=
  existsb (fun ev => match ev, a with
                     | Matmul Soft, Soft | Matmul Mono, Mono => true
                     | _, _ => false
                     end) tr.

(** The run called this module. *)
Definition forwards (module : string) (tr : list event) : bool :=
  existsb (fun ev => match ev with
                     | Forward m => String.eqb m module
                     | _ => false
                     end) tr.

(** The value the run passed to [writer.add_scalar] under this tag. *)
Fixpoint reported (tag : string) (tr : list event) : option fl :=
  match tr with
  | [] => None
  | AddScalar t v _ :: rest => if String.eqb t tag then Some v else reported tag rest
  | _ :: rest => reported tag rest
  end.

(** A 1-D tensor without its first and last element. *)
Definition interior {A : Type} (t : list A) : list A := tl (removelast t).

(** The three validation metrics: the tag written at lines 474-476, the
    key reduced at lines 466-468, and this worker's accumulated sum. *)
Definition metrics (acc : val_acc) : list (string * string * fl) :=
  [("eval/mel_loss", "loss_test", loss_test acc);
   ("eval/dur_loss", "loss_align", loss_align acc);
   ("eval/F0_loss", "loss_f", loss_f acc)].

(** ** Sample inputs *)

(** A master worker whose collaborators never raise, alone on the mesh.
    Its [sigmoid] and element-wise cross-entropy are exact at logit 0,
    the only logit the sample batches hold ([log 2] is rounded). *)
Definition quiet_world (train val : list batch) : world :=
  {| is_master_ordinal := true;
     raises := fun _ => None;
     checkpoint_epoch := 0;
     checkpoint_iters := Some 0;
     len_train_list := 4;
     train_loader := fun _ => train;
     val_loader := fun _ => val;
     getrandbits_1 := fun _ _ => 1;
     ordinal := 0;
     peers := fun _ _ => [];
     sigmoid := fun _ => (1 # 2)%Q;
     bce_with_logits := fun _ _ => (693 # 1000)%Q |}.

(** Two examples of three tokens, 8 and 10 mel frames. *)
Definition sample_batch : batch :=
  {| input_lengths := [3; 3];
     mel_input_length := [8; 10];
     aligner_raises := None;
     d := [[[0]; [0]; [0]]; [[0]; [0]; [0]]]%Q;
     d_gt := [[1; 2; 1]; [2; 2; 1]];
     F0_real_shape := [2; 6];
     F0_fake_shape := [2; 6];
     F0_value := Some (1 # 4)%Q;
     loss_norm_rec := Some (1 # 3)%Q;
     d_loss := Some 2%Q;
     loss_mel := Some 1%Q;
     loss_gen_all := Some 3%Q;
     loss_s2s := Some (1 # 5)%Q;
     loss_mono := Some (1 # 10)%Q |}.

(** The same batch when the aligner fails on it. *)
Definition failing_batch : batch :=
  {| input_lengths := [3; 3];
     mel_input_length := [8; 10];
     aligner_raises := Some (RuntimeError "shape mismatch");
     d := [];
     d_gt := [];
     F0_real_shape := [];
     F0_fake_shape := [];
     F0_value := None;
     loss_norm_rec := None;
     d_loss := None;
     loss_mel := None;
     loss_gen_all := None;
     loss_s2s := None;
     loss_mono := None |}.

(** The same batch when the spectral loss comes out NaN. *)
Definition nan_batch : batch :=
  {| input_lengths := [3; 3];
     mel_input_length := [8; 10];
     aligner_raises := None;
     d := [[[0]; [0]; [0]]; [[0]; [0]; [0]]]%Q;
     d_gt := [[1; 2; 1]; [2; 2; 1]];
     F0_real_shape := [2; 6];
     F0_fake_shape := [2; 6];
     F0_value := Some (1 # 4)%Q;
     loss_norm_rec := Some (1 # 3)%Q;
     d_loss := Some 2%Q;
     loss_mel := Fl.nan;
     loss_gen_all := Some 3%Q;
     loss_s2s := Some (1 # 5)%Q;
     loss_mono := Some (1 # 10)%Q |}.

(** A batch of one example of three tokens and 18 mel frames: the
    window is 8 frames long, so the pitch tensors hold 16 frames. *)
Definition single_batch : batch :=
  {| input_lengths := [3];
     mel_input_length := [18];
     aligner_raises := None;
     d := [[[0]; [0]; [0]]]%Q;
     d_gt := [[3; 3; 3]];
     F0_real_shape := [1; 16];
     F0_fake_shape := [1; 16];
     F0_value := Some (1 # 4)%Q;
     loss_norm_rec := Some (1 # 3)%Q;
     d_loss := Some 2%Q;
     loss_mel := Some 1%Q;
     loss_gen_all := Some 3%Q;
     loss_s2s := Some (1 # 5)%Q;
     loss_mono := Some (1 # 10)%Q |}.

(** A batch of one example whose pitch tensors hold six frames. *)
Definition short_batch : batch :=
  {| input_lengths := [3];
     mel_input_length := [8];
     aligner_raises := None;
     d := [[[0]; [0]; [0]]]%Q;
     d_gt := [[1; 2; 1]];
     F0_real_shape := [1; 6];
     F0_fake_shape := [1; 6];
     F0_value := Some (1 # 4)%Q;
     loss_norm_rec := Some (1 # 3)%Q;
     d_loss := Some 2%Q;
     loss_mel := Some 1%Q;
     loss_gen_all := Some 3%Q;
     loss_s2s := Some (1 # 5)%Q;
     loss_mono := Some (1 # 10)%Q |}.

Definition sample_loss_params : yaml :=
  YMap [("lambda_mel", YFloat 5); ("lambda_F0", YFloat 1); ("lambda_ce", YFloat 20);
        ("lambda_norm", YFloat 1); ("lambda_dur", YFloat 1); ("lambda_gen", YFloat 1);
        ("lambda_mono", YFloat 1); ("lambda_s2s", YFloat 1)].

Definition sample_settings (batch_size : Z) : settings :=
  {| log_dir := YStr "Models/run";
     batch_size := YInt batch_size;
     epochs := YInt 1;
     save_freq := YInt 1;
     log_interval := YInt 1;
     max_len := YInt 200 |}.

Definition fresh_state : train_state :=
  {| iters := 0; running_loss := Fl.of_Z 0 |}.

Definition sample_symbol : list (string * yaml) :=
  [("pad", YStr "$"); ("punctuation", YStr ";:,.!?");
   ("letters", YStr "abc"); ("letters_ipa", YStr "ae"); ("extend", YStr "-")].

(** A configuration with the given vocabulary block and checkpoint
    entries; [None] leaves the key out. *)
Definition sample_config (symbol pretrained_model : option yaml) : yaml :=
  YMap ([("log_dir", YStr "Models/run"); ("batch_size", YInt 2); ("epochs", YInt 1);
         ("data_params", YMap [("train_data", YStr "train.txt");
                               ("val_data", YStr "val.txt");
                               ("root_path", YStr "wavs")]);
         ("loss_params", sample_loss_params);
         ("optimizer_params", YMap [("lr", YFloat (1 # 10000));
                                    ("ft_lr", YFloat (1 # 100000))]);
         ("model_params", YMap [])]
        ++ match symbol with Some v => [("symbol", v)] | None => [] end
        ++ match pretrained_model with
           | Some v => [("pretrained_model", v)]
           | None => []
           end).

(** A master among two workers; the other accumulated 6 under every
    key. *)
Definition two_workers : world :=
  {| is_master_ordinal := true;
     raises := fun _ => None;
     checkpoint_epoch := 0;
     checkpoint_iters := Some 0;
     len_train_list := 4;
     train_loader := fun _ => [];
     val_loader := fun _ => [];
     getrandbits_1 := fun _ _ => 1;
     ordinal := 0;
     peers := fun _ _ => [Some 6%Q];
     sigmoid := fun _ => (1 # 2)%Q;
     bce_with_logits := fun _ _ => (693 # 1000)%Q |}.

(** The master's own sums after one validation batch. *)
Definition master_acc : val_acc :=
  {| loss_test := Some 2%Q; loss_align := Some 2%Q; loss_f := Some 2%Q;
     iters_test := 1 |}.

(** ** [main], lines 496-500 *)

(** [xmp.spawn(_mp_fn, args=(config_path,))]: one run of [_mp_fn] per
    core, with the core's index as first argument. *)
Definition main (cores : list world) (config : yaml) : list (M unit) :=
  map (fun iw => _mp_fn (snd iw) (Z.of_nat (fst iw)) config)
      (combine (seq 0 (List.length cores)) cores).

(** ** Further observations on runs *)

(** The event changes parameters: a backward pass or an optimizer step. *)
Definition moves_parameters (ev : event) : bool :=
  match ev with
  | Backward _ _ | OptStep _ => true
  | _ => false
  end.

(** The event writes to the log directory, the logger or the writer. *)
Definition writes (ev : event) : bool :=
  match ev with
  | Call os_makedirs | Call shutil_copy | Call SummaryWriter | Call FileHandler
  | Call (xm_save _ _ _) => true
  | PrintFound _ | LoggerInfo _ _ _ | LoggerValidation _ _ _ | AddScalar _ _ _ => true
  | _ => false
  end.

Definition is_MarkStep (ev : event) : bool :=
  match ev with
  | MarkStep => true
  | _ => false
  end.

(** An exception that [except Exception] lets through. *)
Definition passes_except (b : batch) : bool :=
  match aligner_raises b with
  | Some e => negb (is_Exception e)
  | None => false
  end.

(** The interim checkpoints a run saved, by step count. *)
Definition interim_saves (tr : list event) : list Z :=
  flat_map (fun ev => match ev with
                      | Call (xm_save current_model n _) => [n]
                      | _ => []
                      end) tr.

(** ** [symbol_dict], line 89 *)

(** [dct[k] = v] on a dict kept in insertion order: an equal key keeps
    its place and gets the new value. *)
Fixpoint dict_set (dct : list (yaml * Z)) (k : yaml) (v : Z) : list (yaml * Z) :=
  match dct with
  | [] => [(k, v)]
  | (k', v') :: rest =>
      if key_eqb k k' then (k', v) :: rest else (k', v') :: dict_set rest k v
  end.

(** [dct.get(k)] *)
Fixpoint dict_lookup (dct : list (yaml * Z)) (k : yaml) : option Z :=
  match dct with
  | [] => None
  | (k', v) :: rest => if key_eqb k k' then Some v else dict_lookup rest k
  end.

(** [{s: i for i, s in enumerate(symbols)}], continued from index [i]
    over the entries [dct]. *)
Fixpoint symbol_dict_from (dct : list (yaml * Z)) (i : Z) (symbols : list yaml)
    : result (list (yaml * Z)) :=
  match symbols with
  | [] => Ok dct
  | s :: rest =>
      if hashable s
      then symbol_dict_from (dict_set dct s i) (i + 1) rest
      else Raise (TypeError "unhashable type")
  end.

Definition symbol_dict (symbols : list yaml) : result (list (yaml * Z)) :=
  symbol_dict_from [] 0 symbols.

(** The batches of these epochs on which the aligner returns. *)
Definition completed_in (W : world) (todo : list Z) : Z :=
  fold_right (fun epoch n =>
                Z.of_nat (List.length (filter completes (train_loader W epoch))) + n)
             0 todo.

(** The step counts in [(a, c]] that are multiples of 1000, ascending. *)
Definition thousands (a c : Z) : list Z :=
  filter (fun n => n mod 1000 =? 0) (range (a + 1) (c + 1)).

(** The epoch checkpoints a run saved: epoch, step count, validation loss. *)
Definition epoch_saves (tr : list event) : list (Z * Z * fl) :=
  flat_map (fun ev => match ev with
                      | Call (xm_save (epoch_file e) n v) => [(e, n, v)]
                      | _ => []
                      end) tr.

(** The event neither saves an epoch checkpoint nor writes a validation
    scalar. *)
Definition within_epoch (ev : event) : bool :=
  match ev with
  | Call (xm_save (epoch_file _) _ _) => false
  | AddScalar t _ _ => negb (String.eqb t "eval/mel_loss")
  | _ => true
  end.

Definition is_load_checkpoint (ev : event) : bool :=
  match ev with
  | Call (load_checkpoint _ _ _ _) => true
  | _ => false
  end.

(** The attributes of [loss_params] read at lines 326-335. *)
Definition loss_weights : list string :=
  ["lambda_mel"; "lambda_F0"; "lambda_ce"; "lambda_norm"; "lambda_dur";
   "lambda_gen"; "lambda_mono"; "lambda_s2s"].

(** The event leaves the log directory, the logger and the writer alone. *)
Definition quiet (ev : event) : bool := negb (writes ev).



(** The calls of [xm.mesh_reduce]: key and this worker's data. *)
Definition reductions (tr : list event) : list (string * fl) :=
  flat_map (fun ev => match ev with
                      | MeshReduce key data => [(key, data)]
                      | _ => []
                      end) tr.

(** ** Further sample inputs *)

(** The second of two workers, not the master; the master accumulated 6
    under every key. *)
Definition second_worker (train val : list batch) : world :=
  {| is_master_ordinal := false;
     raises := fun _ => None;
     checkpoint_epoch := 0;
     checkpoint_iters := Some 0;
     len_train_list := 4;
     train_loader := fun _ => train;
     val_loader := fun _ => val;
     getrandbits_1 := fun _ _ => 1;
     ordinal := 1;
     peers := fun _ _ => [Some 6%Q];
     sigmoid := fun _ => (1 # 2)%Q;
     bce_with_logits := fun _ _ => (693 # 1000)%Q |}.

(** A master whose checkpoint was saved after epoch 1 and 999 steps. *)
Definition resumed_world (train val : list batch) : world :=
  {| is_master_ordinal := true;
     raises := fun _ => None;
     checkpoint_epoch := 1;
     checkpoint_iters := Some 999;
     len_train_list := 4;
     train_loader := fun _ => train;
     val_loader := fun _ => val;
     getrandbits_1 := fun _ _ => 1;
     ordinal := 0;
     peers := fun _ _ => [];
     sigmoid := fun _ => (1 # 2)%Q;
     bce_with_logits := fun _ _ => (693 # 1000)%Q |}.

(** The sample batch with a first example of one mel frame. *)
Definition one_frame_batch : batch :=
  {| input_lengths := [3; 3];
     mel_input_length := [1; 10];
     aligner_raises := None;
     d := [[[0]; [0]; [0]]; [[0]; [0]; [0]]]%Q;
     d_gt := [[1; 2; 1]; [2; 2; 1]];
     F0_real_shape := [2; 6];
     F0_fake_shape := [2; 6];
     F0_value := Some (1 # 4)%Q;
     loss_norm_rec := Some (1 # 3)%Q;
     d_loss := Some 2%Q;
     loss_mel := Some 1%Q;
     loss_gen_all := Some 3%Q;
     loss_s2s := Some (1 # 5)%Q;
     loss_mono := Some (1 # 10)%Q |}.

(** The sample batch with a first example of two tokens. *)
Definition short_text_batch : batch :=
  {| input_lengths := [2; 3];
     mel_input_length := [8; 10];
     aligner_raises := None;
     d := [[[0]; [0]; [0]]; [[0]; [0]; [0]]]%Q;
     d_gt := [[1; 2; 0]; [2; 2; 1]];
     F0_real_shape := [2; 6];
     F0_fake_shape := [2; 6];
     F0_value := Some (1 # 4)%Q;
     loss_norm_rec := Some (1 # 3)%Q;
     d_loss := Some 2%Q;
     loss_mel := Some 1%Q;
     loss_gen_all := Some 3%Q;
     loss_s2s := Some (1 # 5)%Q;
     loss_mono := Some (1 # 10)%Q |}.

(** The sample settings with [log_interval] 0. *)
Definition unlogged_settings : settings :=
  {| log_dir := YStr "Models/run";
     batch_size := YInt 2;
     epochs := YInt 1;
     save_freq := YInt 1;
     log_interval := YInt 0;
     max_len := YInt 200 |}.

Definition zero_acc : val_acc :=
  {| loss_test := Fl.of_Z 0; loss_align := Fl.of_Z 0; loss_f := Fl.of_Z 0;
     iters_test := 0 |}.

(** The second worker of the mesh of [two_workers], which is not the
    master: it accumulated 6 under every key over 3 batches, the master
    2. *)
Definition other_worker : world :=
  {| is_master_ordinal := false;
     raises := fun _ => None;
     checkpoint_epoch := 0;
     checkpoint_iters := Some 0;
     len_train_list := 4;
     train_loader := fun _ => [];
     val_loader := fun _ => [];
     getrandbits_1 := fun _ _ => 1;
     ordinal := 1;
     peers := fun _ _ => [Some 2%Q];
     sigmoid := fun _ => (1 # 2)%Q;
     bce_with_logits := fun _ _ => (693 # 1000)%Q |}.

Definition other_acc : val_acc :=
  {| loss_test := Some 6%Q; loss_align := Some 6%Q; loss_f := Some 6%Q;
     iters_test := 3 |}.

(** A vocabulary block whose [pad] is null and whose [extend] is
    missing. *)
Definition null_pad_symbol : list (string * yaml) :=
  [("pad", YNull); ("punctuation", YStr ";:,.!?");
   ("letters", YStr "abc"); ("letters_ipa", YStr "ae")].

(** * Properties *)

(** ** Integer conversions *)

Lemma int_half_floor (m : Z) : 0 <= m -> int_half m = m / 2.
Proof. intros H. unfold int_half. apply Z.quot_div_nonneg; lia. Qed.

Lemma int_half_minus_1_floor (m : Z) : 2 <= m -> int_half_minus_1 m = m / 2 - 1.
Proof.
  intros H. unfold int_half_minus_1.
  rewrite Z.quot_div_nonneg by lia.
  replace (m - 2) with (m + (-1) * 2) by lia.
  rewrite Z.div_add by lia. lia.
Qed.

(** ** The sampler *)

Lemma tensor_min_le (t : list Z) (m : Z) :
  tensor_min t = Ok m -> Forall (fun x => m <= x) t.
Proof.
  destruct t as [|x rest]; simpl; [discriminate|].
  intros H. injection H as <-.
  assert (A : fold_right Z.min x rest <= x /\ Forall (fun z => fold_right Z.min x rest <= z) rest).
  { induction rest as [|z rest IH]; simpl.
    - split; [lia | constructor].
    - destruct IH as [IH1 IH2]. split; [lia|].
      constructor; [lia|].
      eapply Forall_impl; [|exact IH2]. simpl. intros; lia. }
  destruct A. constructor; assumption.
Qed.

Lemma tensor_min_In (t : list Z) (m : Z) : tensor_min t = Ok m -> In m t.
Proof.
  destruct t as [|x rest]; simpl; [discriminate|].
  intros H. injection H as <-.
  induction rest as [|z rest IH]; simpl; [left; reflexivity|].
  destruct (Z.min_spec z (fold_right Z.min x rest)) as [[_ ->]|[_ ->]].
  - right; left; reflexivity.
  - destruct IH as [IH|IH]; [left|right; right]; assumption.
Qed.

Lemma randint_spec (low high : Z) (starts : dist Z) :
  Np.random_randint low high = Ok starts ->
  low < high /\
  starts = map (fun k => low + Z.of_nat k) (seq 0 (Z.to_nat (high - low))).
Proof.
  unfold Np.random_randint. destruct (low <? high) eqn:E; [|discriminate].
  intros H. injection H as <-. apply Z.ltb_lt in E. split; [assumption|reflexivity].
Qed.

Ltac case_bounds :=
  repeat match goal with
         | |- context [Z.leb ?x ?y] => destruct (Z.leb_spec x y)
         | |- context [Z.ltb ?x ?y] => destruct (Z.ltb_spec x y)
         | |- context [Z.eqb ?x ?y] => destruct (Z.eqb_spec x y)
         end.

Lemma count_seq (r : Z) (n a : nat) :
  List.length (filter (fun k => Z.of_nat k =? r) (seq a n)) =
  if (Z.of_nat a <=? r) && (r <? Z.of_nat (a + n)) then 1%nat else 0%nat.
Proof.
  revert a. induction n as [|n IH]; intros a.
  - cbn [seq filter List.length]. case_bounds; cbn; try reflexivity; lia.
  - cbn [seq filter].
    destruct (Z.eqb_spec (Z.of_nat a) r) as [E|E]; cbn [List.length]; rewrite IH;
      replace (S a + n)%nat with (a + S n)%nat by lia;
      case_bounds; cbn; try reflexivity; lia.
Qed.

Lemma sample_example_spec (ml m : Z) (sg : dist segment) :
  sample_example ml m = Ok sg ->
  0 < int_half m - ml /\
  sg = map (fun k => slices ml (Z.of_nat k)) (seq 0 (Z.to_nat (int_half m - ml))).
Proof.
  unfold sample_example.
  destruct (Np.random_randint 0 (int_half m - ml)) as [starts|e] eqn:E; [|discriminate].
  intros H. injection H as <-.
  apply randint_spec in E. destruct E as [E ->].
  split; [lia|]. rewrite map_map, Z.sub_0_r. reflexivity.
Qed.

Lemma sample_loop_spec (ml : Z) (lens : list Z) (sgs : list (dist segment)) :
  sample_loop ml lens = Ok sgs ->
  Forall2 (fun m sg => sample_example ml m = Ok sg) lens sgs.
Proof.
  revert sgs. induction lens as [|m rest IH]; simpl; intros sgs H.
  - injection H as <-. constructor.
  - destruct (sample_example ml m) as [sg|e] eqn:E; [|discriminate].
    destruct (sample_loop ml rest) as [sgs'|e]; [|discriminate].
    injection H as <-. constructor; [assumption|apply IH; reflexivity].
Qed.

Lemma sample_loop_total (ml : Z) (lens : list Z) :
  Forall (fun m => ml < int_half m) lens ->
  exists sgs, sample_loop ml lens = Ok sgs.
Proof.
  induction 1 as [|m rest Hm _ [sgs IH]]; simpl.
  - eexists; reflexivity.
  - unfold sample_example, Np.random_randint.
    replace (0 <? int_half m - ml) with true by (symmetry; apply Z.ltb_lt; lia).
    rewrite IH. eexists; reflexivity.
Qed.

Lemma filter_map_length {A B : Type} (P : B -> bool) (f : A -> B) (l : list A) :
  List.length (filter P (map f l)) = List.length (filter (fun a => P (f a)) l).
Proof.
  induction l as [|a l IH]; simpl; [reflexivity|].
  destruct (P (f a)); simpl; rewrite IH; reflexivity.
Qed.

Lemma NoDup_map_inj {A B : Type} (f : A -> B) (l : list A) :
  (forall a a', f a = f a' -> a = a') -> NoDup l -> NoDup (map f l).
Proof.
  intros Hf. induction 1 as [|a l Hnot _ IH]; simpl; constructor; [|assumption].
  intros Hin. apply in_map_iff in Hin. destruct Hin as [a' [E Ha']].
  apply Hf in E. subst. contradiction.
Qed.

Lemma uniform_prob (count : nat) (n : Z) (len : nat) :
  0 < n -> len = Z.to_nat n -> count = 1%nat ->
  (Z.of_nat count # Pos.of_nat len == 1 / inject_Z n)%Q.
Proof.
  intros Hn -> ->. destruct n as [|p|p]; try lia.
  rewrite Z2Nat.inj_pos, Pos2Nat.id. reflexivity.
Qed.

(** What one example's distribution of segments looks like. *)
Lemma sample_example_windows (ml m : Z) (sg : dist segment) :
  0 <= m -> sample_example ml m = Ok sg ->
  0 < m / 2 - ml /\ NoDup sg /\
  (forall r, 0 <= r < m / 2 - ml ->
     (prob sg (fun w => random_start w =? r) == 1 / inject_Z (m / 2 - ml))%Q) /\
  (forall w, In w sg ->
     0 <= random_start w /\ random_start w + ml < m / 2 /\
     en w = (random_start w, random_start w + ml) /\
     p_en w = (random_start w, random_start w + ml) /\
     gt w = (2 * random_start w, 2 * random_start w + 2 * ml) /\
     y w = (600 * random_start w, 600 * random_start w + 600 * ml)).
Proof.
  intros Hm H. apply sample_example_spec in H.
  rewrite (int_half_floor m Hm) in H. destruct H as [Hpos ->].
  split; [assumption|]. split; [|split].
  - apply NoDup_map_inj; [|apply seq_NoDup].
    intros k k' E. apply (f_equal random_start) in E. simpl in E. lia.
  - intros r Hr. unfold prob. apply uniform_prob; [assumption| |].
    + rewrite length_map, length_seq. reflexivity.
    + rewrite filter_map_length. cbn [random_start slices].
      rewrite count_seq. case_bounds; cbn; try reflexivity; lia.
  - intros w Hw. apply in_map_iff in Hw. destruct Hw as [k [<- Hk]].
    apply in_seq in Hk. cbn [random_start slices en p_en gt y].
    repeat split; try lia; f_equal; lia.
Qed.

(** C1 (as amended): the window length is [int(min/2 - 1)], capped by
    [max_len // 2] in the training loop only.  Whenever the sampler
    returns (it does when every example has at least two mel frames), each
    example's start offset [r] is uniform over [0, floor(m/2) - mel_len),
    so [0 <= r] and [r + mel_len <= floor(m/2)], and the four slices are
    [r, r + mel_len) for the encoder output and the predictor output,
    [2r, 2r + 2 mel_len) for the mel frames and
    [600r, 600r + 600 mel_len) for the waveform. *)
Theorem sampler_windows (md : mode) (max_len : Z) (lens : list Z) :
  Forall (fun m => 0 <= m) lens ->
  (Forall (fun m => 2 <= m) lens -> lens <> [] ->
   exists r, sampler md max_len lens = Ok r) /\
  forall ml sgs, sampler md max_len lens = Ok (ml, sgs) ->
    (exists m, tensor_min lens = Ok m /\
       ml = match md with
            | Training => Z.min (int_half_minus_1 m) (max_len / 2)
            | Validation => int_half_minus_1 m
            end /\
       (2 <= m -> int_half_minus_1 m = m / 2 - 1)) /\
    Forall2 (fun m sg =>
      0 < m / 2 - ml /\ NoDup sg /\
      (forall r, 0 <= r < m / 2 - ml ->
         (prob sg (fun w => random_start w =? r) == 1 / inject_Z (m / 2 - ml))%Q) /\
      (forall w, In w sg ->
         0 <= random_start w /\ random_start w + ml <= m / 2 /\
         en w = (random_start w, random_start w + ml) /\
         p_en w = (random_start w, random_start w + ml) /\
         gt w = (2 * random_start w, 2 * random_start w + 2 * ml) /\
         y w = (600 * random_start w, 600 * random_start w + 600 * ml)))
      lens sgs.
Proof.
  intros Hnn. split.
  - intros H2 Hne. unfold sampler, mel_len.
    destruct (tensor_min lens) as [m|e] eqn:Em.
    2:{ destruct lens; [congruence|discriminate]. }
    pose proof (tensor_min_le _ _ Em) as Hle.
    pose proof (tensor_min_In _ _ Em) as Hin.
    assert (Hm2 : 2 <= m) by (rewrite Forall_forall in H2; apply H2; assumption).
    assert (Hlt : Forall (fun x => int_half_minus_1 m < int_half x) lens).
    { rewrite Forall_forall in *. intros x Hx.
      specialize (Hle x Hx). specialize (H2 x Hx).
      rewrite int_half_minus_1_floor, int_half_floor by lia.
      pose proof (Z.div_le_mono m x 2 ltac:(lia) Hle). lia. }
    destruct md.
    + destruct (sample_loop_total (Z.min (int_half_minus_1 m) (floordiv max_len 2)) lens) as [sgs E].
      { eapply Forall_impl; [|exact Hlt]. simpl. intros; lia. }
      rewrite E. eexists; reflexivity.
    + destruct (sample_loop_total (int_half_minus_1 m) lens Hlt) as [sgs E].
      rewrite E. eexists; reflexivity.
  - intros ml sgs H. unfold sampler in H.
    destruct (mel_len md max_len lens) as [ml'|e] eqn:El; [|discriminate].
    destruct (sample_loop ml' lens) as [sgs'|e] eqn:Es; [|discriminate].
    injection H as -> ->. split.
    + unfold mel_len in El. destruct (tensor_min lens) as [m|e]; [|discriminate].
      exists m. split; [reflexivity|]. split.
      * destruct md; injection El as <-; reflexivity.
      * apply int_half_minus_1_floor.
    + apply sample_loop_spec in Es. clear El. revert Hnn.
      induction Es as [|m sg lens' sgs' Hex _ IH]; intros Hnn; [constructor|].
      inversion Hnn as [|? ? Hm Hnn']; subst.
      constructor; [|apply IH; assumption].
      destruct (sample_example_windows _ _ _ Hm Hex) as (A & B & C & D).
      repeat split; try assumption; try (apply D; assumption).
      destruct (D w H) as (? & ? & _). lia.
Qed.

Lemma sampler_windows_witness :
  Forall (fun m => 0 <= m) [8; 10] /\
  exists r, sampler Training 200 [8; 10] = Ok r.
Proof.
  assert (H : Forall (fun m => 0 <= m) [8; 10]) by (repeat constructor; lia).
  split; [exact H|].
  apply (sampler_windows Training 200 [8; 10] H);
    [repeat constructor; lia | discriminate].
Defined.

(** C1 as worded fails in the validation loop: with [max_len = 200] and
    mel lengths 1000 and 1200 the claimed window length is 100, the
    code's is 499, and the first example's only segment is the 499
    frames from offset 0. *)
Lemma validation_window_not_capped :
  spec_mel_len 200 [1000; 1200] = Ok 100 /\
  mel_len Validation 200 [1000; 1200] = Ok 499 /\
  exists rest, sampler Validation 200 [1000; 1200] = Ok (499, [slices 499 0] :: rest).
Proof.
  split; [reflexivity|]. split; [reflexivity|].
  eexists. vm_compute. reflexivity.
Qed.

(** ** The monad *)

Lemma bind_Ok {A B : Type} (c : M A) (k : A -> M B) (tr : list event) (a : A) :
  c = (tr, Ok a) -> bind c k = (tr ++ events (k a), outcome (k a)).
Proof. intros ->. unfold bind, events, outcome. destruct (k a); reflexivity. Qed.

Lemma bind_Raise {A B : Type} (c : M A) (k : A -> M B) (tr : list event) (e : exn) :
  c = (tr, Raise e) -> bind c k = (tr, Raise e).
Proof. intros ->. reflexivity. Qed.

Lemma bind_Ok_inv {A B : Type} (c : M A) (k : A -> M B) (tr : list event) (b : B) :
  bind c k = (tr, Ok b) ->
  exists tr1 a tr2, c = (tr1, Ok a) /\ k a = (tr2, Ok b) /\ tr = tr1 ++ tr2.
Proof.
  unfold bind. destruct c as [tr1 [a|e]]; [|discriminate].
  destruct (k a) as [tr2 r] eqn:E. intros H. injection H as <- ->.
  exists tr1, a, tr2. auto.
Qed.

(** ** What the lookups raise *)

Lemma getitem_Exception (d : yaml) (k : string) (e : exn) :
  getitem d k = Raise e -> is_Exception e = true.
Proof.
  destruct d; simpl; try (intros H; injection H as <-; reflexivity).
  destruct (assoc k entries); [discriminate|].
  intros H; injection H as <-; reflexivity.
Qed.

Lemma list_Exception (v : yaml) (e : exn) :
  list_ v = Raise e -> is_Exception e = true.
Proof.
  destruct v; simpl; try discriminate; intros H; injection H as <-; reflexivity.
Qed.

Lemma symbol_list_eq (config : yaml) (k : string) :
  symbol_list config k =
  ([], match getitem config "symbol" with
       | Ok sym => match getitem sym k with
                   | Ok v => list_ v
                   | Raise e => Raise e
                   end
       | Raise e => Raise e
       end).
Proof.
  unfold symbol_list, bind, lift.
  destruct (getitem config "symbol") as [sym|e]; [|reflexivity].
  destruct (getitem sym k) as [v|e]; [|reflexivity].
  destruct (list_ v); reflexivity.
Qed.

(** One stage of the vocabulary block: look a field up, or stop. *)
Ltac vocabulary_stage sym k :=
  let v := fresh "v" in let e := fresh "e" in
  let Ev := fresh "Ev" in let El := fresh "El" in
  destruct (getitem sym k) as [v|e] eqn:Ev;
  [ destruct (list_ v) as [?|e] eqn:El;
    [ | rewrite ?(list_Exception _ _ El) ]
  | rewrite ?(getitem_Exception _ _ _ Ev) ].

Lemma vocabulary_raises (W : world) (config : yaml) :
  vocabulary_missing config ->
  exists e, vocabulary W config = ([Print (cannot_find e)], Raise (SystemExit 1)).
Proof.
  intros Hmiss. unfold vocabulary. rewrite !symbol_list_eq.
  unfold try_except, bind, emit, raise, lift, when, ret.
  destruct (getitem config "symbol") as [sym|e0] eqn:E0.
  2:{ rewrite (getitem_Exception _ _ _ E0). eexists; reflexivity. }
  destruct Hmiss as [Hmiss|(sym' & k & Hs & Hk & Hr)]; [congruence|].
  assert (sym' = sym) by congruence. subst sym'.
  vocabulary_stage sym "pad"; try (eexists; reflexivity).
  vocabulary_stage sym "punctuation"; try (eexists; reflexivity).
  vocabulary_stage sym "letters"; try (eexists; reflexivity).
  vocabulary_stage sym "letters_ipa"; try (eexists; reflexivity).
  vocabulary_stage sym "extend"; try (eexists; reflexivity).
  exfalso. simpl in Hk.
  destruct Hk as [<-|[<-|[<-|[<-|[<-|[]]]]]]; congruence.
Qed.

Lemma vocabulary_names_field (W : world) (config : yaml) (k : string) :
  missing_field config = Some k ->
  vocabulary W config = ([Print (cannot_find (KeyError k))], Raise (SystemExit 1)).
Proof.
  unfold missing_field, vocabulary. rewrite !symbol_list_eq.
  unfold try_except, bind, emit, raise, lift, when, ret.
  destruct (getitem config "symbol") as [sym|e0] eqn:E0.
  2:{ destruct e0; try discriminate. intros H; injection H as <-.
      destruct config; simpl in E0; try discriminate.
      destruct (assoc "symbol" entries); [discriminate|].
      injection E0 as <-. reflexivity. }
  unfold vocabulary_fields, first_missing.
  assert (K : forall key e, getitem sym key = Raise e ->
                forall key', e = KeyError key' -> key' = key).
  { intros key e H key' ->. destruct sym; simpl in H; try discriminate.
    destruct (assoc key entries); [discriminate|]. congruence. }
  vocabulary_stage sym "pad";
    [ | discriminate | destruct e; try discriminate;
        intros H; injection H as <-; rewrite (K _ _ Ev _ eq_refl); reflexivity ].
  vocabulary_stage sym "punctuation";
    [ | discriminate | destruct e; try discriminate;
        intros H; injection H as <-; rewrite (K _ _ Ev0 _ eq_refl); reflexivity ].
  vocabulary_stage sym "letters";
    [ | discriminate | destruct e; try discriminate;
        intros H; injection H as <-; rewrite (K _ _ Ev1 _ eq_refl); reflexivity ].
  vocabulary_stage sym "letters_ipa";
    [ | discriminate | destruct e; try discriminate;
        intros H; injection H as <-; rewrite (K _ _ Ev2 _ eq_refl); reflexivity ].
  vocabulary_stage sym "extend";
    [ discriminate | discriminate | destruct e; try discriminate;
        intros H; injection H as <-; rewrite (K _ _ Ev3 _ eq_refl); reflexivity ].
Qed.

(** ** Startup *)

Ltac run_lookups :=
  repeat (match goal with
          | |- context [is_master_ordinal ?W] => destruct (is_master_ordinal W)
          | |- context [raises ?W ?c] => destruct (raises W c)
          | |- context [getitem ?d ?k] => destruct (getitem d k)
          | |- context [Py.get ?d ?k ?v] => destruct (Py.get d k v)
          end; cbn).

Lemma read_settings_builds_nothing (W : world) (index : Z) (config : yaml) :
  nothing_built (events (read_settings W index config)) = true.
Proof.
  unfold read_settings, when, call, bind, lift, emit, ret, raise, events.
  cbn. run_lookups; reflexivity.
Qed.

Lemma nothing_built_app (tr1 tr2 : list event) :
  nothing_built (tr1 ++ tr2) = nothing_built tr1 && nothing_built tr2.
Proof. apply forallb_app. Qed.

Lemma mp_fn_settings_raise (W : world) (index : Z) (config : yaml)
    (tr : list event) (e : exn) :
  read_settings W index config = (tr, Raise e) ->
  _mp_fn W index config = (tr, Raise e).
Proof.
  intros H. unfold _mp_fn, startup.
  rewrite (bind_Raise _ _ _ _ (bind_Raise _ _ _ _ H)). reflexivity.
Qed.

Lemma mp_fn_vocabulary_raise (W : world) (index : Z) (config : yaml)
    (st : settings) (tr tr' : list event) (e : exn) :
  read_settings W index config = (tr, Ok st) ->
  vocabulary W config = (tr', Raise e) ->
  _mp_fn W index config = (tr ++ tr', Raise e).
Proof.
  intros H1 H2. unfold _mp_fn, startup.
  apply bind_Raise. rewrite (bind_Ok _ _ _ _ H1).
  rewrite (bind_Raise _ _ _ _ H2). reflexivity.
Qed.

(** C8 (as amended): a configuration without the [symbol] block, or without one of
    its five fields, makes the run raise before any dataloader or the
    model is built.  When lines 55-79 pass, the run ends in
    [SystemExit(1)] right after printing the [Cannot find ...] message,
    and for a block whose fields before the missing one are iterable the
    message names that field. *)
Theorem vocabulary_missing_aborts (W : world) (index : Z) (config : yaml) :
  vocabulary_missing config ->
  (exists e, outcome (_mp_fn W index config) = Raise e) /\
  nothing_built (events (_mp_fn W index config)) = true /\
  forall st tr, read_settings W index config = (tr, Ok st) ->
    outcome (_mp_fn W index config) = Raise (SystemExit 1) /\
    (exists e, events (_mp_fn W index config) = tr ++ [Print (cannot_find e)]) /\
    forall k, missing_field config = Some k ->
      events (_mp_fn W index config) = tr ++ [Print (cannot_find (KeyError k))].
Proof.
  intros Hmiss.
  destruct (vocabulary_raises W config Hmiss) as [e Hv].
  pose proof (read_settings_builds_nothing W index config) as Hb.
  destruct (read_settings W index config) as [tr [st|e0]] eqn:Hs.
  - rewrite (mp_fn_vocabulary_raise _ _ _ _ _ _ _ Hs Hv).
    split; [eexists; reflexivity|]. split.
    + cbn [events fst] in *. rewrite nothing_built_app, Hb. reflexivity.
    + intros st' tr' H. injection H as <- <-. cbn [events outcome fst snd].
      split; [reflexivity|]. split; [eexists; reflexivity|].
      intros k Hk. rewrite (vocabulary_names_field W config k Hk) in Hv.
      apply (f_equal fst) in Hv. cbn [fst] in Hv. rewrite <- Hv. reflexivity.
  - rewrite (mp_fn_settings_raise _ _ _ _ _ Hs).
    split; [eexists; reflexivity|]. split; [exact Hb|].
    intros st tr' H. discriminate.
Qed.

Ltac run_startup :=
  repeat (match goal with
          | |- context [is_master_ordinal ?W] => destruct (is_master_ordinal W)
          | |- context [raises ?W ?c] => destruct (raises W c)
          | |- context [getitem ?d ?k] => destruct (getitem d k)
          | |- context [Py.get ?d ?k ?v] => destruct (Py.get d k v)
          | |- context [getattr ?d ?k] => destruct (getattr d k)
          | |- context [Munch ?v] => destruct (Munch v)
          end; cbn).

Lemma get_pretrained_absent (config v : yaml) :
  pretrained_absent config ->
  Py.get config "pretrained_model" (YStr EmptyString) = Ok v ->
  ne_empty_str v = false.
Proof.
  intros Habs. specialize (Habs v).
  destruct config; simpl in *; try discriminate.
  destruct (assoc "pretrained_model" entries) as [v'|].
  - intros H. injection H as ->. rewrite Habs; reflexivity.
  - intros H. injection H as <-. reflexivity.
Qed.

Lemma build_flag (W : world) (config : yaml) (n : Z) (tr : list event)
    (lp : yaml) (flag : bool) :
  pretrained_absent config ->
  build W config n = (tr, Ok (lp, flag)) -> flag = false.
Proof.
  intros Habs. unfold build, when, call, bind, lift, emit, ret, raise.
  destruct (Py.get config "pretrained_model" (YStr EmptyString)) as [v|e] eqn:Ev.
  - rewrite (get_pretrained_absent _ _ Habs Ev).
    cbn. run_startup; intros H; try discriminate; injection H as _ _ <-; reflexivity.
  - cbn. run_startup; intros H; discriminate.
Qed.

Lemma read_settings_never_trains (W : world) (index : Z) (config : yaml) :
  never_trains (events (read_settings W index config)) = true.
Proof.
  unfold read_settings, when, call, bind, lift, emit, ret, raise, events.
  cbn. run_startup; reflexivity.
Qed.

Lemma vocabulary_never_trains (W : world) (config : yaml) :
  never_trains (events (vocabulary W config)) = true.
Proof.
  unfold vocabulary. rewrite !symbol_list_eq.
  unfold try_except, when, bind, lift, emit, ret, raise, events. cbn.
  repeat (match goal with
          | |- context [is_master_ordinal ?W] => destruct (is_master_ordinal W)
          | |- context [getitem ?d ?k] => destruct (getitem d k)
          | |- context [list_ ?v] => destruct (list_ v)
          | |- context [dict_len ?a ?b] => destruct (dict_len a b)
          | |- context [is_Exception ?e] => destruct (is_Exception e)
          end; cbn); reflexivity.
Qed.

Lemma build_never_trains (W : world) (config : yaml) (n : Z) :
  never_trains (events (build W config n)) = true.
Proof.
  unfold build, when, call, bind, lift, emit, ret, raise, events.
  cbn. run_startup; reflexivity.
Qed.

Lemma load_false (W : world) (config : yaml) :
  load_pretrained_model W config false = ([], Raise (Exception "Must have a pretrained!")).
Proof. reflexivity. Qed.

Lemma never_trains_app (tr1 tr2 : list event) :
  never_trains (tr1 ++ tr2) = never_trains tr1 && never_trains tr2.
Proof. apply forallb_app. Qed.

(** C7: when [pretrained_model] is absent or empty, [_mp_fn] raises and
    nothing of the epoch loop runs, nor is a checkpoint loaded; when
    everything before line 177 passes, what it raises is
    [Exception('Must have a pretrained!')]. *)
Theorem no_pretrained_aborts (W : world) (index : Z) (config : yaml) :
  pretrained_absent config ->
  (exists e, outcome (_mp_fn W index config) = Raise e) /\
  never_trains (events (_mp_fn W index config)) = true /\
  forall st tr1 n tr2 lp tr3,
    read_settings W index config = (tr1, Ok st) ->
    vocabulary W config = (tr2, Ok n) ->
    build W config n = (tr3, Ok lp) ->
    _mp_fn W index config =
      (tr1 ++ tr2 ++ tr3, Raise (Exception "Must have a pretrained!")).
Proof.
  intros Habs.
  assert (Main : forall st tr1 n tr2 lp tr3,
    read_settings W index config = (tr1, Ok st) ->
    vocabulary W config = (tr2, Ok n) ->
    build W config n = (tr3, Ok lp) ->
    _mp_fn W index config =
      (tr1 ++ tr2 ++ tr3, Raise (Exception "Must have a pretrained!"))).
  { intros st tr1 n tr2 [lp flag] tr3 H1 H2 H3.
    pose proof (build_flag _ _ _ _ _ _ Habs H3) as ->.
    unfold _mp_fn, startup. apply bind_Raise.
    rewrite (bind_Ok _ _ _ _ H1), (bind_Ok _ _ _ _ H2), (bind_Ok _ _ _ _ H3).
    cbn [snd]. rewrite load_false. cbn. rewrite app_nil_r. reflexivity. }
  pose proof (read_settings_never_trains W index config) as N1.
  pose proof (vocabulary_never_trains W config) as N2.
  destruct (read_settings W index config) as [tr1 [st|e1]] eqn:H1.
  2:{ rewrite (mp_fn_settings_raise _ _ _ _ _ H1).
      split; [eexists; reflexivity|]. split; [exact N1|]. intros; discriminate. }
  destruct (vocabulary W config) as [tr2 [n|e2]] eqn:H2.
  2:{ rewrite (mp_fn_vocabulary_raise _ _ _ _ _ _ _ H1 H2).
      split; [eexists; reflexivity|]. split; [|intros; discriminate].
      cbn [events fst] in *. rewrite never_trains_app, N1, N2. reflexivity. }
  pose proof (build_never_trains W config n) as N3.
  destruct (build W config n) as [tr3 [lp|e3]] eqn:H3.
  - rewrite (Main _ _ _ _ _ _ eq_refl eq_refl H3).
    split; [eexists; reflexivity|]. split.
    + cbn [events fst] in *. rewrite !never_trains_app, N1, N2, N3. reflexivity.
    + intros st' tr1' n' tr2' lp' tr3' E1 E2 E3.
      injection E1 as <- <-. injection E2 as <- <-.
      rewrite H3 in E3. injection E3 as <- <-. reflexivity.
  - assert (E : _mp_fn W index config = (tr1 ++ tr2 ++ tr3, Raise e3)).
    { unfold _mp_fn, startup. apply bind_Raise.
      rewrite (bind_Ok _ _ _ _ H1), (bind_Ok _ _ _ _ H2), (bind_Raise _ _ _ _ H3).
      reflexivity. }
    rewrite E. split; [eexists; reflexivity|]. split.
    + cbn [events fst] in *. rewrite !never_trains_app, N1, N2, N3. reflexivity.
    + intros st' tr1' n' tr2' lp' tr3' E1 E2 E3.
      injection E1 as <- <-. injection E2 as <- <-.
      rewrite H3 in E3. discriminate.
Qed.

(** ** Running a computation symbolically *)

Lemma post_elim {A : Type} (c : M A) (Q : list event -> result A -> Prop) :
  post c Q -> forall tr r, c = (tr, r) -> Q tr r.
Proof. intros H tr r ->. exact H. Qed.

Lemma bind_assoc {A B C : Type} (c : M A) (k1 : A -> M B) (k2 : B -> M C) :
  bind (bind c k1) k2 = bind c (fun a => bind (k1 a) k2).
Proof.
  unfold bind. destruct c as [tr [a|e]]; [|reflexivity].
  destruct (k1 a) as [tr1 [b|e]]; [|reflexivity].
  destruct (k2 b) as [tr2 r]. rewrite app_assoc. reflexivity.
Qed.

Lemma post_val {A B : Type} (tr0 : list event) (a : A) (k : A -> M B) Q :
  post (k a) (fun tr r => Q (tr0 ++ tr) r) -> post (bind (tr0, Ok a) k) Q.
Proof. unfold post, bind, events, outcome. destruct (k a); auto. Qed.

Lemma post_emit {B : Type} (ev : event) (k : unit -> M B) Q :
  post (k tt) (fun tr r => Q (ev :: tr) r) -> post (bind (emit ev) k) Q.
Proof. apply (post_val [ev] tt). Qed.

Lemma post_ret {A B : Type} (a : A) (k : A -> M B) Q :
  post (k a) Q -> post (bind (ret a) k) Q.
Proof. apply (post_val [] a). Qed.

Lemma post_lift_Ok {A B : Type} (a : A) (k : A -> M B) Q :
  post (k a) Q -> post (bind (lift (Ok a)) k) Q.
Proof. apply (post_val [] a). Qed.

Lemma post_stop {A B : Type} (tr0 : list event) (e : exn) (k : A -> M B)
    (Q : list event -> result B -> Prop) :
  Q tr0 (Raise e) -> post (bind (tr0, Raise e) k) Q.
Proof. auto. Qed.

Lemma post_try {A : Type} (body : M A) (handler : exn -> M A)
    (Q : list event -> result A -> Prop) :
  post body (fun tr r =>
    match r with
    | Ok a => Q tr (Ok a)
    | Raise e =>
        if is_Exception e
        then post (handler e) (fun tr' r' => Q (tr ++ tr') r')
        else Q tr (Raise e)
    end) ->
  post (try_except body handler) Q.
Proof.
  unfold post, try_except, events, outcome.
  destruct body as [tr [a|e]]; cbn [fst snd]; [auto|].
  destruct (is_Exception e); [|auto].
  destruct (handler e); auto.
Qed.

Lemma post_end {A : Type} (a : A) (Q : list event -> result A -> Prop) :
  Q [] (Ok a) -> post (ret a) Q.
Proof. auto. Qed.

(** One step of the run: the first computation of a chain of binds is
    executed, with a case split where it can go two ways. *)
Ltac mstep :=
  lazymatch goal with
  | |- post (bind (bind _ _) _) _ => rewrite bind_assoc
  | |- post (bind (emit _) _) _ => apply post_emit
  | |- post (bind (ret _) _) _ => apply post_ret
  | |- post (bind (raise ?e) _) _ => apply (post_stop [] e)
  | |- post (bind (lift (Ok _)) _) _ => apply post_lift_Ok
  | |- post (bind (lift (Raise ?e)) _) _ => apply (post_stop [] e)
  | |- post (bind (lift ?r) _) _ =>
      let E := fresh "E" in
      destruct r eqn:E; [apply post_lift_Ok | apply (post_stop [])]
  | |- post (bind (when ?c _) _) _ =>
      let E := fresh "E" in unfold when at 1; destruct c eqn:E
  | |- post (bind (call ?W ?c) _) _ =>
      let E := fresh "E" in
      unfold call at 1; destruct (raises W c) eqn:E
  | |- post (bind (if ?c then _ else _) _) _ =>
      let E := fresh "E" in destruct c eqn:E
  | |- post (bind (?tr, Ok ?a) _) _ => apply (post_val tr a)
  | |- post (bind (?tr, Raise ?e) _) _ => apply (post_stop tr e)
  | |- post (if ?c then _ else _) _ =>
      let E := fresh "E" in destruct c eqn:E
  | |- post (ret _) _ => apply post_end
  | |- post (bind (match ?x with _ => _ end) _) _ =>
      let E := fresh "E" in destruct x eqn:E
  | |- post (try_except _ _) _ => apply post_try
  | |- if ?c then _ else _ => let E := fresh "E" in destruct c eqn:E
  end.

(** ** The training step *)

Lemma aligner_try (b : batch) :
  try_except (aligner_block b ;; ret true) (fun _ => emit MarkStep ;; ret false) =
  match aligner_raises b with
  | None => ([Forward "text_aligner"], Ok true)
  | Some e => if is_Exception e
              then ([Forward "text_aligner"; MarkStep], Ok false)
              else ([Forward "text_aligner"], Raise e)
  end.
Proof.
  unfold aligner_block, try_except, bind, emit, ret, raise.
  destruct (aligner_raises b) as [e|]; [|reflexivity].
  destruct (is_Exception e); reflexivity.
Qed.

Ltac run := repeat (mstep; cbv beta iota).

Ltac by_running :=
  match goal with
  | |- forall tr r, ?c = (tr, r) -> @?Q tr r => apply (post_elim c Q)
  end.

Ltac open_step :=
  unfold train_step; rewrite aligner_try;
  unfold train_body, discriminator_update, generator_steps, g_loss, log_step.





Lemma step_iters (W : world) (S : settings) (lp : yaml) (epoch i : Z)
    (st : train_state) (b : batch) (bit : Z) (tr : list event)
    (r : result step_result) :
  train_step W S lp epoch i st b bit = (tr, r) ->
  forall x, r = Ok x ->
    match x with
    | Skipped => completes b = false
    | Completed st' => completes b = true /\ iters st' = iters st + 1
    end.
Proof.
  revert tr r. by_running. open_step. unfold completes.
  destruct (aligner_raises b) as [e|]; [destruct (is_Exception e)|].
  - run. intros x H. injection H as <-. reflexivity.
  - run. discriminate.
  - run; intros x H; try discriminate; injection H as <-; split; reflexivity.
Qed.

Lemma loop_iters (W : world) (S : settings) (lp : yaml) (epoch : Z)
    (batches : list batch) :
  forall i st tr st',
    train_loop W S lp epoch i st batches = (tr, Ok st') ->
    iters st' = iters st + Z.of_nat (List.length (filter completes batches)).
Proof.
  induction batches as [|b rest IH]; intros i st tr st' H.
  - injection H as _ <-. simpl. lia.
  - cbn [train_loop] in H. apply bind_Ok_inv in H.
    destruct H as (tr1 & x & tr2 & Hstep & Hrest & _).
    apply IH in Hrest. pose proof (step_iters _ _ _ _ _ _ _ _ _ _ Hstep x eq_refl) as Hx.
    cbn [filter]. destruct x as [|st1].
    + rewrite Hx. exact Hrest.
    + destruct Hx as [-> Hx]. cbn [List.length]. lia.
Qed.

(** C3: when the aligner block raises an [Exception], the step is the
    aligner call followed by [xm.mark_step()] and nothing else, the loop
    goes on with the next batch from the same state, and over a loop
    that returns [iters] has grown by the number of batches on which the
    aligner returned: one per completed batch, none per skipped batch. *)
Theorem aligner_failure_skips (W : world) (S : settings) (lp : yaml)
    (epoch i : Z) (st : train_state) (b : batch) (bit : Z) (e : exn) :
  aligner_raises b = Some e -> is_Exception e = true ->
  train_step W S lp epoch i st b bit =
    ([Forward "text_aligner"; MarkStep], Ok Skipped) /\
  (forall rest,
     train_loop W S lp epoch i st (b :: rest) =
       ([Forward "text_aligner"; MarkStep]
          ++ events (train_loop W S lp epoch (i + 1) st rest),
        outcome (train_loop W S lp epoch (i + 1) st rest))) /\
  (forall batches j st0 tr st',
     train_loop W S lp epoch j st0 batches = (tr, Ok st') ->
     iters st' = iters st0 + Z.of_nat (List.length (filter completes batches))).
Proof.
  intros Hb He.
  assert (Hstep : forall bit', train_step W S lp epoch i st b bit' =
                    ([Forward "text_aligner"; MarkStep], Ok Skipped)).
  { intros bit'. unfold train_step. rewrite aligner_try, Hb, He. reflexivity. }
  split; [apply Hstep|]. split.
  - intros rest. cbn [train_loop]. rewrite (bind_Ok _ _ _ _ (Hstep _)). reflexivity.
  - intros batches j st0 tr st'. apply loop_iters.
Qed.

(** ** Exceptions leave the loops *)

Lemma bind_ext {A B : Type} (c : M A) (k1 k2 : A -> M B) :
  (forall a, k1 a = k2 a) -> bind c k1 = bind c k2.
Proof.
  intros H. unfold bind. destruct c as [tr [a|e]]; [|reflexivity].
  rewrite H. reflexivity.
Qed.

Lemma train_loop_app (W : world) (S : settings) (lp : yaml) (epoch : Z)
    (pre rest : list batch) :
  forall i st,
    train_loop W S lp epoch i st (pre ++ rest) =
    bind (train_loop W S lp epoch i st pre)
         (fun st' => train_loop W S lp epoch (i + Z.of_nat (List.length pre)) st' rest).
Proof.
  induction pre as [|b pre IH]; intros i st.
  - cbn [train_loop app List.length]. rewrite Z.add_0_r.
    unfold bind, ret. destruct (train_loop W S lp epoch i st rest). reflexivity.
  - cbn [train_loop app]. rewrite bind_assoc. apply bind_ext. intros r.
    rewrite IH. apply bind_ext. intros st'.
    f_equal. cbn [List.length]. lia.
Qed.

Lemma run_epoch_raise (W : world) (S : settings) (lp : yaml) (epoch iters0 : Z)
    (bl : best) (tr : list event) (e : exn) :
  train_loop W S lp epoch 0 {| iters := iters0; running_loss := Fl.of_Z 0 |}
    (train_loader W epoch) = (tr, Raise e) ->
  run_epoch W S lp epoch iters0 bl = (TrainMode :: tr, Raise e).
Proof.
  intros H. unfold run_epoch.
  rewrite (bind_Ok _ _ [TrainMode] tt eq_refl).
  rewrite (bind_Raise _ _ _ _ H). reflexivity.
Qed.

Lemma epoch_loop_raise (W : world) (S : settings) (lp : yaml) (epoch iters0 : Z)
    (later : list Z) (bl : best) (tr : list event) (e : exn) :
  run_epoch W S lp epoch iters0 bl = (tr, Raise e) ->
  epoch_loop W S lp (epoch :: later) iters0 bl = (tr, Raise e).
Proof. intros H. cbn [epoch_loop]. apply bind_Raise. exact H. Qed.

Ltac split_In H :=
  repeat (destruct H as [H|H]; [try discriminate H|]); try contradiction.

(** C2: a step whose generator loss is NaN calls [backward] on it and
    then raises [RuntimeError('NaN loss detected')]: [backward] is its
    last event, the only optimizer steps it made are those of [msd] and
    [mpd], and the exception leaves the batch loop and the epoch loop:
    no later batch, no validation, no later epoch runs. *)
Theorem nan_loss_aborts (W : world) (S : settings) (lp : yaml) (epoch i : Z)
    (st : train_state) (b : batch) (bit : Z) (tr : list event)
    (r : result step_result) (g : fl) :
  train_step W S lp epoch i st b bit = (tr, r) ->
  In (Backward Generator g) tr -> Fl.isnan g = true ->
  r = Raise (RuntimeError "NaN loss detected") /\
  (exists before, tr = before ++ [Backward Generator g]) /\
  (forall key, In (OptStep key) tr -> key = "msd" \/ key = "mpd") /\
  (forall pre rest later iters0 bl tr0,
     train_loader W epoch = pre ++ b :: rest ->
     train_loop W S lp epoch 0 {| iters := iters0; running_loss := Fl.of_Z 0 |} pre
       = (tr0, Ok st) ->
     i = Z.of_nat (List.length pre) -> bit = getrandbits_1 W epoch i ->
     epoch_loop W S lp (epoch :: later) iters0 bl =
       (TrainMode :: tr0 ++ tr, Raise (RuntimeError "NaN loss detected"))).
Proof.
  intros Hstep Hin Hnan.
  assert (Hr : r = Raise (RuntimeError "NaN loss detected") /\
               (exists before, tr = before ++ [Backward Generator g]) /\
               (forall key, In (OptStep key) tr -> key = "msd" \/ key = "mpd")).
  { revert Hin. revert tr r Hstep. by_running. open_step.
    destruct (aligner_raises b) as [e|]; [destruct (is_Exception e)|].
    - run. intros Hin. split_In Hin.
    - run. intros Hin. split_In Hin.
    - run; intros Hin; cbn [app In] in Hin; split_In Hin.
      all: try (injection Hin as <-; congruence).
      all: injection Hin as <-.
      all: split; [reflexivity|]; split;
        [match goal with
         | |- exists before, ?l = _ => exists (removelast l); reflexivity
         end|].
      all: intros key Hk; cbn [app In] in Hk; split_In Hk.
      all: try (injection Hk as <-; auto). }
  destruct Hr as (-> & Hlast & Hkeys). repeat split; try assumption.
  intros pre rest later iters0 bl tr0 Hload Hpre -> ->.
  apply epoch_loop_raise, run_epoch_raise.
  rewrite Hload, train_loop_app, (bind_Ok _ _ _ _ Hpre).
  cbn [train_loop]. rewrite Z.add_0_l, (bind_Raise _ _ _ _ Hstep). reflexivity.
Qed.

Lemma step_alignment (W : world) (S : settings) (lp : yaml) (epoch i : Z)
    (st : train_state) (b : batch) (bit : Z) :
  aligner_raises b = None ->
  uses Soft (events (train_step W S lp epoch i st b bit)) = Random.bool_ bit /\
  uses Mono (events (train_step W S lp epoch i st b bit)) = negb (Random.bool_ bit).
Proof.
  intros Hb.
  change (post (train_step W S lp epoch i st b bit)
            (fun tr _ => uses Soft tr = Random.bool_ bit /\
                         uses Mono tr = negb (Random.bool_ bit))).
  open_step. rewrite Hb.
  destruct (Random.bool_ bit); run; split; reflexivity.
Qed.

Lemma val_alignment (W : world) (acc : val_acc) (b : batch) :
  uses Soft (events (val_step W acc b)) = false /\
  (aligner_raises b = None -> uses Mono (events (val_step W acc b)) = true).
Proof.
  change (post (val_step W acc b)
            (fun tr _ => uses Soft tr = false /\
                         (aligner_raises b = None -> uses Mono tr = true))).
  unfold val_step, val_body, aligner_block.
  run; (split; [reflexivity|]); intros H; try reflexivity; congruence.
Qed.

(** C9: in a training step whose aligner returned, the text-encoder
    output is multiplied by the soft attention when the bit drawn at line
    242 is 1 and by the monotonic path when it is 0, so each with
    probability 1/2 under [random.getrandbits(1)]; a validation step
    never uses the soft attention and uses the monotonic path whenever
    its aligner returns. *)
Theorem alignment_choice (W : world) (S : settings) (lp : yaml) (epoch i : Z)
    (st : train_state) (b : batch) :
  aligner_raises b = None ->
  (forall bit,
     uses Soft (events (train_step W S lp epoch i st b bit)) = Random.bool_ bit /\
     uses Mono (events (train_step W S lp epoch i st b bit)) = negb (Random.bool_ bit)) /\
  (prob (Random.getrandbits 1)
        (fun bit => uses Soft (events (train_step W S lp epoch i st b bit))) == 1 # 2)%Q /\
  (prob (Random.getrandbits 1)
        (fun bit => uses Mono (events (train_step W S lp epoch i st b bit))) == 1 # 2)%Q /\
  forall acc vb,
    uses Soft (events (val_step W acc vb)) = false /\
    (aligner_raises vb = None -> uses Mono (events (val_step W acc vb)) = true).
Proof.
  intros Hb.
  pose proof (fun bit => step_alignment W S lp epoch i st b bit Hb) as Hbit.
  split; [exact Hbit|].
  destruct (Hbit 0) as [S0 M0]. destruct (Hbit 1) as [S1 M1].
  split; [|split].
  - unfold prob. change (Random.getrandbits 1) with [0; 1].
    cbn [filter]. rewrite S0, S1. reflexivity.
  - unfold prob. change (Random.getrandbits 1) with [0; 1].
    cbn [filter]. rewrite M0, M1. reflexivity.
  - intros acc vb. apply val_alignment.
Qed.

(** ** Reshaping the pitch tensor *)

(** Lines 284-286 on an [F0_real] of [B * T] elements and an [F0_fake]
    of shape [(B, T)], for [0 < B <= bs]. *)
Lemma F0_reshape (s : Torch.shape) (bs B T : Z) (v : fl) :
  0 < B <= bs -> 0 <= T -> Torch.numel s = B * T ->
  match Torch.view s bs with
  | Ok sh =>
      if (B =? bs) || ((B =? 1) && ((T =? 0) || (T =? bs)))
      then Torch.smooth_l1_loss sh [B; T] v = Ok v
      else exists msg, Torch.smooth_l1_loss sh [B; T] v = Raise (RuntimeError msg)
  | Raise e =>
      (B =? bs) || ((B =? 1) && ((T =? 0) || (T =? bs))) = false /\
      exists msg, e = RuntimeError msg
  end.
Proof.
  intros HB HT Hn. unfold Torch.view. rewrite Hn.
  replace (0 <? bs) with true by (symmetry; apply Z.ltb_lt; lia).
  cbn [andb].
  destruct (Z.eqb_spec ((B * T) mod bs) 0) as [Hmod|Hmod].
  - unfold Torch.smooth_l1_loss, Torch.broadcast_tensors, Torch.broadcastable.
    cbn [rev app Torch.broadcastable_rev].
    apply Z.mod_divide in Hmod; [|lia]. destruct Hmod as [k Hk].
    rewrite Hk, Z.div_mul by lia.
    destruct (Z.eqb_spec B bs) as [->|HBne].
    + assert (k = T) by nia. subst k. rewrite !Z.eqb_refl. reflexivity.
    + destruct (Z.eqb_spec B 1) as [->|HB1].
      * rewrite Z.mul_1_l in Hk. subst T.
        case_bounds; cbn; try reflexivity; try (eexists; reflexivity);
          exfalso; nia.
      * case_bounds; cbn; try reflexivity; try (eexists; reflexivity);
          exfalso; nia.
  - split; [|eexists; reflexivity].
    destruct (Z.eqb_spec B bs) as [->|HBne].
    + exfalso. apply Hmod. rewrite Z.mul_comm. apply Z.mod_mul. lia.
    + destruct (Z.eqb_spec B 1) as [->|HB1]; [|reflexivity].
      rewrite Z.mul_1_l in Hmod. cbn [orb andb].
      destruct (Z.eqb_spec T 0) as [->|]; [exfalso; apply Hmod; apply Z.mod_0_l; lia|].
      destruct (Z.eqb_spec T bs) as [->|]; [exfalso; apply Hmod; apply Z.mod_same; lia|].
      reflexivity.
Qed.

Ltac use_reshape HF :=
  repeat match goal with
         | E : Torch.view _ _ = _ |- _ => rewrite E in HF; clear E
         end;
  match goal with
  | |- context [if ?c then _ else _] => destruct c
  end;
  repeat match goal with
         | H : _ /\ _ |- _ => destruct H
         | H : exists _, _ |- _ => destruct H
         end;
  try congruence.

(** C10 (as amended): line 284 reshapes with the configured batch size.
    For a batch of [B] examples, [0 < B <= batch_size], whose [F0_real]
    has [B * T] elements and whose [F0_fake] has shape [(B, T)], a step
    that reaches the reshape goes on to the discriminator update when
    [B = batch_size], and also when [B = 1] and [T] is 0 or
    [batch_size]; in every other case it raises a [RuntimeError] at
    line 284 or 286, outside the aligner's try, before any optimizer or
    runtime call. *)
Theorem partial_batch_reshape (W : world) (S : settings) (lp : yaml)
    (epoch i : Z) (st : train_state) (b : batch) (bit : Z) (bs B T : Z)
    (tr : list event) (r : result step_result) :
  batch_size S = YInt bs -> size0 b = B -> 0 < B <= bs -> 0 <= T ->
  Torch.numel (F0_real_shape b) = B * T -> F0_fake_shape b = [B; T] ->
  train_step W S lp epoch i st b bit = (tr, r) ->
  forwards "decoder" tr = true ->
  if (B =? bs) || ((B =? 1) && ((T =? 0) || (T =? bs)))
  then exists rest,
         updates tr = [ZeroGrad; Backward Discriminator (d_loss b);
                       OptStep "msd"; OptStep "mpd"; MarkStep; ZeroGrad] ++ rest
  else (exists msg, r = Raise (RuntimeError msg)) /\ updates tr = [].
Proof.
  intros Hbs _ HB HT Hn Hfake.
  pose proof (F0_reshape (F0_real_shape b) bs B T (F0_value b) HB HT Hn) as HF.
  revert tr r. by_running. open_step. rewrite Hbs, Hfake. cbn [as_int].
  destruct (aligner_raises b) as [e|]; [destruct (is_Exception e)|].
  - run. discriminate.
  - run. discriminate.
  - run; intros Hf; try discriminate Hf; use_reshape HF.
    all: try (eexists; reflexivity).
    all: try (split; [eexists; reflexivity | reflexivity]).
    all: repeat match goal with
                | H : Raise _ = Raise _ |- _ => injection H as H
                end; subst; split; [eexists; reflexivity | reflexivity].
Qed.

(** ** The validation report *)

Lemma fold_add_finite (xs : list Q) (a : Q) :
  exists q, fold_left Fl.add (map Some xs) (Some a) = Some q /\ (q == a + Fl.sum xs)%Q.
Proof.
  unfold Fl.sum.
  revert a. induction xs as [|x xs IH]; intros a; cbn [map fold_left fold_right].
  - exists a. split; [reflexivity|]. ring.
  - cbn [Fl.add]. destruct (IH (a + x)%Q) as [q [Hq Eq]].
    exists q. split; [exact Hq|]. rewrite Eq. ring.
Qed.

Lemma reduce_fn_finite (xs : list Q) :
  xs <> [] ->
  exists q, reduce_fn (map Some xs) = Some q /\
            (q == Fl.sum xs / inject_Z (Z.of_nat (List.length xs)))%Q.
Proof.
  intros Hne. unfold reduce_fn, Fl.of_Z.
  destruct (fold_add_finite xs (inject_Z 0)) as [q [Hq Eq]].
  rewrite Hq, length_map. cbn [Fl.div_Z].
  destruct (Z.eqb_spec (Z.of_nat (List.length xs)) 0) as [H0|H0].
  - destruct xs; [congruence|discriminate].
  - eexists. split; [reflexivity|]. rewrite Eq.
    change (inject_Z 0) with 0%Q. rewrite Qplus_0_l. reflexivity.
Qed.

Lemma report_values (W : world) (S : settings) (epoch iters_now : Z)
    (bl : best) (acc : val_acc) :
  let n := Z.max (iters_test acc) 1 in
  let value tag data := Fl.div_Z (reduce_fn (all_gather W epoch tag data)) n in
  let tr := events (report W S epoch iters_now bl acc) in
  if is_master_ordinal W
  then reported "eval/mel_loss" tr = Some (value "loss_test" (loss_test acc)) /\
       reported "eval/dur_loss" tr = Some (value "loss_align" (loss_align acc)) /\
       reported "eval/F0_loss" tr = Some (value "loss_f" (loss_f acc))
  else reported "eval/mel_loss" tr = None /\
       reported "eval/dur_loss" tr = None /\
       reported "eval/F0_loss" tr = None.
Proof.
  cbv zeta.
  change (post (report W S epoch iters_now bl acc) (fun tr _ =>
    if is_master_ordinal W
    then reported "eval/mel_loss" tr =
           Some (Fl.div_Z (reduce_fn (all_gather W epoch "loss_test" (loss_test acc)))
                          (Z.max (iters_test acc) 1)) /\
         reported "eval/dur_loss" tr =
           Some (Fl.div_Z (reduce_fn (all_gather W epoch "loss_align" (loss_align acc)))
                          (Z.max (iters_test acc) 1)) /\
         reported "eval/F0_loss" tr =
           Some (Fl.div_Z (reduce_fn (all_gather W epoch "loss_f" (loss_f acc)))
                          (Z.max (iters_test acc) 1))
    else reported "eval/mel_loss" tr = None /\
         reported "eval/dur_loss" tr = None /\
         reported "eval/F0_loss" tr = None)).
  unfold report, mesh_reduce.
  destruct (is_master_ordinal W); run; repeat split; reflexivity.
Qed.

Lemma sum_equal_counts (c : Z) (sums : list Q) (counts : list Z) :
  List.length counts = List.length sums ->
  Forall (fun c' => c' = c) counts ->
  (Fl.sum (map (fun sc => fst sc / inject_Z (snd sc)) (combine sums counts))
   == Fl.sum sums / inject_Z c)%Q.
Proof.
  unfold Fl.sum. revert counts.
  induction sums as [|s sums IH]; intros [|c' counts] Hlen Hall;
    try discriminate; cbn [combine map fold_right fst snd].
  - unfold Qdiv. ring.
  - inversion Hall as [|? ? -> Hall']; subst.
    rewrite IH by (try assumption; cbn in Hlen; lia).
    unfold Qdiv. ring.
Qed.

Lemma report_reductions (W : world) (S : settings) (epoch iters_now : Z)
    (bl : best) (acc : val_acc) :
  reductions (events (report W S epoch iters_now bl acc)) =
  map (fun m => (snd (fst m), snd m)) (metrics acc).
Proof.
  unfold report, mesh_reduce, call, when, bind, lift, emit, ret, raise, events.
  destruct (is_master_ordinal W); [|reflexivity].
  destruct (as_int (save_freq S)) as [sf|e]; [|reflexivity].
  destruct (sf =? 0); [reflexivity|].
  destruct ((epoch + 1) mod sf =? 0); [|reflexivity].
  destruct (raises W _); reflexivity.
Qed.

(** C5 (as amended): every worker, master or not, calls
    [xm.mesh_reduce] for the three keys with its own accumulated sums,
    and the call returns the same value on every worker of the mesh: the
    mean of the workers' sums.  For each of the three metrics the master
    writes that mean divided by its own batch count (at least 1); the
    other workers' counts do not enter.  It is the average of the
    per-worker averages when every worker counted the same number of
    batches, at least one.  A worker that is not the master writes
    nothing. *)
Theorem validation_report (W : world) (S : settings) (epoch iters_now : Z)
    (bl : best) (acc : val_acc) (tag key : string) (data : fl) (sums : list Q) :
  In (tag, key, data) (metrics acc) ->
  is_master_ordinal W = true ->
  all_gather W epoch key data = map Some sums ->
  exists v,
    reported tag (events (report W S epoch iters_now bl acc)) = Some (Some v) /\
    (v == Fl.sum sums / inject_Z (Z.of_nat (List.length sums))
            / inject_Z (Z.max (iters_test acc) 1))%Q /\
    (forall counts,
       List.length counts = List.length sums ->
       Forall (fun c => c = iters_test acc) counts ->
       1 <= iters_test acc ->
       Fl.eq (Some v) (spec_reported sums counts)) /\
    (forall W' S' epoch' iters' bl' acc',
       is_master_ordinal W' = false ->
       reported tag (events (report W' S' epoch' iters' bl' acc')) = None) /\
    (exists m,
       (m == Fl.sum sums / inject_Z (Z.of_nat (List.length sums)))%Q /\
       (v == m / inject_Z (Z.max (iters_test acc) 1))%Q /\
       forall W' data',
         all_gather W' epoch key data' = map Some sums ->
         mesh_reduce W' epoch key data' = ([MeshReduce key data'], Ok (Some m))) /\
    (forall W' S' epoch' iters' bl' acc',
       reductions (events (report W' S' epoch' iters' bl' acc')) =
       map (fun m => (snd (fst m), snd m)) (metrics acc')).
Proof.
  intros Hin Hmaster Hgather.
  pose proof (report_values W S epoch iters_now bl acc) as Hrep.
  cbv zeta in Hrep. rewrite Hmaster in Hrep. destruct Hrep as (Hm & Hd & Hf).
  assert (Hne : sums <> []).
  { intros ->. unfold all_gather in Hgather.
    destruct (firstn (ordinal W) (peers W epoch key)); discriminate. }
  destruct (reduce_fn_finite sums Hne) as [q [Hq Eq]].
  assert (Hn : (Z.max (iters_test acc) 1 =? 0) = false) by (apply Z.eqb_neq; lia).
  exists (q / inject_Z (Z.max (iters_test acc) 1))%Q.
  split; [|split; [|split; [|split; [|split]]]].
  - cbn [metrics In] in Hin.
    destruct Hin as [H|[H|[H|[]]]]; injection H as <- <- <-;
      [rewrite Hm|rewrite Hd|rewrite Hf];
      rewrite Hgather, Hq; cbn [Fl.div_Z]; rewrite Hn; reflexivity.
  - rewrite Eq. reflexivity.
  - intros counts Hlen Hall Hc.
    unfold spec_reported, Fl.mean.
    destruct (map _ (combine sums counts)) as [|x xs] eqn:Emap.
    { destruct sums; [congruence|]. destruct counts; discriminate. }
    rewrite <- Emap. cbn [Fl.eq].
    rewrite sum_equal_counts with (c := iters_test acc) by assumption.
    rewrite length_map, length_combine, Hlen, Nat.min_id.
    rewrite Eq, Z.max_l by lia.
    assert (Hc0 : ~ (inject_Z (iters_test acc) == 0)%Q).
    { unfold Qeq; cbn. lia. }
    assert (Hn0 : ~ (inject_Z (Z.of_nat (List.length sums)) == 0)%Q).
    { unfold Qeq; cbn. destruct sums; [congruence|]. cbn [List.length]. lia. }
    field. split; assumption.
  - intros W' S' epoch' iters' bl' acc' Hw.
    pose proof (report_values W' S' epoch' iters' bl' acc') as Hrep'.
    cbv zeta in Hrep'. rewrite Hw in Hrep'. destruct Hrep' as (H1 & H2 & H3).
    cbn [metrics In] in Hin.
    destruct Hin as [H|[H|[H|[]]]]; injection H as <- <- <-; assumption.
  - exists q. split; [exact Eq|]. split; [reflexivity|].
    intros W' data' Hg. unfold mesh_reduce, bind, emit, ret.
    rewrite Hg, Hq. reflexivity.
  - intros. apply report_reductions.
Qed.

(** ** The duration and alignment losses *)

Lemma slice_0 {A : Type} (n : Z) (t : list A) :
  Torch.slice 0 n t = firstn (Z.to_nat n) t.
Proof. reflexivity. Qed.

Lemma slice_interior {A : Type} (n : Z) (t : list A) :
  1 <= n -> List.length t = Z.to_nat n ->
  Torch.slice 1 (n - 1) t = interior t.
Proof.
  intros Hn Hlen. unfold Torch.slice, interior.
  rewrite removelast_firstn_len, Hlen.
  replace (Z.to_nat (n - 1)) with (Nat.pred (Z.to_nat n)) by lia.
  reflexivity.
Qed.

Lemma length_interior {A : Type} (t : list A) :
  List.length (interior t) = (List.length t - 2)%nat.
Proof.
  unfold interior. rewrite removelast_firstn_len.
  destruct t as [|a t]; [reflexivity|].
  cbn [List.length Nat.pred]. destruct t as [|a' t]; [reflexivity|].
  cbn [firstn tl List.length]. rewrite length_firstn. cbn [List.length]. lia.
Qed.

Lemma interior_map {A B : Type} (f : A -> B) (t : list A) :
  interior (map f t) = map f (interior t).
Proof.
  unfold interior. rewrite !removelast_firstn_len, length_map, firstn_map.
  destruct (firstn (Nat.pred (List.length t)) t); reflexivity.
Qed.

Lemma mean_nonempty (xs : list Q) :
  xs <> [] ->
  Fl.mean xs = Some (Fl.sum xs / inject_Z (Z.of_nat (List.length xs)))%Q.
Proof. destruct xs; [congruence|reflexivity]. Qed.

Lemma trg_row_length (row : list Q) (n : Z) :
  List.length (trg_row row n) = List.length row.
Proof. unfold trg_row. rewrite length_map, length_seq. reflexivity. Qed.

Lemma concat_length_uniform {A : Type} (K : nat) (rows : list (list A)) :
  Forall (fun row => List.length row = K) rows ->
  List.length (List.concat rows) = (List.length rows * K)%nat.
Proof.
  induction 1 as [|row rows Hrow _ IH]; [reflexivity|].
  cbn [List.concat List.length]. rewrite length_app, Hrow, IH. lia.
Qed.

Lemma s2s_trg_shape (K : nat) (rows : list (list Q)) (durations : list Z) :
  List.length durations = List.length rows ->
  Forall (fun row => List.length row = K) rows ->
  List.length (s2s_trg rows durations) = List.length rows /\
  Forall (fun row => List.length row = K) (s2s_trg rows durations).
Proof.
  intros Hlen Hrows. unfold s2s_trg. split.
  - rewrite length_map, length_combine. lia.
  - revert durations Hlen. induction Hrows as [|row rows Hrow _ IH];
      intros [|n durations] Hlen; try discriminate; cbn [combine map]; constructor.
    + cbn [fst snd]. rewrite trg_row_length. exact Hrow.
    + apply IH. cbn in Hlen. lia.
Qed.

Lemma Forall_firstn_keep {A : Type} (P : A -> Prop) (n : nat) (l : list A) :
  Forall P l -> Forall P (firstn n l).
Proof.
  intros H. revert n. induction H as [|a l Ha _ IH]; intros [|n]; cbn [firstn];
    constructor; auto.
Qed.

(** The two terms of an example whose tensors are already cut to its
    [L] tokens, [K] duration bins per token. *)
Lemma example_losses_cut (W : world) (P : list (list Q)) (t : list Z)
    (L : Z) (K : nat) :
  3 <= L -> List.length P = Z.to_nat L -> List.length t = Z.to_nat L ->
  (0 < K)%nat -> Forall (fun row => List.length row = K) P ->
  exists dur ce,
    example_losses W P t L = Ok (Some dur, Some ce) /\
    (dur == Fl.sum (map Torch.abs_diff
                     (combine (interior (dur_pred W P)) (interior (map inject_Z t))))
            / inject_Z (L - 2))%Q /\
    (ce == Fl.sum (map (fun xt => bce_with_logits W (fst xt) (snd xt))
                    (combine (List.concat P) (List.concat (s2s_trg P t))))
           / inject_Z (L * Z.of_nat K))%Q.
Proof.
  intros HL HP Ht HK Hrows. unfold example_losses.
  rewrite !slice_0, !firstn_all2 by lia.
  assert (Hd : List.length (dur_pred W P) = Z.to_nat L)
    by (unfold dur_pred; rewrite length_map; exact HP).
  rewrite (slice_interior L (dur_pred W P)), (slice_interior L t) by (lia || assumption).
  rewrite <- interior_map.
  set (a := interior (dur_pred W P)). set (b := interior (map inject_Z t)).
  assert (Ha : List.length a = (Z.to_nat L - 2)%nat)
    by (unfold a; rewrite length_interior, Hd; reflexivity).
  assert (Hb : List.length b = (Z.to_nat L - 2)%nat)
    by (unfold b; rewrite length_interior, length_map, Ht; reflexivity).
  unfold Torch.l1_loss. rewrite Ha, Hb, Nat.eqb_refl.
  destruct (s2s_trg_shape K P t ltac:(lia) Hrows) as [Hlen Hshape].
  set (xs := map Torch.abs_diff (combine a b)).
  set (ys := map (fun xt => bce_with_logits W (fst xt) (snd xt))
                 (combine (List.concat P) (List.concat (s2s_trg P t)))).
  assert (Hxs : List.length xs = (Z.to_nat L - 2)%nat)
    by (unfold xs; rewrite length_map, length_combine, Ha, Hb; lia).
  assert (Hys : List.length ys = (Z.to_nat L * K)%nat).
  { unfold ys. rewrite length_map, length_combine.
    rewrite (concat_length_uniform K P Hrows), (concat_length_uniform K _ Hshape).
    rewrite Hlen, HP. lia. }
  unfold binary_cross_entropy_with_logits. fold ys.
  rewrite (mean_nonempty xs), (mean_nonempty ys).
  - eexists _, _. split; [reflexivity|]. split.
    + rewrite Hxs. replace (Z.of_nat (Z.to_nat L - 2)) with (L - 2) by lia. reflexivity.
    + rewrite Hys. replace (Z.of_nat (Z.to_nat L * K)) with (L * Z.of_nat K) by lia.
      reflexivity.
  - intros E. rewrite E in Hys. cbn in Hys. nia.
  - intros E. rewrite E in Hxs. cbn in Hxs. lia.
Qed.

(** The batch losses are the examples' terms added up and divided by
    the number of examples. *)
Lemma loss_loop_sums (W : world) (zipped : list (list (list Q) * list Z * Z)) :
  forall acc out,
    loss_loop W acc zipped = Ok out ->
    exists terms,
      Forall2 (fun z term => example_losses W (fst (fst z)) (snd (fst z)) (snd z) = Ok term)
              zipped terms /\
      out = (fold_left Fl.add (map fst terms) (fst acc),
             fold_left Fl.add (map snd terms) (snd acc)).
Proof.
  induction zipped as [|[[pred ti] len] rest IH]; intros acc out H; cbn [loss_loop] in H.
  - injection H as <-. exists []. split; [constructor|]. destruct acc; reflexivity.
  - destruct (example_losses W pred ti len) as [[dur ce]|e] eqn:E; [|discriminate].
    apply IH in H. destruct H as (terms & Hterms & ->).
    exists ((dur, ce) :: terms). split; [constructor; assumption|reflexivity].
Qed.

Lemma example_losses_masked (W : world) (pred : list (list Q)) (ti : list Z) (L : Z) :
  example_losses W pred ti L =
  example_losses W (firstn (Z.to_nat L) pred) (firstn (Z.to_nat L) ti) L.
Proof.
  unfold example_losses. rewrite !slice_0, !firstn_firstn, !Nat.min_id. reflexivity.
Qed.

(** C6 (as amended): both terms of an example read only its first [L]
    tokens.  The duration term is the mean absolute difference over the
    tokens strictly between the first and the last, so its divisor is
    [L - 2]; the alignment term is the mean of the element-wise binary
    cross-entropy over all [L * K] logits of those tokens.  The batch
    losses are the examples' terms added up and divided by the number
    of examples. *)
Theorem duration_loss_terms (W : world) (pred : list (list Q)) (ti : list Z)
    (L : Z) (K : nat) :
  3 <= L ->
  (Z.to_nat L <= List.length pred)%nat -> (Z.to_nat L <= List.length ti)%nat ->
  (0 < K)%nat -> Forall (fun row => List.length row = K) pred ->
  let P := firstn (Z.to_nat L) pred in
  let t := firstn (Z.to_nat L) ti in
  (exists dur ce,
     example_losses W pred ti L = Ok (Some dur, Some ce) /\
     example_losses W P t L = Ok (Some dur, Some ce) /\
     (dur == Fl.sum (map Torch.abs_diff
                      (combine (interior (dur_pred W P)) (interior (map inject_Z t))))
             / inject_Z (L - 2))%Q /\
     (ce == Fl.sum (map (fun xt => bce_with_logits W (fst xt) (snd xt))
                     (combine (List.concat P) (List.concat (s2s_trg P t))))
            / inject_Z (L * Z.of_nat K))%Q) /\
  (forall b out,
     duration_losses W b = Ok out ->
     exists terms,
       Forall2 (fun z term =>
                  example_losses W (fst (fst z)) (snd (fst z)) (snd z) = Ok term)
               (combine (combine (d b) (d_gt b)) (input_lengths b)) terms /\
       out = (Fl.div_Z (fold_left Fl.add (map fst terms) (Fl.of_Z 0)) (size0 b),
              Fl.div_Z (fold_left Fl.add (map snd terms) (Fl.of_Z 0)) (size0 b))).
Proof.
  intros HL Hp Ht HK Hrows P t. split.
  - destruct (example_losses_cut W P t L K HL) as (dur & ce & E & Hdur & Hce).
    + unfold P. apply firstn_length_le. exact Hp.
    + unfold t. apply firstn_length_le. exact Ht.
    + exact HK.
    + unfold P. apply Forall_firstn_keep. exact Hrows.
    + exists dur, ce. rewrite example_losses_masked. fold P t. auto.
  - intros b out H. unfold duration_losses in H.
    destruct (loss_loop W _ _) as [[dur ce]|e] eqn:E; [|discriminate].
    apply loss_loop_sums in E. destruct E as (terms & Hterms & E).
    injection E as -> ->. injection H as <-.
    exists terms. split; [exact Hterms|reflexivity].
Qed.

(** ** The theorems at the sample inputs *)

Lemma nan_loss_aborts_witness :
  outcome (train_step (quiet_world [] []) (sample_settings 2) sample_loss_params
             0 0 fresh_state nan_batch 1)
  = Raise (RuntimeError "NaN loss detected").
Proof.
  refine (proj1 (nan_loss_aborts (quiet_world [] []) (sample_settings 2)
                   sample_loss_params 0 0 fresh_state nan_batch 1 _ _ Fl.nan
                   (surjective_pairing _) _ _)).
  - vm_compute. do 15 right. left. reflexivity.
  - reflexivity.
Defined.

Lemma aligner_failure_skips_witness :
  train_step (quiet_world [] []) (sample_settings 2) sample_loss_params
    0 0 fresh_state failing_batch 1
  = ([Forward "text_aligner"; MarkStep], Ok Skipped).
Proof.
  exact (proj1 (aligner_failure_skips (quiet_world [] []) (sample_settings 2)
                  sample_loss_params 0 0 fresh_state failing_batch 1
                  (RuntimeError "shape mismatch") eq_refl eq_refl)).
Defined.


Lemma validation_report_witness :
  exists v m,
    reported "eval/mel_loss"
      (events (report two_workers (sample_settings 2) 0 0 Inf master_acc))
    = Some (Some v) /\
    (v == Fl.sum [2; 6] / inject_Z 2 / inject_Z 1)%Q /\
    (m == Fl.sum [2; 6] / inject_Z 2)%Q /\
    mesh_reduce other_worker 0 "loss_test" (loss_test other_acc)
    = ([MeshReduce "loss_test" (loss_test other_acc)], Ok (Some m)) /\
    reductions (events (report other_worker (sample_settings 2) 0 0 Inf other_acc))
    = [("loss_test", Some 6%Q); ("loss_align", Some 6%Q); ("loss_f", Some 6%Q)].
Proof.
  destruct (validation_report two_workers (sample_settings 2) 0 0 Inf master_acc
              "eval/mel_loss" "loss_test" (Some 2%Q) [2; 6]%Q)
    as (v & Hv & Ev & _ & _ & (m & Em & _ & Hm) & Hr).
  - left. reflexivity.
  - reflexivity.
  - reflexivity.
  - exists v, m. split; [exact Hv|]. split; [exact Ev|]. split; [exact Em|].
    split; [apply Hm; reflexivity|].
    exact (Hr other_worker (sample_settings 2) 0 0 Inf other_acc).
Defined.

Lemma duration_loss_terms_witness :
  exists dur ce,
    example_losses (quiet_world [] []) [[0]; [0]; [0]]%Q [1; 2; 1] 3
    = Ok (Some dur, Some ce).
Proof.
  destruct (duration_loss_terms (quiet_world [] []) [[0]; [0]; [0]]%Q [1; 2; 1] 3 1)
    as [(dur & ce & H & _) _].
  - lia.
  - vm_compute. lia.
  - vm_compute. lia.
  - lia.
  - repeat constructor.
  - exists dur, ce. exact H.
Defined.

Lemma no_pretrained_aborts_witness :
  _mp_fn (quiet_world [sample_batch] []) 0
    (sample_config (Some (YMap sample_symbol)) (Some (YStr EmptyString)))
  = (events (startup (quiet_world [sample_batch] []) 0
               (sample_config (Some (YMap sample_symbol)) (Some (YStr EmptyString)))),
     Raise (Exception "Must have a pretrained!")).
Proof.
  refine (proj2 (proj2 (no_pretrained_aborts (quiet_world [sample_batch] []) 0
            (sample_config (Some (YMap sample_symbol)) (Some (YStr EmptyString))) _))
            _ _ _ _ _ _ _ _ _).
  - intros v H. vm_compute in H. injection H as <-. reflexivity.
  - vm_compute. reflexivity.
  - vm_compute. reflexivity.
  - vm_compute. reflexivity.
Defined.

Lemma vocabulary_missing_aborts_witness :
  outcome (_mp_fn (quiet_world [sample_batch] []) 0
             (sample_config (Some (YMap (removelast sample_symbol)))
                            (Some (YStr "base.pth"))))
  = Raise (SystemExit 1) /\
  events (_mp_fn (quiet_world [sample_batch] []) 0
            (sample_config (Some (YMap (removelast sample_symbol)))
                           (Some (YStr "base.pth"))))
  = [Seed 1234; Call os_makedirs; Call shutil_copy; Call SummaryWriter;
     Call FileHandler] ++ [Print (cannot_find (KeyError "extend"))].
Proof.
  assert (H : vocabulary_missing
                (sample_config (Some (YMap (removelast sample_symbol)))
                               (Some (YStr "base.pth")))).
  { right. exists (YMap (removelast sample_symbol)), "extend".
    split; [reflexivity|]. split; [|reflexivity].
    vm_compute. do 4 right. left. reflexivity. }
  destruct (vocabulary_missing_aborts (quiet_world [sample_batch] []) 0 _ H)
    as (_ & _ & K).
  destruct (K _ _ eq_refl) as (Hout & _ & Hev).
  split; [exact Hout|]. apply Hev. reflexivity.
Defined.

Lemma alignment_choice_witness :
  (prob (Random.getrandbits 1)
        (fun bit => uses Soft (events (train_step (quiet_world [] []) (sample_settings 2)
                                         sample_loss_params 0 0 fresh_state
                                         sample_batch bit))) == 1 # 2)%Q.
Proof.
  exact (proj1 (proj2 (alignment_choice (quiet_world [] []) (sample_settings 2)
                         sample_loss_params 0 0 fresh_state sample_batch eq_refl))).
Defined.

Lemma partial_batch_reshape_witness :
  (exists msg,
     outcome (train_step (quiet_world [] []) (sample_settings 4) sample_loss_params
                0 0 fresh_state short_batch 1) = Raise (RuntimeError msg)) /\
  updates (events (train_step (quiet_world [] []) (sample_settings 4)
                     sample_loss_params 0 0 fresh_state short_batch 1)) = [].
Proof.
  refine (partial_batch_reshape (quiet_world [] []) (sample_settings 4)
            sample_loss_params 0 0 fresh_state short_batch 1 4 1 6 _ _
            eq_refl eq_refl _ _ eq_refl eq_refl (surjective_pairing _) _).
  - lia.
  - lia.
  - vm_compute. reflexivity.
Defined.

(** ** Where the claims' wording and the code part *)

(** C5 as worded fails when the workers' counts differ: the master
    summed 2 over 1 batch, the other worker 6 over 3 batches; the
    average of the two averages is 2, the master writes
    [((2 + 6) / 2) / 1 = 4]. *)
Lemma report_not_average_of_averages :
  exists v,
    reported "eval/mel_loss"
      (events (report two_workers (sample_settings 2) 0 0 Inf master_acc))
    = Some (Some v) /\
    (v == 4)%Q /\
    Fl.eq (spec_reported [2; 6]%Q [1; 3]) (Some 2%Q) /\
    ~ Fl.eq (Some v) (spec_reported [2; 6]%Q [1; 3]).
Proof.
  eexists. split; [vm_compute; reflexivity|].
  split; [reflexivity|]. split; [reflexivity|].
  vm_compute. discriminate.
Qed.

(** C6 as worded fails on the duration term: for three tokens with
    predicted durations 1/2 each and aligned durations 1, 2, 1, dividing
    the summed differences by the valid length gives 5/6; the code
    compares the middle token only and returns 3/2. *)
Lemma duration_term_not_divided_by_length :
  exists dur ce,
    example_losses (quiet_world [] []) [[0]; [0]; [0]]%Q [1; 2; 1] 3
    = Ok (Some dur, ce) /\
    (dur == 3 # 2)%Q /\
    Fl.eq (spec_dur_example (quiet_world [] []) [[0]; [0]; [0]]%Q [1; 2; 1] 3)
          (Some (5 # 6)%Q) /\
    ~ Fl.eq (Some dur)
            (spec_dur_example (quiet_world [] []) [[0]; [0]; [0]]%Q [1; 2; 1] 3).
Proof.
  eexists _, _. split; [vm_compute; reflexivity|].
  split; [reflexivity|]. split; [reflexivity|].
  vm_compute. discriminate.
Qed.

(** C10 as worded fails on a batch of one example under a batch size of
    16 when the pitch tensors hold 16 frames: the sampler's window is
    8 frames, [view(16, -1)] turns the [(1, 16)] tensor into [(16, 1)],
    which broadcasts against [(1, 16)], and the step completes. *)
Lemma single_example_batch_completes :
  size0 single_batch < 16 /\
  batch_size (sample_settings 16) = YInt 16 /\
  (exists sgs, sampler Training 200 (mel_input_length single_batch) = Ok (8, sgs)) /\
  Torch.view (F0_real_shape single_batch) 16 = Ok [16; 1] /\
  exists st',
    outcome (train_step (quiet_world [] []) (sample_settings 16) sample_loss_params
               0 0 fresh_state single_batch 1) = Ok (Completed st').
Proof.
  split; [reflexivity|]. split; [reflexivity|].
  split; [eexists; vm_compute; reflexivity|]. split; [reflexivity|].
  eexists. vm_compute. reflexivity.
Qed.


(** C8 as worded fails on the message: with [extend] missing and [pad]
    null the run exits with status 1 before anything is built, but the
    message carries the [TypeError] of [list(None)] and names neither
    [extend] nor any other field. *)
Lemma null_field_hides_missing_field :
  vocabulary_missing (sample_config (Some (YMap null_pad_symbol)) (Some (YStr "base.pth"))) /\
  missing_field (sample_config (Some (YMap null_pad_symbol)) (Some (YStr "base.pth"))) = None /\
  _mp_fn (quiet_world [sample_batch] []) 0
    (sample_config (Some (YMap null_pad_symbol)) (Some (YStr "base.pth")))
  = ([Seed 1234; Call os_makedirs; Call shutil_copy; Call SummaryWriter;
      Call FileHandler; Print (cannot_find (TypeError "'NoneType' object is not iterable"))],
     Raise (SystemExit 1)) /\
  forall k, In k ("symbol" :: vocabulary_fields) ->
    cannot_find (TypeError "'NoneType' object is not iterable") <> cannot_find (KeyError k).
Proof.
  split.
  { right. exists (YMap null_pad_symbol), "extend".
    split; [reflexivity|]. split; [|reflexivity].
    do 4 right. left. reflexivity. }
  split; [reflexivity|]. split; [vm_compute; reflexivity|].
  intros k Hk. cbn [In vocabulary_fields] in Hk.
  repeat (destruct Hk as [<-|Hk]; [vm_compute; discriminate|]). destruct Hk.
Qed.

(** * Further properties of the loops *)

(** ** More of the symbolic run *)

Lemma post_bind {A B : Type} (c : M A) (k : A -> M B)
    (Q : list event -> result B -> Prop) :
  post c (fun tr r =>
    match r with
    | Ok a => post (k a) (fun tr' r' => Q (tr ++ tr') r')
    | Raise e => Q tr (Raise e)
    end) ->
  post (bind c k) Q.
Proof.
  unfold post, bind, events, outcome.
  destruct c as [tr [a|e]]; cbn [fst snd]; [|auto].
  destruct (k a); auto.
Qed.

Lemma post_weaken {A : Type} (c : M A) (Q Q' : list event -> result A -> Prop) :
  (forall tr r, Q tr r -> Q' tr r) -> post c Q -> post c Q'.
Proof. unfold post. auto. Qed.

Lemma post_emit_end (ev : event) (Q : list event -> result unit -> Prop) :
  Q [ev] (Ok tt) -> post (emit ev) Q.
Proof. auto. Qed.

Lemma post_raise_end {A : Type} (e : exn) (Q : list event -> result A -> Prop) :
  Q [] (Raise e) -> post (raise e) Q.
Proof. auto. Qed.

Lemma post_lift_end {A : Type} (r : result A) (Q : list event -> result A -> Prop) :
  Q [] r -> post (lift r) Q.
Proof. auto. Qed.

(** Like [mstep], for runs whose tests are already decided and for
    chains that end in an effect. *)
Ltac xstep :=
  cbv beta iota;
  lazymatch goal with
  | |- post (bind (bind _ _) _) _ => rewrite bind_assoc
  | |- post (bind (emit _) _) _ => apply post_emit
  | |- post (bind (ret _) _) _ => apply post_ret
  | |- post (bind (raise ?e) _) _ => apply (post_stop [] e)
  | |- post (bind (lift (Ok _)) _) _ => apply post_lift_Ok
  | |- post (bind (lift (Raise ?e)) _) _ => apply (post_stop [] e)
  | |- post (bind (lift ?r) _) _ =>
      let E := fresh "E" in
      destruct r eqn:E; [apply post_lift_Ok | apply (post_stop [])]
  | |- post (bind (when _ _) _) _ => unfold when at 1
  | |- post (bind (call ?W ?c) _) _ =>
      let E := fresh "E" in
      unfold call at 1; destruct (raises W c) eqn:E
  | |- post (bind (if ?c then _ else _) _) _ =>
      let E := fresh "E" in destruct c eqn:E
  | |- post (bind (?tr, Ok ?a) _) _ => apply (post_val tr a)
  | |- post (bind (?tr, Raise ?e) _) _ => apply (post_stop tr e)
  | |- post (bind (match ?x with _ => _ end) _) _ =>
      let E := fresh "E" in destruct x eqn:E
  | |- post (if ?c then _ else _) _ =>
      let E := fresh "E" in destruct c eqn:E
  | |- post (ret _) _ => apply post_end
  | |- post (emit _) _ => apply post_emit_end
  | |- post (raise _) _ => apply post_raise_end
  | |- post (lift _) _ => apply post_lift_end
  | |- post (when _ _) _ => unfold when at 1
  | |- post (call ?W ?c) _ =>
      let E := fresh "E" in
      unfold call at 1; destruct (raises W c) eqn:E
  | |- post (try_except _ _) _ => apply post_try
  | |- post (bind (try_except _ _) _) _ => apply post_bind
  | |- if ?c then _ else _ => let E := fresh "E" in destruct c eqn:E
  | |- match ?x with Ok _ => _ | Raise _ => _ end =>
      let E := fresh "E" in destruct x eqn:E
  end.

Ltac xrun := repeat xstep; cbv beta iota.

(** A property of every event carries over a bind and over the loops. *)
Lemma all_events_bind {A B : Type} (P : event -> bool) (c : M A) (k : A -> M B) :
  forallb P (events c) = true ->
  (forall a, forallb P (events (k a)) = true) ->
  forallb P (events (bind c k)) = true.
Proof.
  unfold bind, events. destruct c as [tr [a|e]]; cbn [fst]; intros Hc Hk; [|exact Hc].
  specialize (Hk a). destruct (k a) as [tr' r]. cbn [fst] in *.
  rewrite forallb_app, Hc, Hk. reflexivity.
Qed.

(** ** What a validation batch can raise *)

Lemma tensor_min_Exception (t : list Z) (e : exn) :
  tensor_min t = Raise e -> is_Exception e = true.
Proof. destruct t; simpl; [|discriminate]. intros H; injection H as <-; reflexivity. Qed.

Lemma sample_loop_Exception (ml : Z) (lens : list Z) (e : exn) :
  sample_loop ml lens = Raise e -> is_Exception e = true.
Proof.
  induction lens as [|m rest IH]; simpl; [discriminate|].
  unfold sample_example, Np.random_randint.
  destruct (0 <? int_half m - ml).
  - destruct (sample_loop ml rest); [discriminate|].
    intros H; injection H as <-. apply IH. reflexivity.
  - intros H; injection H as <-; reflexivity.
Qed.

Lemma sampler_Exception (md : mode) (max_len : Z) (lens : list Z) (e : exn) :
  sampler md max_len lens = Raise e -> is_Exception e = true.
Proof.
  unfold sampler, mel_len.
  destruct (tensor_min lens) as [m|e0] eqn:Em.
  - destruct md.
    + destruct (sample_loop _ lens) eqn:Es; [discriminate|].
      intros H; injection H as <-. eapply sample_loop_Exception; eassumption.
    + destruct (sample_loop _ lens) eqn:Es; [discriminate|].
      intros H; injection H as <-. eapply sample_loop_Exception; eassumption.
  - intros H; injection H as <-. eapply tensor_min_Exception; eassumption.
Qed.

Lemma l1_loss_Exception (input target : list Q) (e : exn) :
  Torch.l1_loss input target = Raise e -> is_Exception e = true.
Proof.
  unfold Torch.l1_loss. destruct (Nat.eqb _ _); [discriminate|].
  destruct input as [|x [|x' input]]; try discriminate;
    destruct target as [|y [|y' target]]; try discriminate;
    intros H; injection H as <-; reflexivity.
Qed.

Lemma example_losses_Exception (W : world) (pred : list (list Q)) (ti : list Z)
    (L : Z) (e : exn) :
  example_losses W pred ti L = Raise e -> is_Exception e = true.
Proof.
  unfold example_losses. destruct (Torch.l1_loss _ _) eqn:E; [discriminate|].
  intros H; injection H as <-. eapply l1_loss_Exception; eassumption.
Qed.

Lemma loss_loop_Exception (W : world) (zipped : list (list (list Q) * list Z * Z)) :
  forall acc e, loss_loop W acc zipped = Raise e -> is_Exception e = true.
Proof.
  induction zipped as [|[[pred ti] len] rest IH]; intros acc e; cbn [loss_loop].
  - discriminate.
  - destruct (example_losses W pred ti len) as [[dur ce]|e0] eqn:E.
    + apply IH.
    + intros H; injection H as <-. eapply example_losses_Exception; eassumption.
Qed.

Lemma duration_losses_Exception (W : world) (b : batch) (e : exn) :
  duration_losses W b = Raise e -> is_Exception e = true.
Proof.
  unfold duration_losses. destruct (loss_loop W _ _) as [[dur ce]|e0] eqn:E.
  - discriminate.
  - intros H; injection H as <-. eapply loss_loop_Exception; eassumption.
Qed.

Lemma broadcast_Exception (a b : Torch.shape) (v : fl) (e : exn) :
  Torch.l1_loss_nd a b v = Raise e -> is_Exception e = true.
Proof.
  unfold Torch.l1_loss_nd, Torch.broadcast_tensors.
  destruct (Torch.broadcastable a b); [discriminate|].
  intros H; injection H as <-; reflexivity.
Qed.

(** What is known of an exception by where it was raised. *)
Ltac caught :=
  match goal with
  | H : sampler _ _ _ = Raise ?e, E : is_Exception ?e = false |- _ =>
      rewrite (sampler_Exception _ _ _ _ H) in E; discriminate E
  | H : duration_losses _ _ = Raise ?e, E : is_Exception ?e = false |- _ =>
      rewrite (duration_losses_Exception _ _ _ H) in E; discriminate E
  | H : Torch.l1_loss_nd _ _ _ = Raise ?e, E : is_Exception ?e = false |- _ =>
      rewrite (broadcast_Exception _ _ _ _ H) in E; discriminate E
  end.

(** ** The validation loop *)

Ltac open_val := unfold val_step, val_body, aligner_block.

Lemma val_step_moves_nothing (W : world) (acc : val_acc) (b : batch) :
  forallb (fun ev => negb (moves_parameters ev)) (events (val_step W acc b)) = true.
Proof.
  change (post (val_step W acc b)
            (fun tr _ => forallb (fun ev => negb (moves_parameters ev)) tr = true)).
  open_val. xrun; reflexivity.
Qed.

(** X1: the validation loop never calls [backward] or [optimizer.step],
    whatever its batches do. *)
Theorem validation_moves_nothing (W : world) (batches : list batch) (acc : val_acc) :
  forallb (fun ev => negb (moves_parameters ev)) (events (val_loop W acc batches)) = true.
Proof.
  revert acc. induction batches as [|b rest IH]; intros acc; [reflexivity|].
  cbn [val_loop]. apply all_events_bind; [apply val_step_moves_nothing|].
  intros acc'. apply IH.
Qed.

Lemma val_step_counts (W : world) (acc : val_acc) (b : batch) :
  passes_except b = false ->
  exists acc',
    outcome (val_step W acc b) = Ok acc' /\
    iters_test acc' + Z.of_nat (List.length (filter is_MarkStep (events (val_step W acc b))))
    = iters_test acc + 1 /\
    (iters_test acc' = iters_test acc -> acc' = acc).
Proof.
  intros Hb.
  change (post (val_step W acc b) (fun tr r =>
    exists acc', r = Ok acc' /\
      iters_test acc' + Z.of_nat (List.length (filter is_MarkStep tr)) = iters_test acc + 1 /\
      (iters_test acc' = iters_test acc -> acc' = acc))).
  unfold passes_except in Hb. open_val.
  destruct (aligner_raises b) as [e|].
  - apply negb_false_iff in Hb.
    xrun; try congruence.
    eexists. split; [reflexivity|]. split; [cbn; lia|reflexivity].
  - xrun; try caught;
      (eexists; split; [reflexivity|]; split; [cbn; lia|]; cbn; intros; try reflexivity; lia).
Qed.

(** X2: when no batch raises past [except Exception], the validation
    loop returns, and every batch was either counted in [iters_test] or
    answered by one [xm.mark_step()]: the count and the number of
    flushes add up to the number of batches. *)
Theorem validation_counts_or_flushes (W : world) (batches : list batch) (acc : val_acc) :
  forallb (fun b => negb (passes_except b)) batches = true ->
  exists acc',
    outcome (val_loop W acc batches) = Ok acc' /\
    iters_test acc' + Z.of_nat (List.length (filter is_MarkStep (events (val_loop W acc batches))))
    = iters_test acc + Z.of_nat (List.length batches).
Proof.
  revert acc. induction batches as [|b rest IH]; intros acc Hall.
  - exists acc. split; [reflexivity|]. cbn. lia.
  - cbn [forallb] in Hall. apply andb_true_iff in Hall. destruct Hall as [Hb Hrest].
    apply negb_true_iff in Hb.
    destruct (val_step_counts W acc b Hb) as (acc1 & H1 & Hc1 & _).
    destruct (IH acc1 Hrest) as (acc' & H2 & Hc2).
    destruct (val_step W acc b) as [tr1 r1] eqn:E1.
    cbn [events outcome fst snd] in H1, Hc1. subst r1.
    exists acc'. cbn [val_loop]. rewrite (bind_Ok _ _ _ _ E1).
    cbn [events outcome fst snd]. split; [exact H2|].
    rewrite filter_app, length_app. cbn [List.length]. lia.
Qed.

(** ** The vocabulary *)

Lemma dict_len_raises_Exception (symbols seen : list yaml) (e : exn) :
  dict_len seen symbols = Raise e -> is_Exception e = true.
Proof.
  revert seen. induction symbols as [|s rest IH]; simpl; intros seen; [discriminate|].
  destruct (hashable s).
  - destruct (existsb (key_eqb s) seen); apply IH.
  - intros H; injection H as <-; reflexivity.
Qed.

Lemma dict_len_bounds (symbols seen : list yaml) (n : Z) :
  dict_len seen symbols = Ok n ->
  Z.of_nat (List.length seen) <= n <= Z.of_nat (List.length seen + List.length symbols).
Proof.
  revert seen. induction symbols as [|s rest IH]; simpl; intros seen H.
  - injection H as <-. lia.
  - destruct (hashable s); [|discriminate].
    destruct (existsb (key_eqb s) seen); apply IH in H; cbn [List.length] in H; lia.
Qed.

Ltac caught_lookup :=
  match goal with
  | H : getitem _ _ = Raise ?e, E : is_Exception ?e = false |- _ =>
      rewrite (getitem_Exception _ _ _ H) in E; discriminate E
  | H : list_ _ = Raise ?e, E : is_Exception ?e = false |- _ =>
      rewrite (list_Exception _ _ H) in E; discriminate E
  | H : dict_len _ _ = Raise ?e, E : is_Exception ?e = false |- _ =>
      rewrite (dict_len_raises_Exception _ _ _ H) in E; discriminate E
  end.

(** X3: lines 81-95 either yield a vocabulary size of at least 1 or
    print one [Cannot find ...] message and raise [SystemExit(1)]:
    whatever goes wrong inside the [try] -- a missing key, a field that
    is not iterable, an unhashable symbol -- ends the same way. *)
Theorem vocabulary_exits (W : world) (config : yaml) :
  match outcome (vocabulary W config) with
  | Ok n_token => 1 <= n_token
  | Raise e =>
      e = SystemExit 1 /\
      exists e0, is_Exception e0 = true /\
                 events (vocabulary W config) = [Print (cannot_find e0)]
  end.
Proof.
  change (post (vocabulary W config) (fun tr r =>
    match r with
    | Ok n_token => 1 <= n_token
    | Raise e => e = SystemExit 1 /\
                 exists e0, is_Exception e0 = true /\ tr = [Print (cannot_find e0)]
    end)).
  unfold vocabulary, symbol_list.
  xrun; try caught_lookup.
  all: try (split; [reflexivity|]; eexists; split; [eassumption|reflexivity]).
  all: match goal with
       | H : dict_len [] _ = Ok _ |- _ => apply dict_len_bounds in H; cbn in H; lia
       end.
Qed.

Lemma key_eqb_refl (k : yaml) : hashable k = true -> key_eqb k k = true.
Proof.
  destruct k as [|b|z|q|s|items|entries]; simpl; try discriminate; intros _;
    unfold key_eqb; simpl; try reflexivity; try apply Qeq_bool_refl.
  apply String.eqb_refl.
Qed.

Lemma dict_lookup_set (dct : list (yaml * Z)) (k : yaml) (v : Z) :
  hashable k = true -> dict_lookup (dict_set dct k v) k = Some v.
Proof.
  intros Hk. induction dct as [|[k' v'] rest IH]; simpl.
  - rewrite key_eqb_refl by assumption. reflexivity.
  - destruct (key_eqb k k') eqn:E; simpl; rewrite E; [reflexivity|exact IH].
Qed.

Lemma dict_set_keeps (dct : list (yaml * Z)) (k x : yaml) (v : Z) :
  dict_lookup dct x <> None -> dict_lookup (dict_set dct k v) x <> None.
Proof.
  induction dct as [|[k' v'] rest IH]; simpl; [congruence|].
  destruct (key_eqb k k') eqn:E; simpl; destruct (key_eqb x k'); auto; discriminate.
Qed.

Lemma dict_set_values (P : Z -> Prop) (dct : list (yaml * Z)) (k : yaml) (v : Z) :
  Forall (fun kv => P (snd kv)) dct -> P v ->
  Forall (fun kv => P (snd kv)) (dict_set dct k v).
Proof.
  intros Hd Hv. induction Hd as [|[k' v'] rest Hkv Hrest IH]; simpl.
  - repeat constructor. exact Hv.
  - destruct (key_eqb k k'); constructor; auto.
Qed.

(** The keys of [dict_set dct k v] as seen by a lookup. *)
Lemma dict_set_has (dct : list (yaml * Z)) (k x : yaml) (v : Z) :
  existsb (fun kv => key_eqb x (fst kv)) (dict_set dct k v) =
  if existsb (fun kv => key_eqb k (fst kv)) dct
  then existsb (fun kv => key_eqb x (fst kv)) dct
  else existsb (fun kv => key_eqb x (fst kv)) dct || key_eqb x k.
Proof.
  induction dct as [|[k' v'] rest IH]; simpl.
  - rewrite orb_false_r. reflexivity.
  - destruct (key_eqb k k') eqn:E; simpl; [reflexivity|].
    rewrite IH. destruct (existsb _ rest); [reflexivity|].
    rewrite orb_assoc. reflexivity.
Qed.

Lemma dict_set_length (dct : list (yaml * Z)) (k : yaml) (v : Z) :
  List.length (dict_set dct k v) =
  if existsb (fun kv => key_eqb k (fst kv)) dct
  then List.length dct else S (List.length dct).
Proof.
  induction dct as [|[k' v'] rest IH]; simpl; [reflexivity|].
  destruct (key_eqb k k'); simpl; [reflexivity|].
  rewrite IH. destruct (existsb _ rest); reflexivity.
Qed.

Lemma symbol_dict_from_size (symbols : list yaml) :
  forall dct seen i out,
    List.length seen = List.length dct ->
    (forall x, existsb (key_eqb x) seen = existsb (fun kv => key_eqb x (fst kv)) dct) ->
    symbol_dict_from dct i symbols = Ok out ->
    dict_len seen symbols = Ok (Z.of_nat (List.length out)).
Proof.
  induction symbols as [|s rest IH]; intros dct seen i out Hlen Hkeys H; simpl in *.
  - injection H as <-. rewrite Hlen. reflexivity.
  - destruct (hashable s); [|discriminate].
    pose proof (dict_set_length dct s i) as Hl.
    rewrite (Hkeys s).
    destruct (existsb (fun kv => key_eqb s (fst kv)) dct) eqn:Es.
    + eapply IH; [| |exact H].
      * rewrite Hl. exact Hlen.
      * intros x. rewrite dict_set_has, Es. apply Hkeys.
    + eapply IH; [| |exact H].
      * rewrite Hl. cbn [List.length]. lia.
      * intros x. rewrite dict_set_has, Es. simpl. rewrite Hkeys. apply orb_comm.
Qed.

Lemma symbol_dict_from_keys (symbols : list yaml) :
  forall dct i out,
    symbol_dict_from dct i symbols = Ok out ->
    (forall x, dict_lookup dct x <> None -> dict_lookup out x <> None) /\
    (forall s, In s symbols -> dict_lookup out s <> None).
Proof.
  induction symbols as [|s rest IH]; intros dct i out H; simpl in *.
  - injection H as <-. split; [auto|contradiction].
  - destruct (hashable s) eqn:Hs; [|discriminate].
    destruct (IH _ _ _ H) as [Hkeep Hin]. split.
    + intros x Hx. apply Hkeep, dict_set_keeps, Hx.
    + intros s' [<-|Hs']; [|apply Hin, Hs'].
      apply Hkeep. rewrite dict_lookup_set by assumption. discriminate.
Qed.

Lemma symbol_dict_from_range (symbols : list yaml) :
  forall dct i out (n : Z),
    symbol_dict_from dct i symbols = Ok out ->
    0 <= i -> n = i + Z.of_nat (List.length symbols) ->
    Forall (fun kv => 0 <= snd kv < n) dct ->
    Forall (fun kv => 0 <= snd kv < n) out.
Proof.
  induction symbols as [|s rest IH]; intros dct i out n H Hi Hn Hd; simpl in *.
  - injection H as <-. exact Hd.
  - destruct (hashable s); [|discriminate].
    apply (IH _ _ _ n) in H; [exact H|lia|lia|].
    apply (dict_set_values (fun v => 0 <= v < n)); [exact Hd|lia].
Qed.

Lemma symbol_dict_from_last (pre : list yaml) (s : yaml) :
  forall dct i out,
    symbol_dict_from dct i (pre ++ [s]) = Ok out ->
    dict_lookup out s = Some (i + Z.of_nat (List.length pre)).
Proof.
  induction pre as [|p pre IH]; intros dct i out H; simpl in *.
  - destruct (hashable s) eqn:Hs; [|discriminate]. injection H as <-.
    rewrite Z.add_0_r. apply dict_lookup_set. exact Hs.
  - destruct (hashable p); [|discriminate].
    apply IH in H. rewrite H. f_equal. lia.
Qed.

(** X4: when the dict comprehension of line 89 returns, every symbol of
    the concatenated vocabulary is a key of [symbol_dict], every index
    lies in [0, len(symbols)), and the size the script adds 1 to for
    [n_token] is the number of keys. *)
Theorem symbol_dict_keys (symbols : list yaml) (dct : list (yaml * Z)) :
  symbol_dict symbols = Ok dct ->
  (forall s, In s symbols -> dict_lookup dct s <> None) /\
  Forall (fun kv => 0 <= snd kv < Z.of_nat (List.length symbols)) dct /\
  dict_len [] symbols = Ok (Z.of_nat (List.length dct)).
Proof.
  unfold symbol_dict. intros H. split; [|split].
  - apply (symbol_dict_from_keys _ _ _ _ H).
  - apply (symbol_dict_from_range symbols [] 0 dct _ H); [lia|lia|constructor].
  - apply (symbol_dict_from_size symbols [] [] 0 dct); [reflexivity|reflexivity|exact H].
Qed.

Lemma symbol_dict_from_app (pre rest : list yaml) :
  forall dct i,
    symbol_dict_from dct i (pre ++ rest) =
    match symbol_dict_from dct i pre with
    | Ok d1 => symbol_dict_from d1 (i + Z.of_nat (List.length pre)) rest
    | Raise e => Raise e
    end.
Proof.
  induction pre as [|p pre IH]; intros dct i; simpl.
  - rewrite Z.add_0_r. reflexivity.
  - destruct (hashable p); [|reflexivity].
    rewrite IH. destruct (symbol_dict_from _ _ pre); [|reflexivity].
    f_equal. lia.
Qed.

Lemma dict_lookup_has (dct : list (yaml * Z)) (x : yaml) :
  dict_lookup dct x <> None ->
  existsb (fun kv => key_eqb x (fst kv)) dct = true.
Proof.
  induction dct as [|[k v] rest IH]; simpl; [congruence|].
  destruct (key_eqb x k); [reflexivity|exact IH].
Qed.

(** X5: the last symbol of the vocabulary always gets index
    [len(symbols) - 1]; when it repeats an earlier symbol it takes that
    symbol's key over, so its index is at least the number of keys: the
    indices of a vocabulary with repeated symbols are not the range
    below [len(symbol_dict)]. *)
Theorem symbol_dict_last_index (pre : list yaml) (s : yaml) (dct : list (yaml * Z)) :
  symbol_dict (pre ++ [s]) = Ok dct ->
  dict_lookup dct s = Some (Z.of_nat (List.length pre)) /\
  (In s pre -> Z.of_nat (List.length dct) <= Z.of_nat (List.length pre)).
Proof.
  unfold symbol_dict. intros H. split.
  - apply symbol_dict_from_last in H. exact H.
  - intros Hin. rewrite symbol_dict_from_app in H.
    destruct (symbol_dict_from [] 0 pre) as [d1|e] eqn:E1; [|discriminate].
    simpl in H. destruct (hashable s); [|discriminate]. injection H as <-.
    destruct (symbol_dict_from_keys _ _ _ _ E1) as [_ Hkeys].
    rewrite dict_set_length, (dict_lookup_has _ _ (Hkeys s Hin)).
    apply (symbol_dict_from_size pre [] [] 0 d1) in E1; [|reflexivity|reflexivity].
    apply dict_len_bounds in E1. cbn in E1. lia.
Qed.

(** ** What a worker that is not the master leaves alone *)

Section Worker.

Variable W : world.
Hypothesis not_master : is_master_ordinal W = false.

Ltac worker_run :=
  rewrite ?not_master; xrun; try reflexivity;
  try (match goal with
       | E : _ && false = true |- _ => rewrite andb_false_r in E; discriminate E
       end).

Lemma worker_read_settings (index : Z) (config : yaml) :
  forallb quiet (events (read_settings W index config)) = true.
Proof.
  change (post (read_settings W index config) (fun tr _ => forallb quiet tr = true)).
  unfold read_settings. worker_run.
Qed.

Lemma worker_vocabulary (config : yaml) :
  forallb quiet (events (vocabulary W config)) = true.
Proof.
  change (post (vocabulary W config) (fun tr _ => forallb quiet tr = true)).
  unfold vocabulary, symbol_list. worker_run.
Qed.

Lemma worker_build (config : yaml) (n : Z) :
  forallb quiet (events (build W config n)) = true.
Proof.
  change (post (build W config n) (fun tr _ => forallb quiet tr = true)).
  unfold build. worker_run.
Qed.

Lemma worker_load (config : yaml) (flag : bool) :
  forallb quiet (events (load_pretrained_model W config flag)) = true.
Proof.
  change (post (load_pretrained_model W config flag)
            (fun tr _ => forallb quiet tr = true)).
  unfold load_pretrained_model. worker_run.
Qed.

Lemma worker_startup (index : Z) (config : yaml) :
  forallb quiet (events (startup W index config)) = true.
Proof.
  unfold startup.
  apply all_events_bind; [apply worker_read_settings|intros st].
  apply all_events_bind; [apply worker_vocabulary|intros n].
  apply all_events_bind; [apply worker_build|intros lp].
  apply all_events_bind; [apply worker_load|intros se]. reflexivity.
Qed.

Lemma worker_train_step (S : settings) (lp : yaml) (epoch i : Z)
    (st : train_state) (b : batch) (bit : Z) :
  forallb quiet (events (train_step W S lp epoch i st b bit)) = true.
Proof.
  change (post (train_step W S lp epoch i st b bit)
            (fun tr _ => forallb quiet tr = true)).
  open_step. rewrite not_master.
  destruct (aligner_raises b) as [e|]; [destruct (is_Exception e)|]; worker_run.
Qed.

Lemma worker_train_loop (S : settings) (lp : yaml) (epoch : Z) (batches : list batch) :
  forall i st, forallb quiet (events (train_loop W S lp epoch i st batches)) = true.
Proof.
  induction batches as [|b rest IH]; intros i st; [reflexivity|].
  cbn [train_loop]. apply all_events_bind; [apply worker_train_step|].
  intros r. apply IH.
Qed.

Lemma worker_val_step (acc : val_acc) (b : batch) :
  forallb quiet (events (val_step W acc b)) = true.
Proof.
  change (post (val_step W acc b) (fun tr _ => forallb quiet tr = true)).
  open_val. worker_run.
Qed.

Lemma worker_val_loop (batches : list batch) :
  forall acc, forallb quiet (events (val_loop W acc batches)) = true.
Proof.
  induction batches as [|b rest IH]; intros acc; [reflexivity|].
  cbn [val_loop]. apply all_events_bind; [apply worker_val_step|].
  intros acc'. apply IH.
Qed.

Lemma worker_report (S : settings) (epoch iters_now : Z) (bl : best) (acc : val_acc) :
  forallb quiet (events (report W S epoch iters_now bl acc)) = true.
Proof.
  change (post (report W S epoch iters_now bl acc) (fun tr _ => forallb quiet tr = true)).
  unfold report, mesh_reduce. worker_run.
Qed.

Lemma worker_run_epoch (S : settings) (lp : yaml) (epoch iters0 : Z) (bl : best) :
  forallb quiet (events (run_epoch W S lp epoch iters0 bl)) = true.
Proof.
  unfold run_epoch. rewrite not_master. unfold when.
  apply all_events_bind; [reflexivity|intros _].
  apply all_events_bind; [apply worker_train_loop|intros st].
  apply all_events_bind; [reflexivity|intros _].
  apply all_events_bind; [reflexivity|intros _].
  apply all_events_bind; [apply worker_val_loop|intros acc].
  apply all_events_bind; [apply worker_report|intros bl']. reflexivity.
Qed.

Lemma worker_epoch_loop (S : settings) (lp : yaml) (todo : list Z) :
  forall iters0 bl, forallb quiet (events (epoch_loop W S lp todo iters0 bl)) = true.
Proof.
  induction todo as [|epoch rest IH]; intros iters0 bl; [reflexivity|].
  cbn [epoch_loop]. apply all_events_bind; [apply worker_run_epoch|].
  intros r. apply IH.
Qed.

Lemma worker_mp_fn (index : Z) (config : yaml) :
  forallb quiet (events (_mp_fn W index config)) = true.
Proof.
  unfold _mp_fn. apply all_events_bind; [apply worker_startup|].
  intros [[[stg lp] start_epoch] iters0].
  apply all_events_bind; [destruct (as_int (epochs stg)); reflexivity|intros n].
  apply all_events_bind; [apply worker_epoch_loop|intros _].
  rewrite not_master. reflexivity.
Qed.

End Worker.

(** X6: a worker that is not the master never creates the log
    directory, copies the configuration, opens the writer or the log
    file, logs, writes a scalar or saves a checkpoint, whatever the
    configuration, the batches and the collaborators do. *)
Theorem worker_never_writes (W : world) (index : Z) (config : yaml) :
  is_master_ordinal W = false ->
  forallb (fun ev => negb (writes ev)) (events (_mp_fn W index config)) = true.
Proof. intros H. apply worker_mp_fn. exact H. Qed.

(** ** The epochs *)

Ltac inv_binds H :=
  lazymatch type of H with
  | bind _ _ = (_, Ok _) =>
      let H1 := fresh "H" in
      apply bind_Ok_inv in H; destruct H as (? & ? & ? & H1 & H & ?);
      cbv beta in H; inv_binds H
  | _ => idtac
  end.

Lemma run_epoch_iters (W : world) (S : settings) (lp : yaml) (epoch iters0 : Z)
    (bl : best) (tr : list event) (n : Z) (bl' : best) :
  run_epoch W S lp epoch iters0 bl = (tr, Ok (n, bl')) ->
  n = iters0 + Z.of_nat (List.length (filter completes (train_loader W epoch))).
Proof.
  intros H. unfold run_epoch in H. inv_binds H.
  injection H as _ <- _.
  match goal with
  | Hl : train_loop _ _ _ _ _ _ _ = (_, Ok _) |- _ =>
      apply loop_iters in Hl; cbn [iters] in Hl; exact Hl
  end.
Qed.

Lemma epoch_loop_iters (W : world) (S : settings) (lp : yaml) (todo : list Z) :
  forall iters0 bl tr n,
    epoch_loop W S lp todo iters0 bl = (tr, Ok n) ->
    n = iters0 + completed_in W todo.
Proof.
  induction todo as [|epoch rest IH]; intros iters0 bl tr n H; cbn [epoch_loop] in H.
  - injection H as _ <-. cbn. lia.
  - apply bind_Ok_inv in H. destruct H as (tr1 & [n1 bl1] & tr2 & H1 & H2 & _).
    apply run_epoch_iters in H1. apply IH in H2. cbn [fst] in H2.
    cbn [completed_in fold_right]. fold (completed_in W rest). lia.
Qed.

(** X7: over epochs that all return, the global step counter grows by
    the number of training batches on which the aligner returned, summed
    over the epochs; validation batches and skipped batches add nothing. *)
Theorem epochs_count_completed_batches (W : world) (S : settings) (lp : yaml)
    (todo : list Z) (iters0 : Z) (bl : best) (tr : list event) (n : Z) :
  epoch_loop W S lp todo iters0 bl = (tr, Ok n) ->
  n = iters0 + completed_in W todo.
Proof. apply epoch_loop_iters. Qed.

Lemma range_empty (start stop : Z) : stop <= start -> range start stop = [].
Proof.
  intros H. unfold range. replace (Z.to_nat (stop - start)) with 0%nat by lia.
  reflexivity.
Qed.

(** X8: when the checkpoint's epoch is not below [epochs], the loop of
    line 204 has nothing to run: after startup the master prints
    [Training finished.] and the run returns without a training or
    validation step. *)
Theorem resumed_past_the_end (W : world) (index : Z) (config : yaml)
    (tr : list event) (stg : settings) (lp : yaml) (start_epoch iters0 n : Z) :
  startup W index config = (tr, Ok (stg, lp, start_epoch, iters0)) ->
  as_int (epochs stg) = Ok n ->
  n <= start_epoch ->
  _mp_fn W index config =
    (tr ++ (if is_master_ordinal W then [Print "Training finished."] else []), Ok tt).
Proof.
  intros Hs Hn Hle. unfold _mp_fn.
  unfold bind, lift. rewrite Hs. cbv beta iota. rewrite Hn. cbv beta iota.
  rewrite range_empty by assumption. cbn [epoch_loop ret].
  destruct (is_master_ordinal W); cbn [when emit ret app]; rewrite ?app_nil_r; reflexivity.
Qed.

(** ** When the sampler fails *)

Lemma sample_loop_fails (ml m : Z) (lens : list Z) :
  In m lens -> int_half m - ml <= 0 ->
  sample_loop ml lens = Raise (ValueError "low >= high").
Proof.
  intros Hin Hm. induction lens as [|x rest IH]; [contradiction|].
  cbn [sample_loop]. unfold sample_example, Np.random_randint.
  destruct (Z.ltb_spec 0 (int_half x - ml)) as [Hx|Hx]; [|reflexivity].
  destruct Hin as [->|Hin]; [lia|].
  rewrite (IH Hin). reflexivity.
Qed.

Lemma int_half_minus_1_below (m x : Z) :
  0 <= m -> m <= x -> m <> 1 -> int_half_minus_1 m < int_half x.
Proof.
  intros Hm Hx H1. unfold int_half_minus_1, int_half.
  destruct (Z.eq_dec m 0) as [->|H0].
  - change (Z.quot (0 - 2) 2) with (-1). pose proof (Z.quot_pos x 2). lia.
  - rewrite !Z.quot_div_nonneg by lia.
    replace (m - 2) with (m + (-1) * 2) by lia. rewrite Z.div_add by lia.
    pose proof (Z.div_le_mono m x 2 ltac:(lia) Hx). lia.
Qed.

(** X9: on mel lengths that are not negative (and, in training, a
    [max_len] that is not negative) the sampler fails exactly on an empty
    batch and on a batch whose shortest example has one mel frame, where
    [int(1 / 2 - 1)] is 0 and [np.random.randint(0, 0)] raises. *)
Theorem sampler_fails_iff (md : mode) (max_len : Z) (lens : list Z) :
  Forall (fun m => 0 <= m) lens ->
  (md = Training -> 0 <= max_len) ->
  ((exists e, sampler md max_len lens = Raise e) <->
   (lens = [] \/ tensor_min lens = Ok 1)).
Proof.
  intros Hnn Hmax. unfold sampler, mel_len. split.
  - intros [e H]. destruct lens as [|x rest]; [left; reflexivity|right].
    destruct (tensor_min (x :: rest)) as [m|e0] eqn:Em; [|discriminate].
    destruct (Z.eq_dec m 1) as [->|H1]; [reflexivity|exfalso].
    pose proof (tensor_min_le _ _ Em) as Hle.
    pose proof (tensor_min_In _ _ Em) as Hin.
    assert (Hm : 0 <= m) by (rewrite Forall_forall in Hnn; apply Hnn; exact Hin).
    assert (Hlt : Forall (fun z => int_half_minus_1 m < int_half z) (x :: rest)).
    { rewrite Forall_forall in *. intros z Hz.
      apply int_half_minus_1_below; auto. }
    destruct md.
    + destruct (sample_loop_total (Z.min (int_half_minus_1 m) (floordiv max_len 2))
                  (x :: rest)) as [sgs E].
      { eapply Forall_impl; [|exact Hlt]. simpl. intros; lia. }
      rewrite E in H. discriminate.
    + destruct (sample_loop_total (int_half_minus_1 m) (x :: rest) Hlt) as [sgs E].
      rewrite E in H. discriminate.
  - intros [->|Em]; [eexists; reflexivity|].
    rewrite Em. pose proof (tensor_min_In _ _ Em) as Hin.
    assert (Hml : forall ml, 0 <= ml -> sample_loop ml lens = Raise (ValueError "low >= high")).
    { intros ml Hml. apply (sample_loop_fails ml 1 lens Hin).
      change (int_half 1) with 0. lia. }
    destruct md.
    + rewrite Hml; [eexists; reflexivity|].
      change (int_half_minus_1 1) with 0. unfold floordiv.
      pose proof (Z.div_pos max_len 2 (Hmax eq_refl)). lia.
    + rewrite Hml; [eexists; reflexivity|]. change (int_half_minus_1 1) with 0. lia.
Qed.

Lemma sampler_one_frame (md : mode) (max_len : Z) (lens : list Z) :
  tensor_min lens = Ok 1 -> (md = Training -> 0 <= max_len) ->
  sampler md max_len lens = Raise (ValueError "low >= high").
Proof.
  intros Em Hmax. unfold sampler, mel_len. rewrite Em.
  pose proof (tensor_min_In _ _ Em) as Hin.
  assert (Hml : forall ml, 0 <= ml -> sample_loop ml lens = Raise (ValueError "low >= high")).
  { intros ml Hml. apply (sample_loop_fails ml 1 lens Hin).
    change (int_half 1) with 0. lia. }
  destruct md.
  - rewrite Hml; [reflexivity|].
    change (int_half_minus_1 1) with 0. unfold floordiv.
    pose proof (Z.div_pos max_len 2 (Hmax eq_refl)). lia.
  - rewrite Hml; [reflexivity|]. change (int_half_minus_1 1) with 0. lia.
Qed.

(** X10: a batch whose shortest example has one mel frame ends a
    training step with the sampler's [ValueError], outside any [try] and
    before any optimizer call, while the validation loop answers the
    same batch with [xm.mark_step()] and leaves its sums alone. *)
Theorem one_frame_example (W : world) (S : settings) (lp : yaml) (epoch i : Z)
    (st : train_state) (b : batch) (bit ml : Z) (acc : val_acc) :
  aligner_raises b = None ->
  max_len S = YInt ml -> 0 <= ml ->
  tensor_min (mel_input_length b) = Ok 1 ->
  train_step W S lp epoch i st b bit =
    ([Forward "text_aligner"; Forward "text_encoder";
      Matmul (if Random.bool_ bit then Soft else Mono);
      Forward "style_encoder"; Forward "predictor"],
     Raise (ValueError "low >= high")) /\
  val_step W acc b =
    ([ZeroGrad; Forward "text_aligner"; Forward "text_encoder"; Matmul Mono;
      Forward "style_encoder"; Forward "predictor"; MarkStep],
     Ok acc).
Proof.
  intros Hb Hmax Hml Hmin.
  pose proof (sampler_one_frame Training ml _ Hmin (fun _ => Hml)) as Ht.
  pose proof (sampler_one_frame Validation 0 _ Hmin ltac:(discriminate)) as Hv.
  split.
  - unfold train_step. rewrite aligner_try, Hb.
    unfold train_body. rewrite Hmin, Hmax. cbn [as_int].
    unfold bind at 1. cbv beta iota.
    unfold bind, emit, lift, ret. cbv beta iota. rewrite Ht. reflexivity.
  - unfold val_step, val_body, aligner_block. rewrite Hb, Hv. reflexivity.
Qed.

(** ** Texts of two tokens or fewer *)

Lemma slice_short {A : Type} (L : Z) (t : list A) :
  L <= 2 -> Torch.slice 1 (L - 1) t = [].
Proof.
  intros HL. unfold Torch.slice.
  assert (H : (List.length (firstn (Z.to_nat (L - 1)) t) <= 1)%nat).
  { rewrite length_firstn. lia. }
  destruct (firstn (Z.to_nat (L - 1)) t) as [|a [|a' l]]; cbn in *; try reflexivity; lia.
Qed.

Lemma example_losses_short (W : world) (pred : list (list Q)) (ti : list Z) (L : Z) :
  L <= 2 -> exists ce, example_losses W pred ti L = Ok (Fl.nan, ce).
Proof.
  intros HL. unfold example_losses. rewrite !slice_short by assumption.
  eexists. reflexivity.
Qed.

Lemma add_nan_r (a : fl) : Fl.add a Fl.nan = Fl.nan.
Proof. destruct a; reflexivity. Qed.

Lemma loss_loop_nan (W : world) (zipped : list (list (list Q) * list Z * Z)) :
  forall acc out,
    loss_loop W acc zipped = Ok out ->
    (fst acc = Fl.nan \/
     exists pred ti L, In (pred, ti, L) zipped /\ L <= 2) ->
    fst out = Fl.nan.
Proof.
  induction zipped as [|[[pred ti] len] rest IH]; intros acc out H Hnan; cbn [loss_loop] in H.
  - injection H as <-. destruct Hnan as [Hnan|(? & ? & ? & [] & _)]. exact Hnan.
  - destruct (example_losses W pred ti len) as [[dur ce]|e] eqn:E; [|discriminate].
    apply IH in H; [exact H|]. cbn [fst].
    destruct Hnan as [Hnan|(p & t & L & [Heq|Hin] & HL)].
    + left. rewrite Hnan. reflexivity.
    + injection Heq as -> -> ->.
      destruct (example_losses_short W p t L HL) as [ce' E'].
      rewrite E' in E. injection E as <- _. left. apply add_nan_r.
    + right. exists p, t, L. auto.
Qed.

Lemma duration_losses_nan (W : world) (b : batch) (out : fl * fl)
    (pred : list (list Q)) (ti : list Z) (L : Z) :
  In (pred, ti, L) (combine (combine (d b) (d_gt b)) (input_lengths b)) ->
  L <= 2 ->
  duration_losses W b = Ok out -> fst out = Fl.nan.
Proof.
  intros Hin HL H. unfold duration_losses in H.
  destruct (loss_loop W _ _) as [[dur ce]|e] eqn:E; [|discriminate].
  apply loss_loop_nan in E; [|right; exists pred, ti, L; auto].
  cbn [fst] in E. subst dur. injection H as <-. reflexivity.
Qed.

Lemma g_nan (m1 m2 m3 m4 l5 m6 m7 m8 : fl) :
  Fl.isnan (Fl.add (Fl.add (Fl.add (Fl.add (Fl.add (Fl.add (Fl.add m1 m2) m3) m4)
                                       (Fl.mul l5 Fl.nan)) m6) m7) m8) = true.
Proof.
  replace (Fl.mul l5 Fl.nan) with Fl.nan by (destruct l5; reflexivity).
  rewrite add_nan_r. reflexivity.
Qed.

(** X11: a training batch that holds an example of two tokens or fewer
    never completes its step: the duration term of that example is the
    mean of an empty slice, NaN, so when the step gets as far as the
    generator loss that loss is NaN and line 340 raises. *)
Theorem short_text_aborts (W : world) (S : settings) (lp : yaml) (epoch i : Z)
    (st : train_state) (b : batch) (bit : Z) (pred : list (list Q)) (ti : list Z)
    (L : Z) (tr : list event) (r : result step_result) :
  In (pred, ti, L) (combine (combine (d b) (d_gt b)) (input_lengths b)) ->
  0 <= L <= 2 ->
  train_step W S lp epoch i st b bit = (tr, r) ->
  (forall st', r <> Ok (Completed st')) /\
  (forall g, In (Backward Generator g) tr ->
     g = Fl.nan /\ r = Raise (RuntimeError "NaN loss detected")).
Proof.
  intros Hin [_ HL]. revert tr r. by_running. open_step.
  destruct (aligner_raises b) as [e|]; [destruct (is_Exception e)|].
  - xrun. split; [discriminate|]. intros g Hg. split_In Hg.
  - xrun. split; [discriminate|]. intros g Hg. split_In Hg.
  - xrun.
    all: try match goal with
         | E : duration_losses _ _ = Ok ?a |- _ =>
             pose proof (duration_losses_nan W b a pred ti L Hin HL E) as Hnan;
             destruct a as [dur ce]; cbn [fst snd] in *; subst dur
         end.
    all: try match goal with
         | E : Fl.isnan _ = false |- _ => rewrite g_nan in E; discriminate E
         end.
    all: split; [discriminate|]; intros g Hg; cbn [app In] in Hg; split_In Hg.
    all: injection Hg as <-; split; [|reflexivity].
    all: replace (Fl.mul _ Fl.nan) with Fl.nan
           by (match goal with |- _ = Fl.mul ?l _ => destruct l; reflexivity end);
         rewrite add_nan_r; reflexivity.
Qed.

Lemma val_step_result (W : world) (acc : val_acc) (b : batch) (acc' : val_acc) :
  outcome (val_step W acc b) = Ok acc' ->
  acc' = acc \/
  exists out, duration_losses W b = Ok out /\
              iters_test acc' = iters_test acc + 1 /\
              loss_align acc' = Fl.add (loss_align acc) (fst out).
Proof.
  change (post (val_step W acc b) (fun _ r =>
    r = Ok acc' ->
    acc' = acc \/
    exists out, duration_losses W b = Ok out /\
                iters_test acc' = iters_test acc + 1 /\
                loss_align acc' = Fl.add (loss_align acc) (fst out))).
  open_val. xrun; intros H; try discriminate H.
  all: apply (f_equal (fun r => match r with Ok a => a | Raise _ => acc end)) in H.
  all: cbv beta iota in H; subst acc'; try (left; reflexivity).
  all: right; eexists; split; [reflexivity|]; split; reflexivity.
Qed.

Lemma val_step_count_le (W : world) (acc : val_acc) (b : batch) (acc' : val_acc) :
  outcome (val_step W acc b) = Ok acc' ->
  iters_test acc' <= iters_test acc + 1.
Proof.
  intros H. apply val_step_result in H.
  destruct H as [->|(out & _ & H & _)]; lia.
Qed.

Lemma val_loop_count_le (W : world) (batches : list batch) :
  forall acc tr acc',
    val_loop W acc batches = (tr, Ok acc') ->
    iters_test acc' <= iters_test acc + Z.of_nat (List.length batches).
Proof.
  induction batches as [|b rest IH]; intros acc tr acc' H; cbn [val_loop] in H.
  - injection H as _ <-. cbn. lia.
  - apply bind_Ok_inv in H. destruct H as (tr1 & acc1 & tr2 & H1 & H2 & _).
    apply IH in H2. apply (f_equal snd) in H1. apply val_step_count_le in H1.
    cbn [List.length]. lia.
Qed.

Lemma val_loop_nan_sticks (W : world) (batches : list batch) :
  forall acc tr acc',
    val_loop W acc batches = (tr, Ok acc') ->
    loss_align acc = Fl.nan -> loss_align acc' = Fl.nan.
Proof.
  induction batches as [|b rest IH]; intros acc tr acc' H Hnan; cbn [val_loop] in H.
  - injection H as _ <-. exact Hnan.
  - apply bind_Ok_inv in H. destruct H as (tr1 & acc1 & tr2 & H1 & H2 & _).
    apply (IH _ _ _ H2). apply (f_equal snd) in H1. apply val_step_result in H1.
    destruct H1 as [->|(out & _ & _ & ->)]; [exact Hnan|].
    rewrite Hnan. reflexivity.
Qed.

Lemma fold_add_nan (xs : list fl) :
  fold_left Fl.add xs Fl.nan = Fl.nan.
Proof. induction xs as [|x xs IH]; [reflexivity|exact IH]. Qed.

Lemma reduce_fn_nan (xs : list fl) : In Fl.nan xs -> reduce_fn xs = Fl.nan.
Proof.
  intros Hin. unfold reduce_fn.
  assert (H : forall a, fold_left Fl.add xs a = Fl.nan).
  { induction xs as [|x xs IH]; [contradiction|]. intros a. cbn [fold_left].
    destruct Hin as [->|Hin]; [rewrite add_nan_r; apply fold_add_nan|apply IH, Hin]. }
  rewrite H. reflexivity.
Qed.

(** X12: in the validation loop the same NaN is not an error: when every
    batch of the pass was counted and one of them holds an example of
    two tokens or fewer, the accumulated duration loss is NaN, and so is
    the [eval/dur_loss] the master writes. *)
Theorem short_text_poisons_validation (W : world) (S : settings)
    (epoch iters_now : Z) (bl : best) (acc0 acc : val_acc) (batches : list batch)
    (tr : list event) (b : batch) (pred : list (list Q)) (ti : list Z) (L : Z) :
  val_loop W acc0 batches = (tr, Ok acc) ->
  iters_test acc = iters_test acc0 + Z.of_nat (List.length batches) ->
  In b batches ->
  In (pred, ti, L) (combine (combine (d b) (d_gt b)) (input_lengths b)) ->
  0 <= L <= 2 ->
  is_master_ordinal W = true ->
  loss_align acc = Fl.nan /\
  reported "eval/dur_loss" (events (report W S epoch iters_now bl acc)) = Some Fl.nan.
Proof.
  intros Hloop Hcount Hb Hin [_ HL] Hmaster.
  assert (Hnan : loss_align acc = Fl.nan).
  { clear Hmaster. revert acc0 tr Hloop Hcount.
    induction batches as [|b0 rest IH]; intros acc0 tr Hloop Hcount; [contradiction|].
    cbn [val_loop] in Hloop. apply bind_Ok_inv in Hloop.
    destruct Hloop as (tr1 & acc1 & tr2 & H1 & H2 & _).
    pose proof (val_loop_count_le _ _ _ _ _ H2) as Hle.
    apply (f_equal snd) in H1. cbn [snd] in H1.
    pose proof (val_step_count_le _ _ _ _ H1) as Hle1.
    cbn [List.length] in Hcount.
    destruct Hb as [->|Hb].
    - apply (val_loop_nan_sticks _ _ _ _ _ H2).
      apply val_step_result in H1. destruct H1 as [->|(out & Hout & _ & ->)]; [lia|].
      rewrite (duration_losses_nan W b out pred ti L Hin HL Hout). apply add_nan_r.
    - apply (IH Hb acc1 tr2 H2). lia. }
  split; [exact Hnan|].
  pose proof (report_values W S epoch iters_now bl acc) as Hrep.
  cbv zeta in Hrep. rewrite Hmaster in Hrep. destruct Hrep as (_ & Hd & _).
  rewrite Hd, Hnan, reduce_fn_nan; [reflexivity|].
  unfold all_gather. apply in_or_app. right. left. reflexivity.
Qed.

(** ** The interim checkpoint, lines 370-380 *)

Lemma interim_saves_app (tr1 tr2 : list event) :
  interim_saves (tr1 ++ tr2) = interim_saves tr1 ++ interim_saves tr2.
Proof. apply flat_map_app. Qed.

Lemma range_cons (a c : Z) : a < c -> range a c = a :: range (a + 1) c.
Proof.
  intros H. unfold range.
  replace (Z.to_nat (c - a)) with (Datatypes.S (Z.to_nat (c - (a + 1)))) by lia.
  cbn [seq map]. rewrite Z.add_0_r. f_equal.
  rewrite <- seq_shift, map_map. apply map_ext. intros k. lia.
Qed.

Lemma thousands_same (a : Z) : thousands a a = [].
Proof. unfold thousands. rewrite range_empty by lia. reflexivity. Qed.

Lemma thousands_next (a c : Z) :
  a < c ->
  thousands a c = (if (a + 1) mod 1000 =? 0 then [a + 1] else []) ++ thousands (a + 1) c.
Proof.
  intros H. unfold thousands. rewrite range_cons by lia. cbn [filter].
  destruct ((a + 1) mod 1000 =? 0); reflexivity.
Qed.

Lemma thousands_app_nat (k : nat) :
  forall a c, a + Z.of_nat k <= c ->
    thousands a c = thousands a (a + Z.of_nat k) ++ thousands (a + Z.of_nat k) c.
Proof.
  induction k as [|k IH]; intros a c Hc.
  - rewrite Z.add_0_r, thousands_same. reflexivity.
  - rewrite (thousands_next a c) by lia.
    rewrite (thousands_next a (a + Z.of_nat (Datatypes.S k))) by lia.
    replace (a + Z.of_nat (Datatypes.S k)) with (a + 1 + Z.of_nat k) in * by lia.
    rewrite <- app_assoc. f_equal. apply IH. exact Hc.
Qed.

Lemma thousands_app (a b c : Z) :
  a <= b -> b <= c -> thousands a c = thousands a b ++ thousands b c.
Proof.
  intros Hab Hbc.
  replace b with (a + Z.of_nat (Z.to_nat (b - a))) by lia.
  apply thousands_app_nat. lia.
Qed.

Lemma step_saves (W : world) (S : settings) (lp : yaml) (epoch i : Z)
    (st : train_state) (b : batch) (bit : Z) (tr : list event) (x : step_result) :
  train_step W S lp epoch i st b bit = (tr, Ok x) ->
  interim_saves tr =
    match x with
    | Skipped => []
    | Completed st' =>
        if ((iters st + 1) mod 1000 =? 0) && is_master_ordinal W
        then [iters st + 1] else []
    end.
Proof.
  revert tr x.
  assert (H : post (train_step W S lp epoch i st b bit) (fun tr r =>
    forall x, r = Ok x ->
    interim_saves tr =
      match x with
      | Skipped => []
      | Completed st' =>
          if ((iters st + 1) mod 1000 =? 0) && is_master_ordinal W
          then [iters st + 1] else []
      end)).
  { open_step. unfold log_step, g_loss, discriminator_update, generator_steps.
    xrun; intros x Hx; try discriminate Hx.
    all: apply (f_equal (fun r => match r with Ok a => a | Raise _ => Skipped end)) in Hx.
    all: cbv beta iota in Hx; subst x; cbv beta iota.
    all: repeat match goal with
         | E : _ = true |- _ => rewrite E
         | E : _ = false |- _ => rewrite E
         end.
    all: try reflexivity. }
  intros tr x E. unfold post in H. rewrite E in H. exact (H x eq_refl).
Qed.

Lemma loop_saves (W : world) (S : settings) (lp : yaml) (epoch : Z)
    (batches : list batch) :
  forall i st tr st',
    train_loop W S lp epoch i st batches = (tr, Ok st') ->
    interim_saves tr =
      if is_master_ordinal W then thousands (iters st) (iters st') else [].
Proof.
  induction batches as [|b rest IH]; intros i st tr st' H.
  - injection H as <- <-. rewrite thousands_same. destruct (is_master_ordinal W); reflexivity.
  - cbn [train_loop] in H. apply bind_Ok_inv in H.
    destruct H as (tr1 & x & tr2 & Hstep & Hrest & ->).
    pose proof (step_iters _ _ _ _ _ _ _ _ _ _ Hstep x eq_refl) as Hx.
    pose proof (loop_iters _ _ _ _ _ _ _ _ _ Hrest) as Hle.
    rewrite interim_saves_app, (step_saves _ _ _ _ _ _ _ _ _ _ Hstep), (IH _ _ _ _ Hrest).
    destruct x as [|st1]; [reflexivity|]. destruct Hx as [_ Hx].
    destruct (is_master_ordinal W); [|rewrite andb_false_r; reflexivity].
    rewrite andb_true_r, (thousands_next (iters st) (iters st')) by lia.
    rewrite Hx. reflexivity.
Qed.

Lemma no_interim_saves (tr : list event) :
  forallb (fun ev => match ev with
                     | Call (xm_save current_model _ _) => false
                     | _ => true
                     end) tr = true ->
  interim_saves tr = [].
Proof.
  induction tr as [|ev tr IH]; [reflexivity|].
  cbn [forallb]. intros H. apply andb_true_iff in H. destruct H as [Hev H].
  cbn [interim_saves flat_map]. fold (interim_saves tr). rewrite (IH H).
  destruct ev as [?|c|?|?| | |?|?| |? ?|?| |? ? ?|? ? ?|? ? ?|? ?]; try reflexivity.
  destruct c; try reflexivity.
  match goal with
  | |- context [match ?f with current_model => _ | epoch_file _ => _ end] =>
      destruct f; [discriminate Hev|reflexivity]
  end.
Qed.

Lemma val_step_saves_nothing (W : world) (acc : val_acc) (b : batch) :
  forallb (fun ev => match ev with
                     | Call (xm_save current_model _ _) => false
                     | _ => true
                     end) (events (val_step W acc b)) = true.
Proof.
  change (post (val_step W acc b)
            (fun tr _ => forallb (fun ev => match ev with
                     | Call (xm_save current_model _ _) => false
                     | _ => true
                     end) tr = true)).
  open_val. xrun; reflexivity.
Qed.

Lemma val_loop_saves_nothing (W : world) (batches : list batch) (acc : val_acc) :
  interim_saves (events (val_loop W acc batches)) = [].
Proof.
  apply no_interim_saves.
  revert acc. induction batches as [|b rest IH]; intros acc; [reflexivity|].
  cbn [val_loop]. apply all_events_bind; [apply val_step_saves_nothing|].
  intros acc'. apply IH.
Qed.

Lemma report_saves_nothing (W : world) (S : settings) (epoch iters_now : Z)
    (bl : best) (acc : val_acc) :
  interim_saves (events (report W S epoch iters_now bl acc)) = [].
Proof.
  change (post (report W S epoch iters_now bl acc)
            (fun tr _ => interim_saves tr = [])).
  unfold report, mesh_reduce. xrun; reflexivity.
Qed.

Lemma run_epoch_saves (W : world) (S : settings) (lp : yaml) (epoch iters0 : Z)
    (bl : best) (tr : list event) (n : Z) (bl' : best) :
  run_epoch W S lp epoch iters0 bl = (tr, Ok (n, bl')) ->
  interim_saves tr = if is_master_ordinal W then thousands iters0 n else [].
Proof.
  intros H. unfold run_epoch in H. inv_binds H.
  injection H as Hnil Hn _. subst.
  repeat rewrite interim_saves_app.
  repeat match goal with
  | Hl : train_loop _ _ _ _ _ _ _ = (_, Ok _) |- _ =>
      apply loop_saves in Hl; cbn [iters] in Hl; rewrite Hl; clear Hl
  | Hv : val_loop ?W ?a ?bs = (?t, _) |- _ =>
      replace t with (events (val_loop W a bs)) by (rewrite Hv; reflexivity);
      rewrite val_loop_saves_nothing; clear Hv
  | Hr : report ?W ?S ?e ?i ?b ?a = (?t, _) |- _ =>
      replace t with (events (report W S e i b a)) by (rewrite Hr; reflexivity);
      rewrite report_saves_nothing; clear Hr
  | He : emit _ = (_, _) |- _ => injection He as <- _
  | He : when _ _ = (_, _) |- _ =>
      unfold when in He; destruct (is_master_ordinal W); injection He as <- _
  end.
  all: cbn [interim_saves flat_map app]; rewrite ?app_nil_r; reflexivity.
Qed.

(** X13: over epochs that all return, the master saves
    [current_model.pth] exactly once for every multiple of 1000 that the
    step counter reaches, in ascending order and with that count stored
    in the checkpoint; another worker never saves it. *)
Theorem interim_checkpoints (W : world) (S : settings) (lp : yaml) (todo : list Z) :
  forall iters0 bl tr n,
    epoch_loop W S lp todo iters0 bl = (tr, Ok n) ->
    interim_saves tr = if is_master_ordinal W then thousands iters0 n else [].
Proof.
  induction todo as [|epoch rest IH]; intros iters0 bl tr n H; cbn [epoch_loop] in H.
  - injection H as <- <-. rewrite thousands_same.
    destruct (is_master_ordinal W); reflexivity.
  - apply bind_Ok_inv in H. destruct H as (tr1 & [n1 bl1] & tr2 & H1 & H2 & ->).
    pose proof (run_epoch_iters _ _ _ _ _ _ _ _ _ H1) as Hn1.
    pose proof (epoch_loop_iters _ _ _ _ _ _ _ _ H2) as Hn.
    cbn [fst] in Hn.
    assert (0 <= completed_in W rest).
    { clear. induction rest as [|e r IHr]; cbn [completed_in fold_right]; [lia|].
      fold (completed_in W r). lia. }
    rewrite interim_saves_app, (run_epoch_saves _ _ _ _ _ _ _ _ _ H1), (IH _ _ _ _ H2).
    cbn [fst]. destruct (is_master_ordinal W); [|reflexivity].
    symmetry. apply thousands_app; lia.
Qed.

(** ** [best_loss], lines 479-481 *)

Lemma bind_ret_l {A B : Type} (a : A) (k : A -> M B) : bind (ret a) k = k a.
Proof. unfold bind, ret. destruct (k a). reflexivity. Qed.

Lemma report_forgets_best (W : world) (S : settings) (epoch iters_now : Z)
    (acc : val_acc) (bl bl' : best) :
  bind (report W S epoch iters_now bl acc) (fun _ => ret tt) =
  bind (report W S epoch iters_now bl' acc) (fun _ => ret tt).
Proof.
  unfold report, mesh_reduce, call, when, bind, lift, emit, ret, raise.
  destruct (is_master_ordinal W); [|reflexivity].
  destruct (as_int (save_freq S)) as [sf|e]; [|reflexivity].
  destruct (sf =? 0); [reflexivity|].
  destruct ((epoch + 1) mod sf =? 0); [|reflexivity].
  destruct (raises W _); reflexivity.
Qed.

Lemma run_epoch_forgets_best (W : world) (S : settings) (lp : yaml)
    (epoch iters0 : Z) (bl bl' : best) :
  bind (run_epoch W S lp epoch iters0 bl) (fun r => ret (fst r)) =
  bind (run_epoch W S lp epoch iters0 bl') (fun r => ret (fst r)).
Proof.
  unfold run_epoch. rewrite ?bind_assoc.
  apply bind_ext. intros _. rewrite ?bind_assoc. apply bind_ext. intros st.
  rewrite ?bind_assoc. apply bind_ext. intros _.
  rewrite ?bind_assoc. apply bind_ext. intros _.
  rewrite ?bind_assoc. apply bind_ext. intros acc.
  rewrite ?bind_assoc.
  transitivity (bind (bind (report W S epoch (iters st) bl acc) (fun _ => ret tt))
                     (fun _ => ret (iters st))).
  - rewrite bind_assoc. apply bind_ext. intros b. rewrite !bind_ret_l. reflexivity.
  - rewrite (report_forgets_best W S epoch (iters st) acc bl bl').
    rewrite bind_assoc. apply bind_ext. intros b. rewrite !bind_ret_l. reflexivity.
Qed.

(** X14: [best_loss] is kept but never consulted: started from any two
    values, the epochs write the same checkpoints, log the same values
    and end the same way.  Whether a validation loss improved on the best
    one decides nothing. *)
Theorem best_loss_decides_nothing (W : world) (S : settings) (lp : yaml)
    (todo : list Z) :
  forall iters0 bl bl',
    epoch_loop W S lp todo iters0 bl = epoch_loop W S lp todo iters0 bl'.
Proof.
  induction todo as [|epoch rest IH]; intros iters0 bl bl'; [reflexivity|].
  cbn [epoch_loop].
  transitivity (bind (bind (run_epoch W S lp epoch iters0 bl) (fun r => ret (fst r)))
                     (fun n => epoch_loop W S lp rest n Inf)).
  - rewrite bind_assoc. apply bind_ext. intros r. rewrite bind_ret_l. apply IH.
  - rewrite (run_epoch_forgets_best W S lp epoch iters0 bl bl').
    rewrite bind_assoc. apply bind_ext. intros r. rewrite bind_ret_l. apply IH.
Qed.

(** ** The epoch checkpoint, lines 478-491 *)

Lemma epoch_saves_app (tr1 tr2 : list event) :
  epoch_saves (tr1 ++ tr2) = epoch_saves tr1 ++ epoch_saves tr2.
Proof. apply flat_map_app. Qed.

Lemma reported_app (tag : string) (tr1 tr2 : list event) :
  reported tag (tr1 ++ tr2) =
  match reported tag tr1 with
  | Some v => Some v
  | None => reported tag tr2
  end.
Proof.
  induction tr1 as [|ev tr1 IH]; [reflexivity|].
  cbn [app reported]. destruct ev; try exact IH.
  destruct (String.eqb _ _); [reflexivity|exact IH].
Qed.

Lemma within_epoch_silent (tr : list event) :
  forallb within_epoch tr = true ->
  epoch_saves tr = [] /\ reported "eval/mel_loss" tr = None.
Proof.
  induction tr as [|ev tr IH]; [split; reflexivity|].
  cbn [forallb]. intros H. apply andb_true_iff in H. destruct H as [Hev H].
  destruct (IH H) as [IH1 IH2].
  cbn [epoch_saves flat_map reported]. fold (epoch_saves tr). rewrite IH1.
  destruct ev as [?|c|?|?| | |?|?| |? ?|?| |? ? ?|? ? ?|t ? ?|? ?];
    try (split; [reflexivity|exact IH2]).
  - split; [|exact IH2]. destruct c; try reflexivity.
    match goal with
    | |- context [match ?f with current_model => _ | epoch_file _ => _ end] =>
        destruct f; [reflexivity|discriminate Hev]
    end.
  - split; [reflexivity|]. cbn [within_epoch] in Hev.
    destruct (String.eqb t "eval/mel_loss"); [discriminate Hev|exact IH2].
Qed.

Lemma train_step_within_epoch (W : world) (S : settings) (lp : yaml) (epoch i : Z)
    (st : train_state) (b : batch) (bit : Z) :
  forallb within_epoch (events (train_step W S lp epoch i st b bit)) = true.
Proof.
  change (post (train_step W S lp epoch i st b bit)
            (fun tr _ => forallb within_epoch tr = true)).
  open_step. unfold log_step, g_loss, discriminator_update, generator_steps.
  xrun; reflexivity.
Qed.

Lemma train_loop_within_epoch (W : world) (S : settings) (lp : yaml) (epoch : Z)
    (batches : list batch) :
  forall i st, forallb within_epoch (events (train_loop W S lp epoch i st batches)) = true.
Proof.
  induction batches as [|b rest IH]; intros i st; [reflexivity|].
  cbn [train_loop]. apply all_events_bind; [apply train_step_within_epoch|].
  intros r. apply IH.
Qed.

Lemma val_step_within_epoch (W : world) (acc : val_acc) (b : batch) :
  forallb within_epoch (events (val_step W acc b)) = true.
Proof.
  change (post (val_step W acc b) (fun tr _ => forallb within_epoch tr = true)).
  open_val. xrun; reflexivity.
Qed.

Lemma val_loop_within_epoch (W : world) (batches : list batch) :
  forall acc, forallb within_epoch (events (val_loop W acc batches)) = true.
Proof.
  induction batches as [|b rest IH]; intros acc; [reflexivity|].
  cbn [val_loop]. apply all_events_bind; [apply val_step_within_epoch|].
  intros acc'. apply IH.
Qed.

Lemma report_saves (W : world) (S : settings) (epoch iters_now sf : Z)
    (bl bl' : best) (acc : val_acc) (tr : list event) :
  report W S epoch iters_now bl acc = (tr, Ok bl') ->
  as_int (save_freq S) = Ok sf ->
  epoch_saves tr =
    match reported "eval/mel_loss" tr with
    | Some v => if (epoch + 1) mod sf =? 0 then [(epoch, iters_now, v)] else []
    | None => []
    end /\
  (reported "eval/mel_loss" tr = None <-> is_master_ordinal W = false).
Proof.
  intros H Hsf.
  assert (P : post (report W S epoch iters_now bl acc) (fun tr r =>
    forall x, r = Ok x ->
    epoch_saves tr =
      match reported "eval/mel_loss" tr with
      | Some v => if (epoch + 1) mod sf =? 0 then [(epoch, iters_now, v)] else []
      | None => []
      end /\
    (reported "eval/mel_loss" tr = None <-> is_master_ordinal W = false))).
  { unfold report, mesh_reduce. rewrite Hsf.
    destruct (is_master_ordinal W) eqn:Hm.
    - xrun; intros x Hx; try discriminate Hx; cbn [app epoch_saves flat_map reported String.eqb Ascii.eqb Bool.eqb].
      all: repeat match goal with
           | E : _ = true |- _ => rewrite E
           | E : _ = false |- _ => rewrite E
           end.
      all: split; [reflexivity|split; discriminate].
    - xrun. intros x _. split; [reflexivity|split; reflexivity]. }
  unfold post in P. rewrite H in P. exact (P bl' eq_refl).
Qed.

(** X15: an epoch that returns leaves at most one epoch checkpoint: the
    master saves [epoch_<epoch>.pth] when [epoch + 1] is a multiple of
    [save_freq], storing the step count the epoch ended on and the
    validation loss it wrote as [eval/mel_loss]; another worker, which
    writes no such scalar, saves none. *)
Theorem epoch_checkpoint (W : world) (S : settings) (lp : yaml)
    (epoch iters0 sf : Z) (bl : best) (tr : list event) (n : Z) (bl' : best) :
  run_epoch W S lp epoch iters0 bl = (tr, Ok (n, bl')) ->
  as_int (save_freq S) = Ok sf ->
  epoch_saves tr =
    match reported "eval/mel_loss" tr with
    | Some v => if (epoch + 1) mod sf =? 0 then [(epoch, n, v)] else []
    | None => []
    end /\
  (reported "eval/mel_loss" tr = None <-> is_master_ordinal W = false).
Proof.
  intros H Hsf. unfold run_epoch in H. inv_binds H.
  injection H as Hnil Hn _. subst.
  repeat match goal with
  | He : emit _ = (_, _) |- _ => injection He as <- _
  | He : when _ _ = (_, _) |- _ =>
      unfold when in He; destruct (is_master_ordinal W) eqn:Hm; injection He as <- _
  end.
  all: repeat match goal with
  | Hl : train_loop ?W ?S ?lp ?e ?i ?st ?bs = (?t, _) |- _ =>
      let P := fresh "P" in
      pose proof (within_epoch_silent _ (train_loop_within_epoch W S lp e bs i st)) as P;
      rewrite Hl in P; cbn [events fst] in P; destruct P as [? ?]; clear Hl
  | Hv : val_loop ?W ?a ?bs = (?t, _) |- _ =>
      let P := fresh "P" in
      pose proof (within_epoch_silent _ (val_loop_within_epoch W bs a)) as P;
      rewrite Hv in P; cbn [events fst] in P; destruct P as [? ?]; clear Hv
  | Hr : report _ _ _ _ _ _ = (_, Ok _) |- _ =>
      apply (fun Hr => report_saves _ _ _ _ _ _ _ _ _ Hr Hsf) in Hr; destruct Hr as [? ?]
  end.
  all: rewrite ?app_nil_r, ?epoch_saves_app, ?reported_app.
  all: cbn [epoch_saves flat_map reported app].
  all: repeat match goal with
       | E : epoch_saves _ = [] |- _ => rewrite E; clear E
       | E : reported _ _ = None |- _ => rewrite E; clear E
       end.
  all: cbn [app]; rewrite Hm in *; split; assumption.
Qed.

(** ** Loading the checkpoint, lines 177-189 *)

Lemma in_events_bind {A B : Type} (ev : event) (c : M A) (k : A -> M B) :
  In ev (events (bind c k)) ->
  In ev (events c) \/ exists a, outcome c = Ok a /\ In ev (events (k a)).
Proof.
  unfold bind, events, outcome. destruct c as [tr [a|e]]; cbn [fst snd]; [|auto].
  destruct (k a) as [tr' r] eqn:E. cbn [fst]. intros H.
  apply in_app_or in H. destruct H as [H|H]; [auto|].
  right. exists a. rewrite E. auto.
Qed.

Lemma not_in_events (P : event -> bool) (ev : event) (tr : list event) :
  forallb (fun x => negb (P x)) tr = true -> P ev = true -> ~ In ev tr.
Proof.
  intros H Hev Hin. rewrite forallb_forall in H. specialize (H ev Hin).
  rewrite Hev in H. discriminate H.
Qed.

Lemma read_settings_loads_nothing (W : world) (index : Z) (config : yaml) :
  forallb (fun ev => negb (is_load_checkpoint ev))
          (events (read_settings W index config)) = true.
Proof.
  change (post (read_settings W index config)
            (fun tr _ => forallb (fun ev => negb (is_load_checkpoint ev)) tr = true)).
  unfold read_settings. xrun; reflexivity.
Qed.

Lemma vocabulary_loads_nothing (W : world) (config : yaml) :
  forallb (fun ev => negb (is_load_checkpoint ev)) (events (vocabulary W config)) = true.
Proof.
  change (post (vocabulary W config)
            (fun tr _ => forallb (fun ev => negb (is_load_checkpoint ev)) tr = true)).
  unfold vocabulary, symbol_list. xrun; reflexivity.
Qed.

Lemma build_loads_nothing (W : world) (config : yaml) (n : Z) :
  post (build W config n) (fun tr r =>
    forallb (fun ev => negb (is_load_checkpoint ev)) tr = true /\
    forall lp flag, r = Ok (lp, flag) ->
      flag = true ->
      exists v, getitem config "pretrained_model" = Ok v /\ ne_empty_str v = true).
Proof.
  unfold build. xrun; (split; [reflexivity|]); intros lp flag H; try discriminate H.
  all: injection H as _ <-; intros Hne.
  all: match goal with
  | E : Py.get ?c "pretrained_model" _ = Ok ?v |- _ =>
      exists v; split; [|exact Hne];
      unfold Py.get in E; unfold getitem;
      destruct c as [|?|?|?|?|?|m]; try discriminate E;
      destruct (assoc "pretrained_model" m);
      [exact E|injection E as <-; discriminate Hne]
  end.
Qed.

Lemma load_strategies (W : world) (config : yaml) (flag : bool)
    (path lop ig fr : yaml) :
  In (Call (load_checkpoint path lop ig fr))
     (events (load_pretrained_model W config flag)) ->
  flag = true /\
  getitem config "pretrained_model" = Ok path /\
  match getitem config "training_strats" with
  | Ok ts => getitem ts "ignore_modules" = Ok ig /\ getitem ts "freeze_modules" = Ok fr
  | Raise _ => ig = YStr EmptyString /\ fr = YStr EmptyString
  end.
Proof.
  change (post (load_pretrained_model W config flag) (fun tr _ =>
    In (Call (load_checkpoint path lop ig fr)) tr ->
    flag = true /\
    getitem config "pretrained_model" = Ok path /\
    match getitem config "training_strats" with
    | Ok ts => getitem ts "ignore_modules" = Ok ig /\ getitem ts "freeze_modules" = Ok fr
    | Raise _ => ig = YStr EmptyString /\ fr = YStr EmptyString
    end)).
  unfold load_pretrained_model.
  destruct flag; [|xrun; intros H; cbn [In app] in H; tauto].
  destruct (getitem config "training_strats") as [ts|e] eqn:Ets.
  - xrun; intros H; cbn [In app] in H; split_In H;
      try discriminate H; try contradiction.
    all: injection H as <- <- <- <-; auto.
  - rewrite (getitem_Exception _ _ _ Ets) || idtac.
    xrun; intros H; cbn [In app] in H; split_In H;
      try discriminate H; try contradiction.
    all: try (pose proof (getitem_Exception _ _ _ Ets); congruence).
    all: injection H as <- <- <- <-.
    all: repeat match goal with
         | E : getitem default_training_strats _ = Ok _ |- _ =>
             cbv in E; injection E as <-
         end.
    all: auto.
Qed.

(** X16: when startup calls [load_checkpoint], the configuration names a
    non-empty [pretrained_model], which is the path passed, and the two
    strategies come from one place: both from [training_strats] when the
    configuration has it, both the empty string when it has not.  A
    [training_strats] that lacks one of the two keys is never completed
    from the defaults. *)
Theorem checkpoint_strategies (W : world) (index : Z) (config : yaml)
    (path lop ig fr : yaml) :
  In (Call (load_checkpoint path lop ig fr)) (events (startup W index config)) ->
  getitem config "pretrained_model" = Ok path /\
  ne_empty_str path = true /\
  match getitem config "training_strats" with
  | Ok ts => getitem ts "ignore_modules" = Ok ig /\ getitem ts "freeze_modules" = Ok fr
  | Raise _ => ig = YStr EmptyString /\ fr = YStr EmptyString
  end.
Proof.
  intros H. unfold startup in H.
  apply in_events_bind in H. destruct H as [H|(st & _ & H)].
  { exfalso. revert H. apply (not_in_events is_load_checkpoint);
      [apply read_settings_loads_nothing|reflexivity]. }
  apply in_events_bind in H. destruct H as [H|(n & _ & H)].
  { exfalso. revert H. apply (not_in_events is_load_checkpoint);
      [apply vocabulary_loads_nothing|reflexivity]. }
  pose proof (build_loads_nothing W config n) as [Hb Hflag].
  apply in_events_bind in H. destruct H as [H|([lp flag] & Hlp & H)].
  { exfalso. revert H. apply (not_in_events is_load_checkpoint);
      [exact Hb|reflexivity]. }
  apply in_events_bind in H. destruct H as [H|(se & _ & H)]; [|destruct H].
  cbn [snd] in H. apply load_strategies in H. destruct H as (Hf & Hp & Hs).
  destruct (Hflag lp flag Hlp Hf) as (v & Hv & Hne).
  rewrite Hp in Hv. injection Hv as <-. auto.
Qed.

(** ** [main] and the seeds, lines 46-48 and 496-500 *)

Lemma hd_bind {A B : Type} (ev : event) (c : M A) (k : A -> M B) :
  hd_error (events c) = Some ev -> hd_error (events (bind c k)) = Some ev.
Proof.
  unfold bind, events. destruct c as [[|ev' tr] [a|e]]; cbn [fst hd_error]; try discriminate.
  - destruct (k a). cbn [fst app hd_error]. auto.
  - auto.
Qed.

Lemma mp_fn_first (W : world) (index : Z) (config : yaml) :
  hd_error (events (_mp_fn W index config)) = Some (Seed (1234 + index)).
Proof.
  unfold _mp_fn, startup, read_settings. repeat apply hd_bind. reflexivity.
Qed.

Lemma fst_combine_seq {A : Type} (l : list A) :
  forall s, map fst (combine (seq s (List.length l)) l) = seq s (List.length l).
Proof.
  induction l as [|x l IH]; intros s; [reflexivity|].
  cbn [List.length seq combine map fst]. rewrite IH. reflexivity.
Qed.

(** X17: [main] starts one run of [_mp_fn] per core, and the first thing
    each run does, before it reads the configuration, is to seed its
    generators with 1234 plus its index: the runs' seeds are
    1234, 1235, ... in the order of the cores, no two of them equal. *)
Theorem one_seed_per_core (cores : list world) (config : yaml) :
  map (fun c => hd_error (events c)) (main cores config) =
    map (fun i => Some (Seed (1234 + Z.of_nat i))) (seq 0 (List.length cores)) /\
  NoDup (map (fun c => hd_error (events c)) (main cores config)).
Proof.
  assert (H : map (fun c => hd_error (events c)) (main cores config) =
    map (fun i => Some (Seed (1234 + Z.of_nat i))) (seq 0 (List.length cores))).
  { unfold main. rewrite map_map.
    rewrite <- (fst_combine_seq cores 0) at 2. rewrite map_map.
    apply map_ext. intros [i w]. cbn [fst snd]. apply mp_fn_first. }
  split; [exact H|]. rewrite H.
  apply NoDup_map_inj; [|apply seq_NoDup].
  intros i j Hij.
  assert (E : forall x y, Some (Seed x) = Some (Seed y) -> x = y) by (intros x y E; congruence).
  apply E in Hij. lia.
Qed.

(** ** Configuration errors that surface inside a step *)

(** X18: [loss_params] is not checked at startup.  When one of the eight
    weights of lines 326-335 is missing or is not a number, no training
    step completes and none reaches [g_loss.backward()]: the generator is
    never updated. *)
Theorem unusable_weight_stops_generator (W : world) (S : settings) (lp : yaml)
    (epoch i : Z) (st : train_state) (b : batch) (bit : Z)
    (tr : list event) (r : result step_result) (k : string) (e : exn) :
  In k loss_weights ->
  weight lp k = Raise e ->
  train_step W S lp epoch i st b bit = (tr, r) ->
  (forall st', r <> Ok (Completed st')) /\
  (forall g, ~ In (Backward Generator g) tr) /\
  (forall key, In (OptStep key) tr -> key = "msd" \/ key = "mpd").
Proof.
  intros Hk Hw. revert tr r. by_running. open_step. unfold g_loss, discriminator_update.
  unfold loss_weights in Hk. cbn [In] in Hk.
  xrun.
  all: try (exfalso; repeat (destruct Hk as [<-|Hk]; [congruence|]); exact Hk).
  all: split; [discriminate|split]; intros x Hx; cbn [app In] in Hx; split_In Hx.
  all: try (injection Hx as <-; auto).
Qed.

(** X19: with [log_interval] 0 the master completes no training step:
    a step that gets through its last optimizer step raises
    [ZeroDivisionError] at [(i + 1) % log_interval], after the
    parameters were updated. *)
Theorem log_interval_zero (W : world) (S : settings) (lp : yaml)
    (epoch i : Z) (st : train_state) (b : batch) (bit : Z)
    (tr : list event) (r : result step_result) :
  is_master_ordinal W = true ->
  as_int (log_interval S) = Ok 0 ->
  train_step W S lp epoch i st b bit = (tr, r) ->
  (forall st', r <> Ok (Completed st')) /\
  (In (OptStep "text_aligner") tr -> r = Raise ZeroDivisionError).
Proof.
  intros Hm Hli. revert tr r. by_running. open_step.
  unfold log_step, g_loss, discriminator_update, generator_steps.
  rewrite Hm, Hli. xrun.
  all: try match goal with
       | E : (0 =? 0) = false |- _ => discriminate E
       end.
  all: split; [discriminate|]; intros Hx; try reflexivity;
    cbn [app In] in Hx; split_In Hx.
Qed.

(** ** The further properties on the sample inputs *)

Lemma validation_counts_or_flushes_witness :
  exists acc',
    outcome (val_loop (quiet_world [] []) zero_acc [sample_batch; failing_batch]) = Ok acc' /\
    iters_test acc' +
    Z.of_nat (List.length (filter is_MarkStep
      (events (val_loop (quiet_world [] []) zero_acc [sample_batch; failing_batch]))))
    = 0 + 2.
Proof.
  exact (validation_counts_or_flushes (quiet_world [] []) [sample_batch; failing_batch]
           zero_acc eq_refl).
Defined.

Lemma symbol_dict_keys_witness :
  Forall (fun kv => 0 <= snd kv < 3) [(YStr "a", 2); (YStr "b", 1)] /\
  dict_len [] [YStr "a"; YStr "b"; YStr "a"] = Ok 2.
Proof.
  exact (proj2 (symbol_dict_keys [YStr "a"; YStr "b"; YStr "a"]
                  [(YStr "a", 2); (YStr "b", 1)] eq_refl)).
Defined.

Lemma symbol_dict_last_index_witness :
  dict_lookup [(YStr "a", 2); (YStr "b", 1)] (YStr "a") = Some 2.
Proof.
  exact (proj1 (symbol_dict_last_index [YStr "a"; YStr "b"] (YStr "a")
                  [(YStr "a", 2); (YStr "b", 1)] eq_refl)).
Defined.

Lemma worker_never_writes_witness :
  forallb (fun ev => negb (writes ev))
    (events (_mp_fn (second_worker [sample_batch] [sample_batch]) 1
               (sample_config (Some (YMap sample_symbol)) (Some (YStr "base.pth")))))
  = true.
Proof.
  exact (worker_never_writes (second_worker [sample_batch] [sample_batch]) 1
           (sample_config (Some (YMap sample_symbol)) (Some (YStr "base.pth"))) eq_refl).
Defined.

Lemma epochs_count_completed_batches_witness :
  1000 = 999 + completed_in (quiet_world [sample_batch; failing_batch] [sample_batch]) [0].
Proof.
  refine (epochs_count_completed_batches
            (quiet_world [sample_batch; failing_batch] [sample_batch])
            (sample_settings 2) sample_loss_params [0] 999 Inf _ 1000 _).
  vm_compute. reflexivity.
Defined.

Lemma resumed_past_the_end_witness :
  outcome (_mp_fn (resumed_world [sample_batch] []) 0
             (sample_config (Some (YMap sample_symbol)) (Some (YStr "base.pth"))))
  = Ok tt.
Proof.
  refine (f_equal snd (resumed_past_the_end (resumed_world [sample_batch] []) 0
            (sample_config (Some (YMap sample_symbol)) (Some (YStr "base.pth")))
            _ _ _ 1 999 1 _ _ _)).
  - vm_compute. reflexivity.
  - reflexivity.
  - lia.
Defined.

Lemma sampler_fails_iff_witness :
  exists e, sampler Training 200 [1; 10] = Raise e.
Proof.
  apply (proj2 (sampler_fails_iff Training 200 [1; 10]
                  ltac:(repeat constructor; lia) ltac:(intros _; lia))).
  right. reflexivity.
Defined.

Lemma one_frame_example_witness :
  val_step (quiet_world [] []) zero_acc one_frame_batch =
    ([ZeroGrad; Forward "text_aligner"; Forward "text_encoder"; Matmul Mono;
      Forward "style_encoder"; Forward "predictor"; MarkStep],
     Ok zero_acc).
Proof.
  refine (proj2 (one_frame_example (quiet_world [] []) (sample_settings 2)
                   sample_loss_params 0 0 fresh_state one_frame_batch 1 200 zero_acc
                   eq_refl eq_refl _ eq_refl)).
  lia.
Defined.

Lemma short_text_aborts_witness :
  Fl.nan = Fl.nan /\
  outcome (train_step (quiet_world [] []) (sample_settings 2) sample_loss_params
             0 0 fresh_state short_text_batch 1)
  = Raise (RuntimeError "NaN loss detected").
Proof.
  refine (proj2 (short_text_aborts (quiet_world [] []) (sample_settings 2)
                   sample_loss_params 0 0 fresh_state short_text_batch 1
                   [[0]; [0]; [0]]%Q [1; 2; 0] 2 _ _ _ _ (surjective_pairing _))
                Fl.nan _).
  - left. reflexivity.
  - lia.
  - vm_compute. do 15 right. left. reflexivity.
Defined.

Lemma short_text_poisons_validation_witness :
  reported "eval/dur_loss"
    (events (report (quiet_world [] [short_text_batch]) (sample_settings 2) 0 0 Inf
               {| loss_test := Some 1%Q; loss_align := Fl.nan;
                  loss_f := Some (1 # 40)%Q; iters_test := 1 |}))
  = Some Fl.nan.
Proof.
  refine (proj2 (short_text_poisons_validation (quiet_world [] [short_text_batch])
            (sample_settings 2) 0 0 Inf zero_acc _ [short_text_batch] _
            short_text_batch [[0]; [0]; [0]]%Q [1; 2; 0] 2 _ _ _ _ _ _)).
  - vm_compute. reflexivity.
  - reflexivity.
  - left. reflexivity.
  - left. reflexivity.
  - lia.
  - reflexivity.
Defined.

Lemma interim_checkpoints_witness :
  interim_saves
    (events (epoch_loop (quiet_world [sample_batch; failing_batch] [sample_batch])
               (sample_settings 2) sample_loss_params [0] 999 Inf))
  = thousands 999 1000.
Proof.
  refine (interim_checkpoints (quiet_world [sample_batch; failing_batch] [sample_batch])
            (sample_settings 2) sample_loss_params [0] 999 Inf _ 1000 _).
  vm_compute. reflexivity.
Defined.

Lemma epoch_checkpoint_witness :
  epoch_saves
    (events (run_epoch (quiet_world [sample_batch; failing_batch] [sample_batch])
               (sample_settings 2) sample_loss_params 0 999 Inf))
  = [(0, 1000, Some 1%Q)].
Proof.
  refine (proj1 (epoch_checkpoint
            (quiet_world [sample_batch; failing_batch] [sample_batch])
            (sample_settings 2) sample_loss_params 0 999 1 Inf _ 1000 (Best (Some 1%Q))
            _ eq_refl)).
  vm_compute. reflexivity.
Defined.

Lemma checkpoint_strategies_witness :
  getitem (sample_config (Some (YMap sample_symbol)) (Some (YStr "base.pth")))
    "pretrained_model" = Ok (YStr "base.pth").
Proof.
  refine (proj1 (checkpoint_strategies (quiet_world [] []) 0
            (sample_config (Some (YMap sample_symbol)) (Some (YStr "base.pth")))
            (YStr "base.pth") (YBool true) (YStr EmptyString) (YStr EmptyString) _)).
  vm_compute. do 20 right. left. reflexivity.
Defined.

Lemma unusable_weight_stops_generator_witness :
  "msd" = "msd" \/ "msd" = "mpd".
Proof.
  refine (proj2 (proj2 (unusable_weight_stops_generator (quiet_world [] [])
            (sample_settings 2) (YMap []) 0 0 fresh_state sample_batch 1 _ _
            "lambda_dur" (AttributeError "lambda_dur") _ eq_refl
            (surjective_pairing _))) "msd" _).
  - do 4 right. left. reflexivity.
  - vm_compute. do 11 right. left. reflexivity.
Defined.

Lemma log_interval_zero_witness :
  outcome (train_step (quiet_world [] []) unlogged_settings sample_loss_params
             0 0 fresh_state sample_batch 1)
  = Raise ZeroDivisionError.
Proof.
  refine (proj2 (log_interval_zero (quiet_world [] []) unlogged_settings
            sample_loss_params 0 0 fresh_state sample_batch 1 _ _
            eq_refl eq_refl (surjective_pairing _)) _).
  vm_compute. do 20 right. left. reflexivity.
Defined.
